(** * UnderconstrainedGoal: the STOMP noisy filter that pulls the last
      waypoint of a rollout onto an under-constrained Cartesian goal

    Source: stomp_moveit/src/noisy_filters/underconstrained_goal.cpp

    The development embeds the functions of that file as Rocq functions:
    [reduceJacobian], [calculateDampedPseudoInverse], [computeTwist],
    [configure], [setMotionPlanRequest], [runIK] and [filter].
    [calculateMoorePenrosePseudoInverse] has no caller and is left out.

    Conventions of the embedding.
    - A C++ [double] is idealised as an exact rational ([Q]); decimal
      literals of the source denote their decimal value.  Results that
      depend on rounding are therefore outside of this model.  [Q] gives
      [x / 0] the value 0; the two divisions of the source have a divisor
      other than zero at the [EPSILON] and [LAMBDA] of their only caller
      ([damped_divisors_nonzero]).
    - An [int] or [unsigned int] is a [Z]; the one place where the source
      mixes both (the loop test of [runIK]) has the conversion written out.
    - [Eigen::VectorXd] and [Eigen::ArrayXd] are [list Q], [Eigen::ArrayXi]
      is [list Z]; a dense [Eigen::MatrixXd] is its two dimensions and its
      coefficient function.
    - Eigen checks index and size preconditions with [eigen_assert]: the
      program is aborted when assertions are enabled and has undefined
      behaviour otherwise.  The embedding makes that a distinct outcome,
      [EigenAssert].
    - The robot state ([moveit::core::RobotState]), Eigen's angle-axis
      conversion and Eigen's SVD are collaborators of the file; they are
      variables of the sections below. *)

From Stdlib Require Import String ZArith QArith Qabs Qround List Sorted Bool Lia Lqa.
Import ListNotations.
Local Open Scope Q_scope.

Set Implicit Arguments.

(* ================================================================= *)
(** ** Outcomes of a call *)

Inductive outcome (A : Type) : Type :=
| Normal (a : A)      (* the call returns normally *)
| EigenAssert         (* an Eigen index or size precondition is violated *)
| OutOfFuel.          (* the model of a [while] loop ran out of fuel *)

Arguments EigenAssert {A}.
Arguments OutOfFuel {A}.

Definition bind {A B : Type} (m : outcome A) (k : A -> outcome B) : outcome B :=
  match m with
  | Normal a => k a
  | EigenAssert => EigenAssert
  | OutOfFuel => OutOfFuel
  end.

Notation "x <- m ;; k" := (bind m (fun x => k))
  (at level 61, m at next level, right associativity).

(** [eigen_assert(c)] *)
Definition eigen_assert (c : bool) : outcome unit :=
  if c then Normal tt else EigenAssert.

(* ================================================================= *)
(** ** Scalars *)

Definition Qltb (x y : Q) : bool := negb (Qle_bool y x).

(** [M_PI] of <math.h> *)
Definition M_PI : Q := 314159265358979323846 # 100000000000000000000.

(* ================================================================= *)
(** ** Vectors, arrays and matrices of Eigen *)

Definition VectorXd := list Q.
Definition ArrayXd := list Q.
Definition ArrayXi := list Z.

(** [a(i) = x] on a dynamic array; the caller has checked [i < size]. *)
Fixpoint coeff_set {A : Type} (i : nat) (x : A) (a : list A) : list A :=
  match a, i with
  | [], _ => []
  | _ :: t, O => x :: t
  | h :: t, S i' => h :: coeff_set i' x t
  end.

(** [a.resize(n)]: nothing happens when the size is already [n]; otherwise
    the storage is reallocated and its contents are indeterminate, here
    the value [junk]. *)
Definition resize {A : Type} (junk : A) (n : nat) (a : list A) : list A :=
  if Nat.eqb (length a) n then a else repeat junk n.

Record MatrixXd : Type := mkMatrix {
  rows : nat;
  cols : nat;
  coeff : nat -> nat -> Q
}.

(** Sum of [f 0 .. f (n-1)], the inner loop of a matrix product. *)
Fixpoint sumQ (n : nat) (f : nat -> Q) : Q :=
  match n with
  | O => 0
  | S n' => sumQ n' f + f n'
  end.

Record Vector3d : Type := mkVector3d { vx : Q; vy : Q; vz : Q }.

Record Matrix3d : Type := mkMatrix3d {
  row0 : Vector3d; row1 : Vector3d; row2 : Vector3d
}.

Definition v3_sub (a b : Vector3d) : Vector3d :=
  mkVector3d (vx a - vx b) (vy a - vy b) (vz a - vz b).

Definition v3_scale (a : Vector3d) (s : Q) : Vector3d :=
  mkVector3d (vx a * s) (vy a * s) (vz a * s).

Definition v3_dot (a b : Vector3d) : Q :=
  vx a * vx b + vy a * vy b + vz a * vz b.

Definition v3_list (a : Vector3d) : list Q := [vx a; vy a; vz a].

Definition v3_nth (a : Vector3d) (k : nat) : Q := nth k (v3_list a) 0.

Definition m3_transpose (m : Matrix3d) : Matrix3d :=
  mkMatrix3d
    (mkVector3d (vx (row0 m)) (vx (row1 m)) (vx (row2 m)))
    (mkVector3d (vy (row0 m)) (vy (row1 m)) (vy (row2 m)))
    (mkVector3d (vz (row0 m)) (vz (row1 m)) (vz (row2 m))).

Definition m3_row (m : Matrix3d) (k : nat) : Vector3d :=
  match k with
  | O => row0 m
  | S O => row1 m
  | _ => row2 m
  end.

Definition m3_col (m : Matrix3d) (k : nat) : Vector3d :=
  m3_row (m3_transpose m) k.

Definition m3_mul (a b : Matrix3d) : Matrix3d :=
  let r (u : Vector3d) :=
    mkVector3d (v3_dot u (m3_col b 0)) (v3_dot u (m3_col b 1)) (v3_dot u (m3_col b 2)) in
  mkMatrix3d (r (row0 a)) (r (row1 a)) (r (row2 a)).

Definition m3_identity : Matrix3d :=
  mkMatrix3d (mkVector3d 1 0 0) (mkVector3d 0 1 0) (mkVector3d 0 0 1).

Definition v3_eq (a b : Vector3d) : Prop :=
  vx a == vx b /\ vy a == vy b /\ vz a == vz b.

Definition m3_eq (a b : Matrix3d) : Prop :=
  v3_eq (row0 a) (row0 b) /\ v3_eq (row1 a) (row1 b) /\ v3_eq (row2 a) (row2 b).

(** [Eigen::Affine3d], seen through [translation()] and [rotation()]. *)
Record Affine3d : Type := mkAffine3d {
  translation : Vector3d;
  rotation : Matrix3d
}.

(** [Eigen::AngleAxisd] *)
Record AngleAxis : Type := mkAngleAxis {
  angle : Q;
  axis : Vector3d
}.

(** What [Eigen::JacobiSVD] with [ComputeThinU | ComputeThinV] gives. *)
Record SVD : Type := mkSVD {
  matrixU : MatrixXd;
  singularValues : VectorXd;
  matrixV : MatrixXd
}.

Definition mat_transpose (m : MatrixXd) : MatrixXd :=
  mkMatrix (cols m) (rows m) (fun i j => coeff m j i).

(** [m * d.asDiagonal()]: Eigen scales column [k] of [m] by [d(k)]. *)
Definition mul_diagonal (m : MatrixXd) (d : VectorXd) : MatrixXd :=
  mkMatrix (rows m) (length d) (fun i k => coeff m i k * nth k d 0).

(** Dense product [a * b]. *)
Definition mat_mul (a b : MatrixXd) : MatrixXd :=
  mkMatrix (rows a) (cols b)
    (fun i j => sumQ (cols a) (fun k => coeff a i k * coeff b k j)).

(** [m * v] for a vector [v]; Eigen asserts [m.cols() == v.size()]. *)
Definition mat_vec (m : MatrixXd) (v : VectorXd) : outcome VectorXd :=
  _ <- eigen_assert (Nat.eqb (cols m) (length v)) ;;
  Normal (map (fun i => sumQ (cols m) (fun k => coeff m i k * nth k v 0))
              (seq 0 (rows m))).

(** [for (i = start; i < start + count; ++i) s = body i s] *)
Fixpoint for_loop {St : Type} (start count : nat) (body : nat -> St -> St) (s : St) : St :=
  match count with
  | O => s
  | S c => for_loop (S start) c body (body start s)
  end.

(* ================================================================= *)
(** ** File-level constants *)

Definition DOF_SIZE : nat := 6.
Definition EPSILON : Q := 1 # 10.
Definition LAMBDA : Q := 1 # 100.

(* ================================================================= *)
(** ** Static helpers of the file *)

(** [reduceJacobian]: row [i] of the result is row [indices[i]] of [jacb];
    [jacb.row(k)] asserts [k < jacb.rows()]. *)
Definition reduceJacobian (jacb : MatrixXd) (indices : list nat) : outcome MatrixXd :=
  _ <- eigen_assert (forallb (fun k => Nat.ltb k (rows jacb)) indices) ;;
  Normal (mkMatrix (length indices) (cols jacb)
            (fun i j => coeff jacb (nth i indices O) j)).

(** The body of the loop over the singular values. *)
Definition damp_singular_value (eps lambda : Q) (Sv : VectorXd) (i : nat)
    (inv_Sv : VectorXd) : VectorXd :=
  let s := nth i Sv 0 in
  if Qltb eps (Qabs s)
  then coeff_set i (1 / s) inv_Sv
  else coeff_set i (s / (s * s + lambda * lambda)) inv_Sv.

Section PseudoInverse.

(** [Eigen::JacobiSVD<MatrixXd> svd(jacb, ComputeThinU | ComputeThinV)].
    For a K x N argument Eigen returns U of size K x m, m singular values
    and V of size N x m, with m = min(K, N). *)
Variable JacobiSVD : MatrixXd -> SVD.

(** [calculateDampedPseudoInverse]; the default arguments of the source
    (eps = 0.011, lambda = 0.01) are not used by any caller. *)
Definition calculateDampedPseudoInverse (jacb : MatrixXd) (eps lambda : Q) : MatrixXd :=
  let svd := JacobiSVD jacb in
  let U := matrixU svd in
  let Sv := singularValues svd in
  let V := matrixV svd in
  let nSv := length Sv in
  let inv_Sv := for_loop 0 nSv (damp_singular_value eps lambda Sv) (repeat 0 nSv) in
  mat_mul (mul_diagonal V inv_Sv) (mat_transpose U).

End PseudoInverse.

(** The loop of [computeTwist] that forces the angle into [-pi, pi]. *)
Fixpoint force_angle_range (fuel : nat) (angle : Q) : outcome Q :=
  if Qltb M_PI angle || Qltb angle (- M_PI) then
    match fuel with
    | O => OutOfFuel
    | S fuel' =>
        let angle := if Qltb M_PI angle then angle - 2 * M_PI else angle in
        let angle := if Qltb angle (- M_PI) then angle + 2 * M_PI else angle in
        force_angle_range fuel' angle
    end
  else Normal angle.

(** Fuel that is enough for [force_angle_range] on [angle]. *)
Definition angle_fuel (angle : Q) : nat :=
  Z.to_nat (Qceiling (Qabs angle / (2 * M_PI))).

(** [twist.head(3) = v]; the block asserts [3 <= twist.size()]. *)
Definition set_head3 (twist : VectorXd) (v : Vector3d) : outcome VectorXd :=
  _ <- eigen_assert (Nat.leb 3 (length twist)) ;;
  Normal (v3_list v ++ skipn 3 twist).

(** [twist.tail(3) = v] *)
Definition set_tail3 (twist : VectorXd) (v : Vector3d) : outcome VectorXd :=
  _ <- eigen_assert (Nat.leb 3 (length twist)) ;;
  Normal (firstn (length twist - 3) twist ++ v3_list v).

(** [(nullity == 0).select(0, twist)] on arrays of one size. *)
Fixpoint select_zero (nullity : ArrayXi) (twist : VectorXd) : VectorXd :=
  match nullity, twist with
  | n :: ns, t :: ts => (if (n =? 0)%Z then 0 else t) :: select_zero ns ts
  | _, _ => []
  end.

Section Twist.

(** [Eigen::AngleAxisd(const Matrix3d&)] *)
Variable AngleAxisd : Matrix3d -> AngleAxis.

Definition computeTwist (p0 pf : Affine3d) (nullity : ArrayXi) : outcome VectorXd :=
  let twist := repeat 0 (length nullity) in
  let twist_pos := v3_sub (translation pf) (translation p0) in
  let relative_rot := AngleAxisd (m3_mul (m3_transpose (rotation p0)) (rotation pf)) in
  let angle0 := angle relative_rot in
  let axis := axis relative_rot in
  angle <- force_angle_range (angle_fuel angle0) angle0 ;;
  let twist_rot := v3_scale axis angle in
  twist <- set_head3 twist twist_pos ;;
  twist <- set_tail3 twist twist_rot ;;
  Normal (select_zero nullity twist).

End Twist.

(* ================================================================= *)
(** ** XmlRpc values (the xmlrpcpp library)

    [configure] copies its argument into a non-const [XmlRpcValue], so the
    non-const accessors apply: indexing by a key turns an invalid
    value into an empty struct, throws [XmlRpcException] on any other
    non-struct and default-inserts an invalid value under a missing key;
    the conversion operators turn an invalid value into a zero of the
    requested type and throw on a value of another type. *)

#[local] Set Warnings "-register-all".

Inductive XmlRpcValue : Type :=
| TypeInvalid
| TypeBoolean (b : bool)
| TypeInt (i : Z)
| TypeDouble (d : Q)
| TypeString (s : string)
| TypeDateTime (t : Z)
| TypeBase64 (data : list Z)
| TypeArray (a : list XmlRpcValue)
| TypeStruct (m : list (string * XmlRpcValue)).

(** [None] stands for a thrown [XmlRpcException]. *)
Definition assertStruct (v : XmlRpcValue) : option (list (string * XmlRpcValue)) :=
  match v with
  | TypeInvalid => Some []
  | TypeStruct m => Some m
  | _ => None
  end.

(** [m[key]] on the [std::map] of a struct. *)
Fixpoint struct_member (key : string) (m : list (string * XmlRpcValue)) : XmlRpcValue :=
  match m with
  | [] => TypeInvalid
  | (k, v) :: rest => if String.eqb key k then v else struct_member key rest
  end.

(** [v.getType() == XmlRpcValue::TypeArray] *)
Definition is_TypeArray (v : XmlRpcValue) : bool :=
  match v with
  | TypeArray _ => true
  | _ => false
  end.

(** The elements [v[0] .. v[v.size()-1]] of a value known to be an array. *)
Definition array_elements (v : XmlRpcValue) : list XmlRpcValue :=
  match v with
  | TypeArray a => a
  | _ => []
  end.

(** [v.size()] of a value known to be an array. *)
Definition array_size (v : XmlRpcValue) : nat := length (array_elements v).

(** [static_cast<int>(v)] *)
Definition cast_int (v : XmlRpcValue) : option Z :=
  match v with
  | TypeInt i => Some i
  | TypeInvalid => Some 0%Z
  | _ => None
  end.

(** [static_cast<double>(v)] *)
Definition cast_double (v : XmlRpcValue) : option Q :=
  match v with
  | TypeDouble d => Some d
  | TypeInvalid => Some 0
  | _ => None
  end.

(* ================================================================= *)
(** ** The filter object *)

(** Modelled from the spec: the class declaration (underconstrained_goal.h)
    is not among the sources.  The members are the ones this file reads
    and writes, with the types of the data model: the constraint mask and
    the iteration budget are integers ([configure] stores an [int] in
    each), the update rates and the thresholds are reals, the goal is a
    pose.  The robot model, the robot state, the group name and the tool
    link are behind the collaborators [forward_kinematics] and
    [getJacobian] below; [setMotionPlanRequest] assigns the robot state
    and the tool link, and [request_outcome] shows them after the call. *)
Record UnderconstrainedGoal : Type := mkGoal {
  dof_nullity_ : ArrayXi;
  joint_update_rates_ : ArrayXd;
  cartesian_convergence_thresholds_ : ArrayXd;
  max_iterations_ : Z;
  tool_goal_pose_ : Affine3d
}.

Definition set_dof_nullity (self : UnderconstrainedGoal) (a : ArrayXi) :=
  mkGoal a (joint_update_rates_ self) (cartesian_convergence_thresholds_ self)
         (max_iterations_ self) (tool_goal_pose_ self).

Definition set_thresholds (self : UnderconstrainedGoal) (a : ArrayXd) :=
  mkGoal (dof_nullity_ self) (joint_update_rates_ self) a
         (max_iterations_ self) (tool_goal_pose_ self).

Definition set_update_rates (self : UnderconstrainedGoal) (a : ArrayXd) :=
  mkGoal (dof_nullity_ self) a (cartesian_convergence_thresholds_ self)
         (max_iterations_ self) (tool_goal_pose_ self).

Definition set_max_iterations (self : UnderconstrainedGoal) (n : Z) :=
  mkGoal (dof_nullity_ self) (joint_update_rates_ self)
         (cartesian_convergence_thresholds_ self) n (tool_goal_pose_ self).

(** How one of the three copy loops of [configure] ends. *)
Inductive copy_result (A : Type) : Type :=
| Copied (a : list A)      (* the loop ran to its end *)
| Thrown (a : list A)      (* a conversion threw; [a] is the array at that point *)
| OutOfRange.              (* [arr(i)] with [i >= arr.size()] *)

Arguments OutOfRange {A}.

(** [for (i = 0u; i < param.size(); i++) arr(i) = static_cast<T>(param[i]);]
    with [i] the index of the head of [param]. *)
Fixpoint copy_loop {A : Type} (cast : XmlRpcValue -> option A)
    (param : list XmlRpcValue) (i : nat) (arr : list A) : copy_result A :=
  match param with
  | [] => Copied arr
  | v :: rest =>
      match cast v with
      | None => Thrown arr
      | Some x =>
          if Nat.ltb i (length arr)
          then copy_loop cast rest (S i) (coeff_set i x arr)
          else OutOfRange
      end
  end.

(** The test that makes [configure] log "invalid array parameters". *)
Definition invalid_array_parameters
    (dof_nullity_param dof_thresholds_param joint_updates_param : XmlRpcValue) : bool :=
  negb (is_TypeArray dof_nullity_param)
  || Nat.ltb (array_size dof_nullity_param) DOF_SIZE
  || negb (is_TypeArray dof_thresholds_param)
  || Nat.ltb (array_size dof_thresholds_param) DOF_SIZE
  || negb (is_TypeArray joint_updates_param)
  || Nat.eqb (array_size joint_updates_param) 0.

Section Configure.

(** Contents of freshly allocated Eigen storage. *)
Variable indeterminate_int : Z.
Variable indeterminate_double : Q.

(** [UnderconstrainedGoal::configure]: the return value and the object
    after the call. *)
Definition configure (config : XmlRpcValue) (self : UnderconstrainedGoal)
  : outcome (bool * UnderconstrainedGoal) :=
  let params := config in
  match assertStruct params with
  | None => Normal (false, self)
  | Some m =>
    let dof_nullity_param := struct_member "constrained_dofs" m in
    let dof_thresholds_param := struct_member "cartesian_convergence" m in
    let joint_updates_param := struct_member "joint_update_rates" m in
    if invalid_array_parameters dof_nullity_param dof_thresholds_param joint_updates_param
    then Normal (false, self)
    else
      match copy_loop cast_int (array_elements dof_nullity_param) 0
              (resize indeterminate_int DOF_SIZE (dof_nullity_ self)) with
      | OutOfRange => EigenAssert
      | Thrown a => Normal (false, set_dof_nullity self a)
      | Copied a =>
        let self := set_dof_nullity self a in
        match copy_loop cast_double (array_elements dof_thresholds_param) 0
                (resize indeterminate_double DOF_SIZE
                   (cartesian_convergence_thresholds_ self)) with
        | OutOfRange => EigenAssert
        | Thrown a => Normal (false, set_thresholds self a)
        | Copied a =>
          let self := set_thresholds self a in
          match copy_loop cast_double (array_elements joint_updates_param) 0
                  (resize indeterminate_double (array_size joint_updates_param)
                     (joint_update_rates_ self)) with
          | OutOfRange => EigenAssert
          | Thrown a => Normal (false, set_update_rates self a)
          | Copied a =>
            let self := set_update_rates self a in
            match cast_int (struct_member "max_ik_iterations" m) with
            | None => Normal (false, self)
            | Some n => Normal (true, set_max_iterations self n)
            end
          end
        end
      end
  end.

End Configure.

(* ================================================================= *)
(** ** The numeric IK loop *)

(** Conversion of an [int] to [unsigned int], as the comparison
    [iteration_count < max_iterations_] performs it. *)
Definition to_unsigned (z : Z) : Z := (z mod 2 ^ 32)%Z.

(** The loop of [runIK] that collects the indices [i] with
    [dof_nullity_(i) != 0]; [i] is the index of the head of [nullity]. *)
Fixpoint constrained_indices (i : nat) (nullity : ArrayXi) : list nat :=
  match nullity with
  | [] => []
  | n :: rest =>
      if (n =? 0)%Z then constrained_indices (S i) rest
      else i :: constrained_indices (S i) rest
  end.

(** [(tool_twist.cwiseAbs().array() < thresholds).all()]; the comparison
    asserts that both sides have one size. *)
Fixpoint all_below (twist thresholds : list Q) : bool :=
  match twist, thresholds with
  | t :: ts, h :: hs => Qltb (Qabs t) h && all_below ts hs
  | _, _ => true
  end.

Definition check_convergence (tool_twist : VectorXd) (thresholds : ArrayXd) : outcome bool :=
  _ <- eigen_assert (Nat.eqb (length tool_twist) (length thresholds)) ;;
  Normal (all_below tool_twist thresholds).

(** [jacb.bottomRows(3) = R.transpose() * jacb.bottomRows(3)]; the block
    asserts [3 <= jacb.rows()], and Eigen evaluates the product into a
    temporary before it assigns. *)
Definition transform_bottom_rows (R : Matrix3d) (jacb : MatrixXd) : outcome MatrixXd :=
  _ <- eigen_assert (Nat.leb 3 (rows jacb)) ;;
  let r0 := (rows jacb - 3)%nat in
  let Rt := m3_transpose R in
  Normal (mkMatrix (rows jacb) (cols jacb)
            (fun i j =>
               if Nat.leb r0 i
               then sumQ 3 (fun k => v3_nth (m3_row Rt (i - r0)) k * coeff jacb (r0 + k) j)
               else coeff jacb i j)).

(** [joint_pose += (joint_update_rates_ * delta_j.array()).matrix()]; both
    the array product and the sum assert equal sizes. *)
Fixpoint add_scaled (joint_pose : VectorXd) (rates : ArrayXd) (delta_j : VectorXd) : VectorXd :=
  match joint_pose, rates, delta_j with
  | q :: qs, r :: rs, d :: ds => (q + r * d) :: add_scaled qs rs ds
  | _, _, _ => []
  end.

Definition update_joint_pose (joint_pose : VectorXd) (rates : ArrayXd) (delta_j : VectorXd)
  : outcome VectorXd :=
  _ <- eigen_assert (Nat.eqb (length rates) (length delta_j)) ;;
  _ <- eigen_assert (Nat.eqb (length joint_pose) (length delta_j)) ;;
  Normal (add_scaled joint_pose rates delta_j).

(** The variables of [runIK] that live across iterations. *)
Record ik_state : Type := mkIkState {
  joint_pose : VectorXd;
  tool_current_pose : Affine3d;
  iteration_count : Z
}.

(** How one pass through the loop body ends. *)
Inductive ik_step : Type :=
| StepConverged                 (* [converged = true; break;] *)
| StepNoJacobian                (* [return false;] after a failed getJacobian *)
| StepUpdated (s : ik_state).   (* the end of the body is reached *)

(** How [runIK] leaves its loop. *)
Inductive ik_status : Type :=
| Converged
| IterationBudgetExhausted
| JacobianUnavailable.

Record ik_exit : Type := mkIkExit {
  status : ik_status;
  final : ik_state
}.

Definition converged (e : ik_exit) : bool :=
  match status e with
  | Converged => true
  | _ => false
  end.

(** What [filter] leaves behind: its return value and its two reference
    arguments. *)
Record filter_result : Type := mkFilterResult {
  filter_return : bool;
  filter_parameters : MatrixXd;
  filter_filtered : bool
}.

Section Solver.

Variable AngleAxisd : Matrix3d -> AngleAxis.
Variable JacobiSVD : MatrixXd -> SVD.

(** The tool pose of the robot state after
    [state_->setJointGroupPositions(joint_group, joint_pose)]:
    [state_->getGlobalLinkTransform(tool_link_)]. *)
Variable forward_kinematics : VectorXd -> Affine3d.

(** [state_->getJacobian(joint_group, tool link, Vector3d::Zero(), jacb)]
    in that robot state; [None] when the call returns false. *)
Variable getJacobian : VectorXd -> option MatrixXd.

(** The body of the [while] loop of [runIK]. *)
Definition ik_iteration (self : UnderconstrainedGoal) (tool_goal_pose : Affine3d)
    (indices : list nat) (s : ik_state) : outcome ik_step :=
  tool_twist <- computeTwist AngleAxisd (tool_current_pose s) tool_goal_pose
                  (dof_nullity_ self) ;;
  below <- check_convergence tool_twist (cartesian_convergence_thresholds_ self) ;;
  if below then Normal StepConverged
  else
    let tool_twist_reduced := map (fun k => nth k tool_twist 0) indices in
    match getJacobian (joint_pose s) with
    | None => Normal StepNoJacobian
    | Some jacb =>
        jacb <- transform_bottom_rows (rotation (tool_current_pose s)) jacb ;;
        jacb_reduced <- reduceJacobian jacb indices ;;
        let jacb_pseudo_inv :=
          calculateDampedPseudoInverse JacobiSVD jacb_reduced EPSILON LAMBDA in
        delta_j <- mat_vec jacb_pseudo_inv tool_twist_reduced ;;
        joint_pose <- update_joint_pose (joint_pose s) (joint_update_rates_ self) delta_j ;;
        Normal (StepUpdated
                  (mkIkState joint_pose (forward_kinematics joint_pose)
                             (to_unsigned (iteration_count s + 1))))
    end.

(** [ik_updates n s s']: [n] passes through the loop body, each one
    ending in the update of the joint vector, lead from [s] to [s']. *)
Inductive ik_updates (self : UnderconstrainedGoal) (goal : Affine3d) (indices : list nat)
  : nat -> ik_state -> ik_state -> Prop :=
| updates_none (s : ik_state) : ik_updates self goal indices 0 s s
| updates_step (n : nat) (s s' s'' : ik_state) :
    ik_iteration self goal indices s = Normal (StepUpdated s') ->
    ik_updates self goal indices n s' s'' ->
    ik_updates self goal indices (S n) s s''.

(** [while (iteration_count < max_iterations_) { ... }] *)
Fixpoint ik_loop (fuel : nat) (self : UnderconstrainedGoal) (tool_goal_pose : Affine3d)
    (indices : list nat) (s : ik_state) : outcome ik_exit :=
  match fuel with
  | O => OutOfFuel
  | S fuel' =>
      if (iteration_count s <? to_unsigned (max_iterations_ self))%Z then
        step <- ik_iteration self tool_goal_pose indices s ;;
        match step with
        | StepConverged => Normal (mkIkExit Converged s)
        | StepNoJacobian => Normal (mkIkExit JacobianUnavailable s)
        | StepUpdated s' => ik_loop fuel' self tool_goal_pose indices s'
        end
      else Normal (mkIkExit IterationBudgetExhausted s)
  end.

(** [runIK] up to its [return]: the way the loop was left and the
    variables at that point. *)
Definition ik_run (self : UnderconstrainedGoal) (tool_goal_pose : Affine3d)
    (init_joint_pose : VectorXd) : outcome ik_exit :=
  let joint_pose := init_joint_pose in
  let tool_current_pose := forward_kinematics joint_pose in
  let indices := constrained_indices 0 (dof_nullity_ self) in
  let iteration_count := 0%Z in
  ik_loop (S (Z.to_nat (to_unsigned (max_iterations_ self)))) self tool_goal_pose indices
          (mkIkState joint_pose tool_current_pose iteration_count).

(** [UnderconstrainedGoal::runIK]: the return value and [joint_pose]. *)
Definition runIK (self : UnderconstrainedGoal) (tool_goal_pose : Affine3d)
    (init_joint_pose : VectorXd) : outcome (bool * VectorXd) :=
  e <- ik_run self tool_goal_pose init_joint_pose ;;
  Normal (converged e, joint_pose (final e)).

(** [parameters.rightCols(1)] read as a vector; the block asserts
    [1 <= parameters.cols()]. *)
Definition rightCols1 (parameters : MatrixXd) : outcome VectorXd :=
  _ <- eigen_assert (Nat.leb 1 (cols parameters)) ;;
  Normal (map (fun i => coeff parameters i (cols parameters - 1)) (seq 0 (rows parameters))).

(** [parameters.rightCols(1) = v] *)
Definition set_rightCols1 (parameters : MatrixXd) (v : VectorXd) : outcome MatrixXd :=
  _ <- eigen_assert (Nat.leb 1 (cols parameters)) ;;
  _ <- eigen_assert (Nat.eqb (length v) (rows parameters)) ;;
  Normal (mkMatrix (rows parameters) (cols parameters)
            (fun i j => if Nat.eqb j (cols parameters - 1) then nth i v 0
                        else coeff parameters i j)).

(** [UnderconstrainedGoal::filter] *)
Definition filter (self : UnderconstrainedGoal)
    (start_timestep num_timesteps : nat) (iteration_number rollout_number : Z)
    (parameters : MatrixXd) (filtered : bool) : outcome filter_result :=
  init_joint_pose <- rightCols1 parameters ;;
  ik <- runIK self (tool_goal_pose_ self) init_joint_pose ;;
  let (ok, joint_pose) := ik in
  if negb ok then Normal (mkFilterResult false parameters false)
  else
    parameters <- set_rightCols1 parameters joint_pose ;;
    Normal (mkFilterResult true parameters true).

End Solver.

(** [configure] returns before it has assigned to any member: its
    argument is no struct, or the test on the three arrays fails. *)
Definition rejected_before_copy (config : XmlRpcValue) : bool :=
  match assertStruct config with
  | None => true
  | Some m =>
      invalid_array_parameters (struct_member "constrained_dofs" m)
        (struct_member "cartesian_convergence" m)
        (struct_member "joint_update_rates" m)
  end.

(** [a] holds the entries of [param], each converted by [cast]. *)
Definition converted {A : Type} (cast : XmlRpcValue -> option A)
    (param : list XmlRpcValue) (a : list A) : Prop :=
  Forall2 (fun v x => cast v = Some x) param a.

(** A copy loop from [param] into [arr] was left by the exception of the
    conversion of some entry [k]: [a] holds the [k] entries converted
    before it, followed by what [arr] had from [k] on. *)
Definition interrupted {A : Type} (cast : XmlRpcValue -> option A)
    (param : list XmlRpcValue) (arr a : list A) : Prop :=
  exists (k : nat) (xs : list A),
    (k < length param)%nat /\
    cast (nth k param TypeInvalid) = None /\
    converted cast (firstn k param) xs /\
    a = xs ++ skipn k arr.

(** What [configure] leaves in the three arrays of [self'] when a
    conversion throws after the test on the arrays has passed: the
    arrays whose copy loop has run to its end hold the converted
    entries of their parameter, the array of the loop that threw is
    [interrupted], and the arrays of the later loops are those of
    [self].  The exception comes from the first, the second or the third
    copy loop, or from the conversion of the budget. *)
Definition retained_after_exception (indeterminate_int : Z) (indeterminate_double : Q)
    (m : list (string * XmlRpcValue)) (self self' : UnderconstrainedGoal) : Prop :=
  let dofs := array_elements (struct_member "constrained_dofs" m) in
  let thresholds := array_elements (struct_member "cartesian_convergence" m) in
  let rates := array_elements (struct_member "joint_update_rates" m) in
  (interrupted cast_int dofs
     (resize indeterminate_int DOF_SIZE (dof_nullity_ self)) (dof_nullity_ self') /\
   cartesian_convergence_thresholds_ self' = cartesian_convergence_thresholds_ self /\
   joint_update_rates_ self' = joint_update_rates_ self)
  \/
  (converted cast_int dofs (dof_nullity_ self') /\
   interrupted cast_double thresholds
     (resize indeterminate_double DOF_SIZE (cartesian_convergence_thresholds_ self))
     (cartesian_convergence_thresholds_ self') /\
   joint_update_rates_ self' = joint_update_rates_ self)
  \/
  (converted cast_int dofs (dof_nullity_ self') /\
   converted cast_double thresholds (cartesian_convergence_thresholds_ self') /\
   interrupted cast_double rates
     (resize indeterminate_double (length rates) (joint_update_rates_ self))
     (joint_update_rates_ self'))
  \/
  (converted cast_int dofs (dof_nullity_ self') /\
   converted cast_double thresholds (cartesian_convergence_thresholds_ self') /\
   converted cast_double rates (joint_update_rates_ self') /\
   cast_int (struct_member "max_ik_iterations" m) = None).

(** The configured object has the two arrays of [DOF_SIZE] entries. *)
Definition configured (self : UnderconstrainedGoal) : Prop :=
  length (dof_nullity_ self) = DOF_SIZE /\
  length (cartesian_convergence_thresholds_ self) = DOF_SIZE.

(* ================================================================= *)
(** ** The damped pseudo-inverse in the words of its specification *)

(** The inverse contribution of one singular value: [1 / s] when
    [|s| > epsilon], the damped form [s / (s^2 + lambda^2)] otherwise. *)
Definition spec_inverse_contribution (epsilon lambda s : Q) : Q :=
  if Qltb epsilon (Qabs s) then 1 / s else s / (s * s + lambda * lambda).

(** The square matrix [diag(d)]. *)
Definition spec_diag (d : list Q) : MatrixXd :=
  mkMatrix (length d) (length d) (fun i j => if Nat.eqb i j then nth i d 0 else 0).

(** [V * diag(invSigma) * U^T] as a product of three dense matrices. *)
Definition spec_pseudo_inverse (svd : SVD) (epsilon lambda : Q) : MatrixXd :=
  mat_mul
    (mat_mul (matrixV svd)
       (spec_diag (map (spec_inverse_contribution epsilon lambda) (singularValues svd))))
    (mat_transpose (matrixU svd)).

(* ================================================================= *)
(** ** Fixtures: configurations and a one-joint arm

    The arm has one prismatic joint along the x axis of the base frame:
    the tool sits at [(q, 0, 0)] and never rotates.  Its Jacobian is the
    6 x 1 column [(1, 0, 0, 0, 0, 0)]. *)

Module Fixture.

Definition make_config (dofs : list Z) (thresholds rates : list Q) (max_ik : XmlRpcValue)
  : XmlRpcValue :=
  TypeStruct
    [ ("constrained_dofs"%string, TypeArray (map TypeInt dofs));
      ("cartesian_convergence"%string, TypeArray (map TypeDouble thresholds));
      ("joint_update_rates"%string, TypeArray (map TypeDouble rates));
      ("max_ik_iterations"%string, max_ik) ].

Definition tight : list Q := repeat (1 # 1000) 6.

Definition pose_at (x : Q) : Affine3d :=
  mkAffine3d (mkVector3d x 0 0) m3_identity.

(** A fully constrained filter with goal x = 1. *)
Definition full_goal (max_ik : Z) : UnderconstrainedGoal :=
  mkGoal [1; 1; 1; 1; 1; 1]%Z [1 # 2] tight max_ik (pose_at 1).

Definition forward_kinematics (q : VectorXd) : Affine3d := pose_at (nth 0 q 0).

Definition jacobian : MatrixXd :=
  mkMatrix 6 1 (fun i j => if Nat.eqb i 0 && Nat.eqb j 0 then 1 else 0).

Definition getJacobian (q : VectorXd) : option MatrixXd := Some jacobian.

(** A robot state whose Jacobian query fails. *)
Definition noJacobian (q : VectorXd) : option MatrixXd := None.

(** The tool of the arm never rotates, so every relative rotation is
    the identity, for which Eigen answers angle 0 about the x axis. *)
Definition AngleAxisd (R : Matrix3d) : AngleAxis :=
  mkAngleAxis 0 (mkVector3d 1 0 0).

(** An angle-axis conversion that answers an angle beyond pi. *)
Definition wound_AngleAxisd (R : Matrix3d) : AngleAxis :=
  mkAngleAxis 10 (mkVector3d 0 0 1).

(** The thin SVD of a K x 1 matrix [(c, 0, ..., 0)] with [0 <= c]:
    U = (1, 0, ..., 0), one singular value [c], V = (1). *)
Definition JacobiSVD (m : MatrixXd) : SVD :=
  mkSVD (mkMatrix (rows m) 1 (fun i j => if Nat.eqb i 0 then 1 else 0))
        [coeff m 0 0]
        (mkMatrix 1 1 (fun i j => 1)).

(** A one-row trajectory with the waypoints [0; 0; x]. *)
Definition waypoints (x : Q) : MatrixXd :=
  mkMatrix 1 3 (fun i j => if Nat.eqb j 2 then x else 0).

(** The same filter with goal x = 0 and thresholds that are all zero. *)
Definition zero_threshold_goal : UnderconstrainedGoal :=
  mkGoal [1; 1; 1; 1; 1; 1]%Z [1 # 2] (repeat 0 6) 1 (pose_at 0).

(** The value of a call that returns normally. *)
Definition returned {A : Type} (default : A) (m : outcome A) : A :=
  match m with
  | Normal a => a
  | _ => default
  end.

End Fixture.

(* ================================================================= *)
(** ** The motion plan request

    The messages of [moveit_msgs] and [geometry_msgs], with the fields
    that [setMotionPlanRequest] reads. *)

Record Point : Type := mkPoint { point_x : Q; point_y : Q; point_z : Q }.

Record Quaternion : Type := mkQuaternion {
  quat_x : Q; quat_y : Q; quat_z : Q; quat_w : Q
}.

(** [geometry_msgs::Pose] *)
Record Pose : Type := mkPose {
  pose_position : Point;
  pose_orientation : Quaternion
}.

(** [moveit_msgs::PositionConstraint], through
    [constraint_region.primitive_poses]. *)
Record PositionConstraint : Type := mkPositionConstraint {
  primitive_poses : list Pose
}.

(** [moveit_msgs::OrientationConstraint], through [orientation]. *)
Record OrientationConstraint : Type := mkOrientationConstraint {
  constraint_orientation : Quaternion
}.

(** [moveit_msgs::JointConstraint], through [joint_name] and [position]. *)
Record JointConstraint : Type := mkJointConstraint {
  joint_name : string;
  joint_position : Q
}.

(** [moveit_msgs::Constraints] *)
Record Constraints : Type := mkConstraints {
  position_constraints : list PositionConstraint;
  orientation_constraints : list OrientationConstraint;
  joint_constraints : list JointConstraint
}.

(** The two values of [moveit_msgs::MoveItErrorCodes] that the file
    assigns. *)
Inductive MoveItErrorCode : Type :=
| SUCCESS
| INVALID_GOAL_CONSTRAINTS.

(** How a call of [setMotionPlanRequest] ends.  Besides the five members
    of [UnderconstrainedGoal], the call assigns the members [tool_link_]
    and [state_] of the object; it never reads what they held before, so
    they appear in the outcome only. *)
Inductive request_outcome (RobotState : Type) : Type :=
| RequestReturned (ret : bool) (error_code : MoveItErrorCode)
    (self : UnderconstrainedGoal) (tool_link_ : string) (state_ : RobotState)
| RequestOutOfRange   (* [primitive_poses[0]] of an empty vector *)
| RequestThrown (tool_link_ : string) (state_ : RobotState).
    (* an exception of the robot state leaves the function; the two
       members are as the exception found them *)

Arguments RequestOutOfRange {RobotState}.

Definition set_tool_goal_pose (self : UnderconstrainedGoal) (pose : Affine3d) :=
  mkGoal (dof_nullity_ self) (joint_update_rates_ self)
         (cartesian_convergence_thresholds_ self) (max_iterations_ self) pose.

(** [v.empty()] *)
Definition empty {A : Type} (v : list A) : bool :=
  match v with
  | [] => true
  | _ :: _ => false
  end.

Section MotionPlanRequest.

(** [moveit_msgs::RobotState], the start state of the request, and
    [moveit::core::RobotState]. *)
Variable RobotStateMsg : Type.
Variable RobotState : Type.

(** [tf::poseMsgToEigen] *)
Variable poseMsgToEigen : Pose -> Affine3d.

(** [robot_model_->getJointModelGroup(group_name_)->getLinkModelNames().back()],
    fixed since [initialize]. *)
Variable group_tool_link : string.

(** [new RobotState(robot_model_)] *)
Variable new_RobotState : RobotState.

(** [robotStateMsgToRobotState(msg, state)], through the state it leaves. *)
Variable robotStateMsgToRobotState : RobotStateMsg -> RobotState -> RobotState.

(** [state.setVariablePosition(name, value)]; [None] when it throws (a
    name that the robot model does not know), which it does before it
    has changed the state. *)
Variable setVariablePosition : RobotState -> string -> Q -> option RobotState.

(** [state.update(true)], [state.enforceBounds(joint_group)] and
    [state.getGlobalLinkTransform(link)]. *)
Variable update : RobotState -> RobotState.
Variable enforceBounds : RobotState -> RobotState.
Variable getGlobalLinkTransform : RobotState -> string -> Affine3d.

(** [for (auto& jc : joint_constraints)
       state_->setVariablePosition(jc.joint_name, jc.position);]
    [inr] is the state after the loop, [inl] the state in which a call
    threw. *)
Fixpoint copy_joint_goal (state : RobotState) (joint_constraints : list JointConstraint)
  : RobotState + RobotState :=
  match joint_constraints with
  | [] => inr state
  | jc :: rest =>
      match setVariablePosition state (joint_name jc) (joint_position jc) with
      | None => inl state
      | Some state' => copy_joint_goal state' rest
      end
  end.

(** [UnderconstrainedGoal::setMotionPlanRequest], on the start state and
    the goal constraints of the request; the planning scene and the STOMP
    configuration are not read. *)
Definition setMotionPlanRequest (start_state : RobotStateMsg) (goals : list Constraints)
    (self : UnderconstrainedGoal) : request_outcome RobotState :=
  let tool_link_ := group_tool_link in
  let state_ := robotStateMsgToRobotState start_state new_RobotState in
  match goals with
  | [] => RequestReturned false INVALID_GOAL_CONSTRAINTS self tool_link_ state_
  | front :: _ =>
      if empty (position_constraints front) || empty (orientation_constraints front)
      then
        if empty (joint_constraints front)
        then RequestReturned false INVALID_GOAL_CONSTRAINTS self tool_link_ state_
        else
          match copy_joint_goal state_ (joint_constraints front) with
          | inl state_ => RequestThrown tool_link_ state_
          | inr state_ =>
              let state_ := enforceBounds (update state_) in
              RequestReturned true SUCCESS
                (set_tool_goal_pose self (getGlobalLinkTransform state_ tool_link_))
                tool_link_ state_
          end
      else
        match position_constraints front, orientation_constraints front with
        | pos_constraint :: _, orient_constraint :: _ =>
            match primitive_poses pos_constraint with
            | [] => RequestOutOfRange
            | primitive_pose :: _ =>
                let pose := mkPose (pose_position primitive_pose)
                                   (constraint_orientation orient_constraint) in
                RequestReturned true SUCCESS
                  (set_tool_goal_pose self (poseMsgToEigen pose)) tool_link_ state_
            end
        | _, _ => RequestOutOfRange   (* not reached: both vectors have a front *)
        end
  end.

End MotionPlanRequest.

(** Collaborators for the requests of the one-joint arm: a robot state
    is the value of the joint, which is called "slide". *)
Module RequestFixture.

(** The position of the message as the translation; the arm cannot turn
    its tool, so the orientation of the message is not looked at. *)
Definition poseMsgToEigen (p : Pose) : Affine3d :=
  mkAffine3d (mkVector3d (point_x (pose_position p)) (point_y (pose_position p))
                (point_z (pose_position p)))
             m3_identity.

Definition group_tool_link : string := "tool".

Definition new_RobotState : Q := 0.

Definition robotStateMsgToRobotState (msg : Q) (state : Q) : Q := msg.

Definition setVariablePosition (state : Q) (name : string) (value : Q) : option Q :=
  if String.eqb name "slide" then Some value else None.

Definition update (state : Q) : Q := state.

Definition enforceBounds (state : Q) : Q := state.

Definition getGlobalLinkTransform (state : Q) (link : string) : Affine3d :=
  Fixture.pose_at state.

Definition unit_quaternion : Quaternion := mkQuaternion 0 0 0 1.

Definition cartesian_goal (x : Q) : Constraints :=
  mkConstraints
    [mkPositionConstraint [mkPose (mkPoint x 0 0) unit_quaternion]]
    [mkOrientationConstraint unit_quaternion]
    [].

Definition joint_goal (q : Q) : Constraints :=
  mkConstraints [] [] [mkJointConstraint "slide" q].

(** [setMotionPlanRequest] of the arm. *)
Definition setMotionPlanRequest :=
  setMotionPlanRequest poseMsgToEigen group_tool_link new_RobotState
    robotStateMsgToRobotState setVariablePosition update enforceBounds
    getGlobalLinkTransform.

End RequestFixture.

(* ================================================================= *)
(** * Properties *)

Unset Implicit Arguments.

(** ** Scalars and arrays *)

Lemma Qltb_lt (x y : Q) : Qltb x y = true <-> x < y.
Proof.
  unfold Qltb. rewrite negb_true_iff.
  split; intro H.
  - apply Qnot_le_lt. intro Hle. apply Qle_bool_iff in Hle. congruence.
  - destruct (Qle_bool y x) eqn:E; [|reflexivity].
    apply Qle_bool_iff in E. exfalso. apply (Qlt_not_le _ _ H E).
Qed.

Lemma Qltb_ge (x y : Q) : Qltb x y = false <-> y <= x.
Proof.
  unfold Qltb. rewrite negb_false_iff. apply Qle_bool_iff.
Qed.

Lemma M_PI_pos : 0 < M_PI.
Proof. reflexivity. Qed.

Lemma coeff_set_length {A : Type} (i : nat) (x : A) (a : list A) :
  length (coeff_set i x a) = length a.
Proof.
  revert i; induction a as [|h t IH]; intros [|i]; simpl; auto.
Qed.

Lemma resize_length {A : Type} (junk : A) (n : nat) (a : list A) :
  length (resize junk n a) = n.
Proof.
  unfold resize. destruct (Nat.eqb (length a) n) eqn:E.
  - now apply Nat.eqb_eq.
  - apply repeat_length.
Qed.

(* ================================================================= *)
(** ** [configure] *)

(** A copy loop whose conversions all succeed leaves the bounds of the
    target as soon as the source has more entries than the target. *)
Lemma copy_loop_out_of_range {A : Type} (cast : XmlRpcValue -> option A) :
  forall (param : list XmlRpcValue) (i : nat) (arr : list A),
    Forall (fun v => cast v <> None) param ->
    (i <= length arr)%nat ->
    (length arr < i + length param)%nat ->
    copy_loop cast param i arr = OutOfRange.
Proof.
  induction param as [|v rest IH]; intros i arr Hcast Hi Hlen; simpl in *.
  - lia.
  - inversion Hcast as [|? ? Hv Hrest]; subst.
    destruct (cast v) as [x|]; [|congruence].
    destruct (Nat.ltb i (length arr)) eqn:E; [|reflexivity].
    apply Nat.ltb_lt in E.
    apply IH; auto; rewrite coeff_set_length; lia.
Qed.

(** A copy loop that runs to its end has written every entry of the
    source, so the source is not longer than the target. *)
Lemma copy_loop_copied {A : Type} (cast : XmlRpcValue -> option A) :
  forall (param : list XmlRpcValue) (i : nat) (arr out : list A),
    copy_loop cast param i arr = Copied out ->
    length out = length arr /\
    (param <> [] -> i + length param <= length arr)%nat.
Proof.
  induction param as [|v rest IH]; intros i arr out H; simpl in *.
  - inversion H; subst. split; [reflexivity|congruence].
  - destruct (cast v) as [x|]; [|discriminate].
    destruct (Nat.ltb i (length arr)) eqn:E; [|discriminate].
    apply Nat.ltb_lt in E.
    apply IH in H. rewrite coeff_set_length in H. destruct H as [H1 H2].
    split; [exact H1|]. intros _.
    destruct rest as [|w rest']; simpl in *; [lia|].
    assert (w :: rest' <> []) as Hne by congruence.
    specialize (H2 Hne). simpl in H2. lia.
Qed.

Lemma copy_loop_thrown_length {A : Type} (cast : XmlRpcValue -> option A) :
  forall (param : list XmlRpcValue) (i : nat) (arr out : list A),
    copy_loop cast param i arr = Thrown out -> length out = length arr.
Proof.
  induction param as [|v rest IH]; intros i arr out H; simpl in *.
  - discriminate.
  - destruct (cast v) as [x|].
    + destruct (Nat.ltb i (length arr)); [|discriminate].
      apply IH in H. now rewrite coeff_set_length in H.
    + now inversion H.
Qed.

Lemma coeff_set_split {A : Type} (x : A) :
  forall (a : list A) (i : nat),
    (i < length a)%nat -> coeff_set i x a = firstn i a ++ x :: skipn (S i) a.
Proof.
  induction a as [|h t IH]; intros [|i] H; simpl in *; try lia; try reflexivity.
  f_equal. apply IH. lia.
Qed.

(** A copy loop over values of the expected type that fit into the
    target stores them in order. *)
Lemma copy_loop_fills {A : Type} (cast : XmlRpcValue -> option A) (inj : A -> XmlRpcValue) :
  (forall x, cast (inj x) = Some x) ->
  forall (l : list A) (i : nat) (arr : list A),
    (i + length l <= length arr)%nat ->
    copy_loop cast (map inj l) i arr
    = Copied (firstn i arr ++ l ++ skipn (i + length l) arr).
Proof.
  intros Hcast. induction l as [|x l IH]; intros i arr Hlen; simpl in *.
  - rewrite Nat.add_0_r. now rewrite firstn_skipn.
  - rewrite Hcast.
    assert (Nat.ltb i (length arr) = true) as E by (apply Nat.ltb_lt; lia).
    rewrite E. rewrite IH by (rewrite coeff_set_length; lia).
    f_equal.
    rewrite coeff_set_split by lia.
    assert (length (firstn i arr) = i) as Hf by (rewrite length_firstn; lia).
    rewrite firstn_app, Hf.
    replace (S i - i)%nat with 1%nat by lia.
    rewrite firstn_all2 by lia. simpl firstn.
    rewrite skipn_app, Hf.
    rewrite (skipn_all2 (firstn i arr)) by lia.
    replace (S i + length l - i)%nat with (S (length l)) by lia.
    rewrite skipn_cons, skipn_skipn.
    replace (length l + S i)%nat with (i + S (length l))%nat by lia.
    rewrite <- app_assoc. reflexivity.
Qed.

Lemma copy_loop_fills_all {A : Type} (cast : XmlRpcValue -> option A) (inj : A -> XmlRpcValue) :
  (forall x, cast (inj x) = Some x) ->
  forall (l arr : list A),
    length l = length arr ->
    copy_loop cast (map inj l) 0 arr = Copied l.
Proof.
  intros Hcast l arr Hlen.
  rewrite (copy_loop_fills cast inj Hcast) by lia.
  simpl. rewrite skipn_all2 by lia. now rewrite app_nil_r.
Qed.

Lemma firstn_succ_coeff_set {A : Type} (x : A) (a : list A) (i : nat) :
  (i < length a)%nat -> firstn (S i) (coeff_set i x a) = firstn i a ++ [x].
Proof.
  intro H. rewrite coeff_set_split by exact H.
  assert (length (firstn i a) = i) as Hf by (rewrite length_firstn; lia).
  rewrite firstn_app, Hf.
  replace (S i - i)%nat with 1%nat by lia.
  rewrite firstn_all2 by lia. reflexivity.
Qed.

Lemma skipn_above_coeff_set {A : Type} (x : A) (a : list A) (i k : nat) :
  (i < length a)%nat -> skipn (S i + k) (coeff_set i x a) = skipn (S i + k) a.
Proof.
  intro H. rewrite coeff_set_split by exact H.
  assert (length (firstn i a) = i) as Hf by (rewrite length_firstn; lia).
  rewrite skipn_app, Hf.
  rewrite (skipn_all2 (firstn i a)) by lia.
  replace (S i + k - i)%nat with (S k) by lia.
  rewrite skipn_cons, skipn_skipn.
  replace (k + S i)%nat with (S i + k)%nat by lia. reflexivity.
Qed.

(** The array after a copy loop that ran to its end. *)
Lemma copy_loop_copied_content {A : Type} (cast : XmlRpcValue -> option A) :
  forall (param : list XmlRpcValue) (i : nat) (arr a : list A),
    copy_loop cast param i arr = Copied a ->
    exists xs : list A,
      converted cast param xs /\
      a = firstn i arr ++ xs ++ skipn (i + length param) arr.
Proof.
  induction param as [|v rest IH]; intros i arr a H; cbn [copy_loop] in H.
  - injection H as <-. exists []. split; [constructor|].
    simpl. rewrite Nat.add_0_r. now rewrite firstn_skipn.
  - destruct (cast v) as [x|] eqn:Ev; [|discriminate].
    destruct (Nat.ltb i (length arr)) eqn:E; [|discriminate].
    apply Nat.ltb_lt in E.
    destruct (IH _ _ _ H) as (xs & Hxs & Ha).
    exists (x :: xs). split; [constructor; assumption|].
    rewrite Ha, firstn_succ_coeff_set, skipn_above_coeff_set by exact E.
    rewrite <- app_assoc. simpl.
    replace (i + S (length rest))%nat with (S (i + length rest)) by lia. reflexivity.
Qed.

(** The array after a copy loop that was left by an exception. *)
Lemma copy_loop_thrown_content {A : Type} (cast : XmlRpcValue -> option A) :
  forall (param : list XmlRpcValue) (i : nat) (arr a : list A),
    copy_loop cast param i arr = Thrown a ->
    exists (k : nat) (xs : list A),
      (k < length param)%nat /\
      cast (nth k param TypeInvalid) = None /\
      converted cast (firstn k param) xs /\
      a = firstn i arr ++ xs ++ skipn (i + k) arr.
Proof.
  induction param as [|v rest IH]; intros i arr a H; cbn [copy_loop] in H;
    [discriminate|].
  destruct (cast v) as [x|] eqn:Ev.
  - destruct (Nat.ltb i (length arr)) eqn:E; [|discriminate].
    apply Nat.ltb_lt in E.
    destruct (IH _ _ _ H) as (k & xs & Hk & Hnone & Hxs & Ha).
    exists (S k), (x :: xs). simpl. repeat split; auto; try lia.
    + constructor; assumption.
    + rewrite Ha, firstn_succ_coeff_set, skipn_above_coeff_set by exact E.
      rewrite <- app_assoc. simpl.
      replace (i + S k)%nat with (S (i + k)) by lia. reflexivity.
  - injection H as <-. exists 0%nat, []. simpl. repeat split; auto; try lia.
    + constructor.
    + rewrite Nat.add_0_r. now rewrite firstn_skipn.
Qed.

Lemma copy_loop_thrown_interrupted {A : Type} (cast : XmlRpcValue -> option A)
    (param : list XmlRpcValue) (arr a : list A) :
  copy_loop cast param 0 arr = Thrown a -> interrupted cast param arr a.
Proof.
  intro H. apply copy_loop_thrown_content in H.
  destruct H as (k & xs & Hk & Hnone & Hxs & Ha).
  exists k, xs. auto.
Qed.

(** A copy loop that ran to its end over a source of the size of the
    target has replaced the target by the converted source. *)
Lemma copy_loop_copied_converted {A : Type} (cast : XmlRpcValue -> option A)
    (param : list XmlRpcValue) (arr a : list A) :
  (length arr <= length param)%nat ->
  copy_loop cast param 0 arr = Copied a -> converted cast param a.
Proof.
  intros Hlen H. apply copy_loop_copied_content in H.
  destruct H as (xs & Hxs & Ha).
  simpl in Ha. rewrite skipn_all2 in Ha by lia. rewrite app_nil_r in Ha.
  now subst a.
Qed.

Section ConfigureProperties.

Variable indeterminate_int : Z.
Variable indeterminate_double : Q.

(** Whenever [configure] returns true the two Cartesian arrays of the
    parameter have exactly [DOF_SIZE] entries, and the object is
    [configured]. *)
Lemma configure_true_sizes (config : XmlRpcValue) (self self' : UnderconstrainedGoal) :
  configure indeterminate_int indeterminate_double config self = Normal (true, self') ->
  exists m,
    assertStruct config = Some m /\
    array_size (struct_member "constrained_dofs" m) = DOF_SIZE /\
    array_size (struct_member "cartesian_convergence" m) = DOF_SIZE /\
    configured self'.
Proof.
  unfold configure.
  destruct (assertStruct config) as [m|]; [|discriminate].
  destruct (invalid_array_parameters _ _ _) eqn:Hinv; [discriminate|].
  unfold invalid_array_parameters in Hinv.
  repeat (apply orb_false_iff in Hinv; destruct Hinv as [Hinv ?]).
  repeat match goal with
         | H : Nat.ltb _ _ = false |- _ => apply Nat.ltb_ge in H
         end.
  destruct (copy_loop cast_int _ _ _) as [a1| |] eqn:E1; try discriminate.
  destruct (copy_loop cast_double _ 0 (resize _ DOF_SIZE _)) as [a2| |] eqn:E2;
    try discriminate.
  destruct (copy_loop cast_double _ 0 (resize _ (array_size _) _)) as [a3| |] eqn:E3;
    try discriminate.
  destruct (cast_int _) as [n|]; [|discriminate].
  intro Heq; inversion Heq; subst; clear Heq.
  apply copy_loop_copied in E1. apply copy_loop_copied in E2.
  rewrite !resize_length in E1. rewrite !resize_length in E2.
  destruct E1 as [L1 B1], E2 as [L2 B2].
  unfold array_size, DOF_SIZE in *.
  exists m. split; [reflexivity|].
  assert (array_elements (struct_member "constrained_dofs" m) <> []) as N1
    by (intro C; rewrite C in *; simpl in *; lia).
  assert (array_elements (struct_member "cartesian_convergence" m) <> []) as N2
    by (intro C; rewrite C in *; simpl in *; lia).
  specialize (B1 N1). specialize (B2 N2). simpl in B1, B2.
  unfold configured, DOF_SIZE; simpl.
  repeat split; lia.
Qed.

(** [configure] takes any integer as the iteration budget. *)
Lemma configure_accepts (dofs : list Z) (thresholds rates : list Q) (n : Z)
    (self : UnderconstrainedGoal) :
  length dofs = DOF_SIZE ->
  length thresholds = DOF_SIZE ->
  rates <> [] ->
  configure indeterminate_int indeterminate_double
    (Fixture.make_config dofs thresholds rates (TypeInt n)) self
  = Normal (true, mkGoal dofs rates thresholds n (tool_goal_pose_ self)).
Proof.
  intros Hd Ht Hr.
  unfold configure, Fixture.make_config. cbn [assertStruct].
  change (struct_member "constrained_dofs" _) with (TypeArray (map TypeInt dofs)).
  change (struct_member "cartesian_convergence" _)
    with (TypeArray (map TypeDouble thresholds)).
  change (struct_member "joint_update_rates" _) with (TypeArray (map TypeDouble rates)).
  change (struct_member "max_ik_iterations" _) with (TypeInt n).
  unfold invalid_array_parameters, array_size. cbn [is_TypeArray array_elements negb orb].
  rewrite !length_map, Hd, Ht.
  assert (Nat.eqb (length rates) 0 = false) as E
    by (apply Nat.eqb_neq; destruct rates; simpl; congruence).
  rewrite E. cbn [Nat.ltb Nat.leb DOF_SIZE orb].
  rewrite (copy_loop_fills_all cast_int TypeInt) by
    (try reflexivity; now rewrite resize_length).
  set (self1 := set_dof_nullity self dofs).
  rewrite (copy_loop_fills_all cast_double TypeDouble) by
    (try reflexivity; now rewrite resize_length).
  set (self2 := set_thresholds self1 thresholds).
  rewrite (copy_loop_fills_all cast_double TypeDouble) by
    (try reflexivity; now rewrite resize_length).
  reflexivity.
Qed.

(** C2, as the code has it: when [configure] returns false, the
    iteration budget and the goal pose are the ones from before the
    call; when the call is rejected before the first copy loop (the
    argument is no struct, or the test on the three arrays fails), the
    whole object is unchanged; and when a conversion throws later, the
    arrays whose copy loop has run to its end hold the converted entries
    of their parameter, the array of the loop that threw holds the
    entries converted before the exception, and the arrays of the later
    loops are unchanged ([retained_after_exception]). *)
Theorem C2_failed_configure_keeps_budget
    (config : XmlRpcValue) (self self' : UnderconstrainedGoal) :
  configure indeterminate_int indeterminate_double config self = Normal (false, self') ->
  max_iterations_ self' = max_iterations_ self /\
  tool_goal_pose_ self' = tool_goal_pose_ self /\
  (rejected_before_copy config = true -> self' = self) /\
  (rejected_before_copy config = false ->
   exists m : list (string * XmlRpcValue),
     assertStruct config = Some m /\
     retained_after_exception indeterminate_int indeterminate_double m self self').
Proof.
  unfold configure, rejected_before_copy.
  destruct (assertStruct config) as [m|].
  2:{ intro H; inversion H; subst. repeat split; auto; discriminate. }
  destruct (invalid_array_parameters _ _ _) eqn:Hinv.
  { intro H; inversion H; subst. repeat split; auto; discriminate. }
  unfold invalid_array_parameters in Hinv.
  repeat (apply orb_false_iff in Hinv; destruct Hinv as [Hinv ?]).
  repeat match goal with
         | H : Nat.ltb _ _ = false |- _ => apply Nat.ltb_ge in H
         end.
  unfold array_size in *.
  destruct (copy_loop cast_int _ _ _) as [a1|a1|] eqn:E1; try discriminate.
  2:{ intro Heq; injection Heq as <-. cbn.
      repeat split; auto; try discriminate.
      intros _. exists m. split; [reflexivity|].
      left. cbn. repeat split; auto. now apply copy_loop_thrown_interrupted. }
  apply copy_loop_copied_converted in E1; [|rewrite resize_length; assumption].
  destruct (copy_loop cast_double _ 0 (resize _ DOF_SIZE _)) as [a2|a2|] eqn:E2;
    try discriminate.
  2:{ intro Heq; injection Heq as <-. cbn.
      repeat split; auto; try discriminate.
      intros _. exists m. split; [reflexivity|].
      right. left. cbn. repeat split; auto. now apply copy_loop_thrown_interrupted. }
  apply copy_loop_copied_converted in E2; [|rewrite resize_length; assumption].
  destruct (copy_loop cast_double _ 0 (resize _ (length _) _)) as [a3|a3|] eqn:E3;
    try discriminate.
  2:{ intro Heq; injection Heq as <-. cbn.
      repeat split; auto; try discriminate.
      intros _. exists m. split; [reflexivity|].
      right. right. left. cbn. repeat split; auto.
      now apply copy_loop_thrown_interrupted. }
  apply copy_loop_copied_converted in E3; [|rewrite resize_length; lia].
  destruct (cast_int _) as [n|] eqn:En; [discriminate|].
  intro Heq; injection Heq as <-. cbn.
  repeat split; auto; try discriminate.
  intros _. exists m. split; [reflexivity|].
  right. right. right. cbn. repeat split; auto.
Qed.

(** C3 at the failing input: seven integers under [constrained_dofs]
    pass the test on the arrays, and the seventh one is written behind
    the end of the six-entry [dof_nullity_]. *)
Theorem C3_seven_dofs_leave_the_array (self : UnderconstrainedGoal) :
  configure indeterminate_int indeterminate_double
    (Fixture.make_config [1; 1; 1; 0; 0; 0; 0]%Z Fixture.tight [1 # 2] (TypeInt 10))
    self
  = EigenAssert.
Proof.
  unfold configure. simpl assertStruct. cbv iota beta.
  simpl struct_member. simpl invalid_array_parameters. cbv iota.
  rewrite copy_loop_out_of_range; [reflexivity| | |].
  - simpl. repeat constructor; discriminate.
  - lia.
  - rewrite resize_length. simpl. unfold DOF_SIZE. lia.
Qed.

(** Seven thresholds under [cartesian_convergence] end the same way. *)
Lemma seven_thresholds_leave_the_array (self : UnderconstrainedGoal) :
  configure indeterminate_int indeterminate_double
    (Fixture.make_config [1; 1; 1; 0; 0; 0]%Z (repeat (1 # 1000) 7) [1 # 2] (TypeInt 10))
    self
  = EigenAssert.
Proof.
  unfold configure, Fixture.make_config. cbn [assertStruct].
  change (struct_member "constrained_dofs" _)
    with (TypeArray (map TypeInt [1; 1; 1; 0; 0; 0]%Z)).
  change (struct_member "cartesian_convergence" _)
    with (TypeArray (map TypeDouble (repeat (1 # 1000) 7))).
  change (struct_member "joint_update_rates" _) with (TypeArray (map TypeDouble [1 # 2])).
  change (invalid_array_parameters _ _ _) with false. cbv iota.
  cbn [array_elements].
  rewrite (copy_loop_fills_all cast_int TypeInt) by
    (try reflexivity; now rewrite resize_length).
  rewrite copy_loop_out_of_range; [reflexivity| | |].
  - simpl. repeat constructor; discriminate.
  - lia.
  - rewrite resize_length. simpl. unfold DOF_SIZE. lia.
Qed.

End ConfigureProperties.

(** C2 is false as stated: a parameter set whose arrays are well formed
    and whose [max_ik_iterations] is a string makes [configure] return
    false after it has replaced the constraint mask. *)
Lemma C2_partial_configuration_is_retained :
  configure 0%Z 0
    (Fixture.make_config [1; 1; 1; 0; 0; 0]%Z Fixture.tight [1 # 2] (TypeString "ten"))
    (Fixture.full_goal 5)
  = Normal (false, set_dof_nullity (Fixture.full_goal 5) [1; 1; 1; 0; 0; 0]%Z)
  /\ dof_nullity_ (set_dof_nullity (Fixture.full_goal 5) [1; 1; 1; 0; 0; 0]%Z)
     <> dof_nullity_ (Fixture.full_goal 5).
Proof.
  split; [reflexivity|discriminate].
Qed.

(** The object after the failed call above still has the budget 5, and
    its three arrays hold the converted parameters. *)
Lemma C2_failed_configure_keeps_budget_witness :
  let config :=
    Fixture.make_config [1; 1; 1; 0; 0; 0]%Z Fixture.tight [1 # 2] (TypeString "ten") in
  let self := Fixture.full_goal 5 in
  let self' := set_dof_nullity self [1; 1; 1; 0; 0; 0]%Z in
  max_iterations_ self' = max_iterations_ self /\
  tool_goal_pose_ self' = tool_goal_pose_ self /\
  (rejected_before_copy config = true -> self' = self) /\
  rejected_before_copy config = false /\
  exists m : list (string * XmlRpcValue),
    assertStruct config = Some m /\
    retained_after_exception 0%Z 0 m self self'.
Proof.
  intros config self self'.
  destruct (C2_failed_configure_keeps_budget 0%Z 0 config self self' eq_refl)
    as (H1 & H2 & H3 & H4).
  split; [exact H1|]. split; [exact H2|]. split; [exact H3|].
  split; [reflexivity|]. exact (H4 eq_refl).
Defined.

(* ================================================================= *)
(** ** [computeTwist] *)

Lemma inject_Z_succ (n : nat) :
  inject_Z (Z.of_nat (S n)) == inject_Z (Z.of_nat n) + 1.
Proof.
  rewrite Nat2Z.inj_succ. unfold Z.succ. rewrite inject_Z_plus. reflexivity.
Qed.

(** With fuel [n] the loop handles every angle of magnitude up to
    [(2 n + 1) pi]: it ends in [-pi, pi], at the start angle moved by a
    whole number of turns. *)
Lemma force_angle_range_spec :
  forall (fuel : nat) (a : Q),
    Qabs a <= (2 * inject_Z (Z.of_nat fuel) + 1) * M_PI ->
    exists a' : Q,
      force_angle_range fuel a = Normal a' /\
      - M_PI <= a' /\ a' <= M_PI /\
      exists k : Z, a' == a + inject_Z k * (2 * M_PI).
Proof.
  pose proof M_PI_pos as Hpi.
  induction fuel as [|fuel IH]; intros a Ha.
  - change (inject_Z (Z.of_nat 0)) with 0 in Ha.
    apply Qabs_Qle_condition in Ha.
    assert (Qltb M_PI a = false) as E1 by (apply Qltb_ge; lra).
    assert (Qltb a (- M_PI) = false) as E2 by (apply Qltb_ge; lra).
    exists a. simpl. rewrite E1, E2. simpl.
    repeat split; try lra. exists 0%Z. change (inject_Z 0) with 0. ring.
  - rewrite inject_Z_succ in Ha. apply Qabs_Qle_condition in Ha.
    set (f := inject_Z (Z.of_nat fuel)) in *.
    assert (0 <= f * M_PI) as Hf.
    { apply Qmult_le_0_compat; [|lra].
      unfold f. change 0 with (inject_Z 0). rewrite <- Zle_Qle. lia. }
    destruct Ha as [Ha1 Ha2].
    simpl force_angle_range.
    destruct (Qltb M_PI a) eqn:E1.
    + apply Qltb_lt in E1. simpl orb.
      assert (Qltb (a - 2 * M_PI) (- M_PI) = false) as E2 by (apply Qltb_ge; lra).
      rewrite E2.
      destruct (IH (a - 2 * M_PI)) as (a' & Hr & Hlo & Hhi & k & Hk).
      { apply Qabs_Qle_condition. fold f. split; lra. }
      exists a'. repeat split; auto.
      exists (k - 1)%Z. rewrite Hk. unfold Z.sub. rewrite inject_Z_plus, inject_Z_opp.
      change (inject_Z 1) with 1. ring.
    + apply Qltb_ge in E1. simpl orb.
      destruct (Qltb a (- M_PI)) eqn:E2.
      * apply Qltb_lt in E2.
        destruct (IH (a + 2 * M_PI)) as (a' & Hr & Hlo & Hhi & k & Hk).
        { apply Qabs_Qle_condition. fold f. split; lra. }
        exists a'. repeat split; auto.
        exists (k + 1)%Z. rewrite Hk. rewrite inject_Z_plus.
        change (inject_Z 1) with 1. ring.
      * apply Qltb_ge in E2. exists a. repeat split; try lra.
        exists 0%Z. change (inject_Z 0) with 0. ring.
Qed.

(** [angle_fuel] is such fuel. *)
Lemma angle_fuel_enough (a : Q) :
  Qabs a <= (2 * inject_Z (Z.of_nat (angle_fuel a)) + 1) * M_PI.
Proof.
  pose proof M_PI_pos as Hpi.
  unfold angle_fuel.
  set (x := Qabs a / (2 * M_PI)).
  assert (0 <= x) as Hx.
  { unfold x. apply Qle_shift_div_l; [lra|]. pose proof (Qabs_nonneg a). lra. }
  pose proof (Qle_ceiling x) as Hc.
  assert (0 <= Qceiling x)%Z as Hz.
  { assert (0 <= inject_Z (Qceiling x)) as H by lra.
    rewrite Zle_Qle. exact H. }
  rewrite Z2Nat.id by exact Hz.
  assert (Qabs a == x * (2 * M_PI)) as Hax.
  { unfold x. field. lra. }
  rewrite Hax.
  set (c := inject_Z (Qceiling x)) in *.
  assert (x * (2 * M_PI) <= c * (2 * M_PI)).
  { apply Qmult_le_compat_r; lra. }
  lra.
Qed.

Lemma force_angle_range_total (a : Q) :
  exists a' : Q,
    force_angle_range (angle_fuel a) a = Normal a' /\
    - M_PI <= a' /\ a' <= M_PI /\
    exists k : Z, a' == a + inject_Z k * (2 * M_PI).
Proof. apply force_angle_range_spec, angle_fuel_enough. Qed.

Lemma select_zero_length :
  forall (nullity : ArrayXi) (twist : VectorXd),
    length nullity = length twist ->
    length (select_zero nullity twist) = length nullity.
Proof.
  induction nullity as [|n ns IH]; intros [|t ts] H; simpl in *; try lia.
  rewrite IH; lia.
Qed.

Lemma select_zero_at_zero :
  forall (nullity : ArrayXi) (twist : VectorXd) (i : nat),
    length nullity = length twist ->
    nth_error nullity i = Some 0%Z ->
    nth_error (select_zero nullity twist) i = Some 0.
Proof.
  induction nullity as [|n ns IH]; intros [|t ts] [|i] Hlen H; simpl in *;
    try discriminate.
  - inversion H; subst. reflexivity.
  - apply IH; [lia|assumption].
Qed.

Lemma set_head3_length (twist out : VectorXd) (v : Vector3d) :
  set_head3 twist v = Normal out -> length out = length twist /\ (3 <= length twist)%nat.
Proof.
  unfold set_head3, eigen_assert.
  destruct twist as [|a [|b [|c t]]]; simpl; try discriminate.
  intro H; injection H as <-. simpl. split; lia.
Qed.

Lemma set_tail3_length (twist out : VectorXd) (v : Vector3d) :
  set_tail3 twist v = Normal out -> length out = length twist.
Proof.
  unfold set_tail3, eigen_assert.
  destruct (Nat.leb 3 (length twist)) eqn:E; cbn [bind]; [|discriminate].
  apply Nat.leb_le in E. intro H; injection H as <-.
  rewrite length_app, length_firstn. simpl. lia.
Qed.

Lemma set_head3_returns (twist : VectorXd) (v : Vector3d) :
  (3 <= length twist)%nat ->
  exists out, set_head3 twist v = Normal out /\ length out = length twist.
Proof.
  intro H. unfold set_head3, eigen_assert.
  destruct twist as [|a [|b [|c t]]]; simpl in *; try lia.
  eexists. split; reflexivity.
Qed.

Lemma set_tail3_returns (twist : VectorXd) (v : Vector3d) :
  (3 <= length twist)%nat ->
  exists out, set_tail3 twist v = Normal out /\ length out = length twist.
Proof.
  intro H. unfold set_tail3, eigen_assert.
  assert (Nat.leb 3 (length twist) = true) as E by now apply Nat.leb_le.
  rewrite E. cbn [bind].
  eexists. split; [reflexivity|].
  rewrite length_app, length_firstn. simpl. lia.
Qed.

Section TwistProperties.

Variable AngleAxisd : Matrix3d -> AngleAxis.

(** [computeTwist] returns for every mask of three entries or more, and
    the twist has the size of the mask. *)
Lemma computeTwist_returns (p0 pf : Affine3d) (nullity : ArrayXi) :
  (3 <= length nullity)%nat ->
  exists twist,
    computeTwist AngleAxisd p0 pf nullity = Normal twist /\
    length twist = length nullity.
Proof.
  intro Hlen. unfold computeTwist.
  destruct (force_angle_range_total
              (angle (AngleAxisd (m3_mul (m3_transpose (rotation p0)) (rotation pf)))))
    as (a' & Hr & _).
  rewrite Hr. cbn [bind].
  destruct (set_head3_returns (repeat 0 (length nullity))
              (v3_sub (translation pf) (translation p0))) as (t1 & E1 & L1).
  { now rewrite repeat_length. }
  rewrite E1. cbn [bind].
  rewrite repeat_length in L1.
  destruct (set_tail3_returns t1
              (v3_scale
                 (axis (AngleAxisd (m3_mul (m3_transpose (rotation p0)) (rotation pf))))
                 a')) as (t2 & E2 & L2).
  { lia. }
  rewrite E2. cbn [bind].
  eexists. split; [reflexivity|].
  apply select_zero_length. lia.
Qed.

Lemma computeTwist_length (p0 pf : Affine3d) (nullity : ArrayXi) (twist : VectorXd) :
  computeTwist AngleAxisd p0 pf nullity = Normal twist ->
  length twist = length nullity /\ (3 <= length nullity)%nat.
Proof.
  unfold computeTwist.
  destruct (force_angle_range _ _) as [a'| |]; cbn [bind]; try discriminate.
  destruct (set_head3 _ _) as [t1| |] eqn:E1; cbn [bind]; try discriminate.
  destruct (set_tail3 _ _) as [t2| |] eqn:E2; cbn [bind]; try discriminate.
  intro H; injection H as <-.
  apply set_head3_length in E1. apply set_tail3_length in E2.
  rewrite repeat_length in E1. destruct E1 as [E1 E1'].
  split; [|exact E1'].
  apply select_zero_length. congruence.
Qed.

(** C7: for every mask that has the three translation and the three
    rotation entries, and every two poses, [computeTwist] returns a
    twist of the size of the mask, and the entry of the twist is the
    constant 0 at every index where the mask is 0. *)
Theorem C7_unconstrained_axes_are_zero (p0 pf : Affine3d) (nullity : ArrayXi) :
  (3 <= length nullity)%nat ->
  exists twist,
    computeTwist AngleAxisd p0 pf nullity = Normal twist /\
    length twist = length nullity /\
    forall i : nat, nth_error nullity i = Some 0%Z -> nth_error twist i = Some 0.
Proof.
  intro Hlen.
  destruct (computeTwist_returns p0 pf nullity Hlen) as (twist & Ht & Hl).
  exists twist. repeat split; auto.
  intros i Hi.
  unfold computeTwist in Ht.
  destruct (force_angle_range _ _) as [a'| |]; cbn [bind] in Ht; try discriminate.
  destruct (set_head3 _ _) as [t1| |] eqn:E1; cbn [bind] in Ht; try discriminate.
  destruct (set_tail3 _ _) as [t2| |] eqn:E2; cbn [bind] in Ht; try discriminate.
  injection Ht as <-.
  apply set_head3_length in E1. apply set_tail3_length in E2.
  rewrite repeat_length in E1.
  apply select_zero_at_zero; [|assumption].
  destruct E1; congruence.
Qed.

(** C8: for every two poses and every six-entry mask, the rotation
    entries of the returned twist are the axis of the relative rotation
    times one angle [a] (0 where the mask is 0); [a] is the angle of
    the relative rotation moved by a whole number of turns, and
    [-pi <= a <= pi]. *)
Theorem C8_rotation_angle_within_pi (p0 pf : Affine3d) (nullity : ArrayXi) :
  length nullity = DOF_SIZE ->
  let relative_rot := AngleAxisd (m3_mul (m3_transpose (rotation p0)) (rotation pf)) in
  exists (a : Q) (twist : VectorXd),
    computeTwist AngleAxisd p0 pf nullity = Normal twist /\
    - M_PI <= a /\ a <= M_PI /\ Qabs a <= M_PI /\
    (exists k : Z, a == angle relative_rot + inject_Z k * (2 * M_PI)) /\
    forall i : nat, (i < 3)%nat ->
      nth (3 + i) twist 0 =
      if (nth (3 + i) nullity 0 =? 0)%Z then 0
      else v3_nth (axis relative_rot) i * a.
Proof.
  intros Hlen relative_rot.
  destruct (force_angle_range_total (angle relative_rot)) as (a & Hr & Hlo & Hhi & Hk).
  exists a.
  unfold computeTwist. fold relative_rot. rewrite Hr. cbn [bind].
  destruct nullity as [|n0 [|n1 [|n2 [|n3 [|n4 [|n5 [|n6 ns]]]]]]]; try discriminate.
  eexists. split; [reflexivity|].
  repeat split; auto.
  - apply Qabs_Qle_condition. auto.
  - intros i Hi.
    destruct i as [|[|[|i]]]; try lia; simpl; reflexivity.
Qed.

End TwistProperties.

(** A mask that frees the rotation about y, on an angle-axis conversion
    that answers an angle of 10 about z. *)
Lemma C7_unconstrained_axes_are_zero_witness :
  exists twist,
    computeTwist Fixture.wound_AngleAxisd (Fixture.pose_at 0) (Fixture.pose_at 1)
      [1; 1; 1; 0; 1; 1]%Z = Normal twist /\
    length twist = 6%nat /\
    forall i : nat,
      nth_error [1; 1; 1; 0; 1; 1]%Z i = Some 0%Z -> nth_error twist i = Some 0.
Proof.
  apply (C7_unconstrained_axes_are_zero Fixture.wound_AngleAxisd
           (Fixture.pose_at 0) (Fixture.pose_at 1) [1; 1; 1; 0; 1; 1]%Z).
  simpl. lia.
Defined.

Lemma C8_rotation_angle_within_pi_witness :
  exists (a : Q) (twist : VectorXd),
    computeTwist Fixture.wound_AngleAxisd (Fixture.pose_at 0) (Fixture.pose_at 1)
      [1; 1; 1; 0; 1; 1]%Z = Normal twist /\
    - M_PI <= a /\ a <= M_PI /\ Qabs a <= M_PI /\
    (exists k : Z, a == 10 + inject_Z k * (2 * M_PI)) /\
    forall i : nat, (i < 3)%nat ->
      nth (3 + i) twist 0 =
      if (nth (3 + i) [1; 1; 1; 0; 1; 1]%Z 0 =? 0)%Z then 0
      else v3_nth (mkVector3d 0 0 1) i * a.
Proof.
  apply (C8_rotation_angle_within_pi Fixture.wound_AngleAxisd
           (Fixture.pose_at 0) (Fixture.pose_at 1) [1; 1; 1; 0; 1; 1]%Z).
  reflexivity.
Defined.

(* ================================================================= *)
(** ** Outcomes *)

Lemma bind_normal {A B : Type} (m : outcome A) (k : A -> outcome B) (b : B) :
  bind m k = Normal b -> exists a, m = Normal a /\ k a = Normal b.
Proof.
  destruct m as [a| |]; cbn [bind]; try discriminate.
  intro H. exists a. auto.
Qed.

Lemma bind_fuel {A B : Type} (m : outcome A) (k : A -> outcome B) :
  m <> OutOfFuel -> (forall a, m = Normal a -> k a <> OutOfFuel) -> bind m k <> OutOfFuel.
Proof.
  destruct m as [a| |]; cbn [bind]; intros H1 H2; auto; discriminate.
Qed.

Lemma eigen_assert_fuel (c : bool) : eigen_assert c <> OutOfFuel.
Proof. destruct c; discriminate. Qed.

Lemma eigen_assert_normal (c : bool) (u : unit) : eigen_assert c = Normal u -> c = true.
Proof. destruct c; [reflexivity|discriminate]. Qed.

(** Closes goals [m <> OutOfFuel] for [m] built from [bind], [Normal] and
    [eigen_assert]. *)
Ltac no_fuel :=
  repeat first
    [ apply eigen_assert_fuel
    | discriminate
    | apply bind_fuel; [|intros ? _] ].

(** Splits a hypothesis [x <- m ;; k = Normal b] into its two runs. *)
Ltac bind_inversion H :=
  let a := fresh "a" in
  let Hm := fresh "Hm" in
  apply bind_normal in H; destruct H as (a & Hm & H).

(* ================================================================= *)
(** ** The IK loop *)

Lemma to_unsigned_range (z : Z) : (0 <= to_unsigned z < 2 ^ 32)%Z.
Proof. unfold to_unsigned. apply Z.mod_pos_bound. reflexivity. Qed.

Lemma to_unsigned_small (z : Z) : (0 <= z < 2 ^ 32)%Z -> to_unsigned z = z.
Proof. intro H. unfold to_unsigned. now apply Z.mod_small. Qed.

Section SolverProperties.

Variable AngleAxisd : Matrix3d -> AngleAxis.
Variable JacobiSVD : MatrixXd -> SVD.
Variable forward_kinematics : VectorXd -> Affine3d.
Variable getJacobian : VectorXd -> option MatrixXd.

Lemma computeTwist_fuel (p0 pf : Affine3d) (nullity : ArrayXi) :
  computeTwist AngleAxisd p0 pf nullity <> OutOfFuel.
Proof.
  unfold computeTwist.
  destruct (force_angle_range_total
              (angle (AngleAxisd (m3_mul (m3_transpose (rotation p0)) (rotation pf)))))
    as (a' & Hr & _).
  rewrite Hr. cbn [bind].
  unfold set_head3, set_tail3. no_fuel.
Qed.

Lemma ik_iteration_fuel (self : UnderconstrainedGoal) (goal : Affine3d)
    (indices : list nat) (s : ik_state) :
  ik_iteration AngleAxisd JacobiSVD forward_kinematics getJacobian self goal indices s
    <> OutOfFuel.
Proof.
  unfold ik_iteration.
  apply bind_fuel; [apply computeTwist_fuel|intros tw _].
  unfold check_convergence.
  apply bind_fuel; [no_fuel|].
  intros below _. destruct below; [discriminate|].
  destruct (getJacobian (joint_pose s)) as [jacb|]; [|discriminate].
  unfold transform_bottom_rows, reduceJacobian, mat_vec, update_joint_pose. no_fuel.
Qed.

Lemma ik_iteration_count (self : UnderconstrainedGoal) (goal : Affine3d)
    (indices : list nat) (s s' : ik_state) :
  ik_iteration AngleAxisd JacobiSVD forward_kinematics getJacobian self goal indices s
    = Normal (StepUpdated s') ->
  iteration_count s' = to_unsigned (iteration_count s + 1).
Proof.
  unfold ik_iteration. intro H.
  bind_inversion H. bind_inversion H.
  destruct a0; [discriminate|].
  destruct (getJacobian (joint_pose s)) as [jacb|]; [|discriminate].
  repeat bind_inversion H.
  injection H as <-. reflexivity.
Qed.

(** The loop with enough fuel for the iterations that are left. *)
Lemma ik_loop_bounded (self : UnderconstrainedGoal) (goal : Affine3d) (indices : list nat) :
  forall (fuel : nat) (s : ik_state),
    let budget := to_unsigned (max_iterations_ self) in
    (0 <= iteration_count s <= budget)%Z ->
    (Z.to_nat (budget - iteration_count s) < fuel)%nat ->
    ik_loop AngleAxisd JacobiSVD forward_kinematics getJacobian fuel self goal indices s
      <> OutOfFuel /\
    forall e : ik_exit,
      ik_loop AngleAxisd JacobiSVD forward_kinematics getJacobian fuel self goal indices s
        = Normal e ->
      exists n : nat,
        ik_updates AngleAxisd JacobiSVD forward_kinematics getJacobian
          self goal indices n s (final e) /\
        iteration_count (final e) = (iteration_count s + Z.of_nat n)%Z /\
        (iteration_count (final e) <= budget)%Z /\
        (status e = IterationBudgetExhausted -> iteration_count (final e) = budget).
Proof.
  intros fuel s budget. revert s.
  pose proof (to_unsigned_range (max_iterations_ self)) as Hb. fold budget in Hb.
  induction fuel as [|fuel IH]; intros s Hs Hfuel; [lia|].
  cbn [ik_loop]. fold budget.
  destruct (iteration_count s <? budget)%Z eqn:Hlt.
  - apply Z.ltb_lt in Hlt.
    pose proof (ik_iteration_fuel self goal indices s) as Hit.
    destruct (ik_iteration AngleAxisd JacobiSVD forward_kinematics getJacobian
                self goal indices s) as [step| |] eqn:Hstep; cbn [bind];
      [|split; [discriminate|intros e He; discriminate]|congruence].
    destruct step as [| |s'].
    + split; [discriminate|]. intros e He. injection He as <-. cbn.
      exists 0%nat. repeat split; try constructor; try lia; discriminate.
    + split; [discriminate|]. intros e He. injection He as <-. cbn.
      exists 0%nat. repeat split; try constructor; try lia; discriminate.
    + pose proof (ik_iteration_count _ _ _ _ _ Hstep) as Hc.
      rewrite to_unsigned_small in Hc by lia.
      destruct (IH s') as [IH1 IH2]; [lia|lia|].
      split; [exact IH1|].
      intros e He. destruct (IH2 e He) as (n & Hn & Hcount & Hle & Hex).
      exists (S n). repeat split; auto.
      * econstructor; eassumption.
      * lia.
  - apply Z.ltb_ge in Hlt.
    split; [discriminate|]. intros e He. injection He as <-. cbn.
    exists 0%nat. repeat split; try constructor; lia.
Qed.

Lemma ik_run_bounded (self : UnderconstrainedGoal) (goal : Affine3d) (init : VectorXd) :
  let budget := to_unsigned (max_iterations_ self) in
  let run := ik_run AngleAxisd JacobiSVD forward_kinematics getJacobian self goal init in
  run <> OutOfFuel /\
  forall e : ik_exit,
    run = Normal e ->
    exists n : nat,
      ik_updates AngleAxisd JacobiSVD forward_kinematics getJacobian
        self goal (constrained_indices 0 (dof_nullity_ self)) n
        (mkIkState init (forward_kinematics init) 0) (final e) /\
      iteration_count (final e) = Z.of_nat n /\
      (Z.of_nat n <= budget)%Z /\
      (status e = IterationBudgetExhausted -> Z.of_nat n = budget).
Proof.
  intros budget run. unfold run, ik_run.
  pose proof (to_unsigned_range (max_iterations_ self)) as Hb.
  destruct (ik_loop_bounded self goal (constrained_indices 0 (dof_nullity_ self))
              (S (Z.to_nat (to_unsigned (max_iterations_ self))))
              (mkIkState init (forward_kinematics init) 0)) as [H1 H2].
  { cbn. lia. }
  { cbn. rewrite Z.sub_0_r. lia. }
  split; [exact H1|].
  intros e He. destruct (H2 e He) as (n & Hn & Hc & Hle & Hex).
  cbn in Hc. exists n. fold budget in Hle, Hex. repeat split; auto; try lia.
  intro Hs. specialize (Hex Hs). lia.
Qed.

(** C5: with a budget that is a non-negative [int], [runIK] leaves its
    loop after at most [max_iterations_] updates of the joint vector;
    and when it leaves because the budget is used up, exactly
    [max_iterations_] updates were made and [runIK] returns false
    together with the joint vector of the last update. *)
Theorem C5_loop_stops_within_budget
    (self : UnderconstrainedGoal) (goal : Affine3d) (init : VectorXd) :
  (0 <= max_iterations_ self < 2 ^ 31)%Z ->
  ik_run AngleAxisd JacobiSVD forward_kinematics getJacobian self goal init <> OutOfFuel /\
  forall e : ik_exit,
    ik_run AngleAxisd JacobiSVD forward_kinematics getJacobian self goal init = Normal e ->
    exists n : nat,
      ik_updates AngleAxisd JacobiSVD forward_kinematics getJacobian
        self goal (constrained_indices 0 (dof_nullity_ self)) n
        (mkIkState init (forward_kinematics init) 0) (final e) /\
      (Z.of_nat n <= max_iterations_ self)%Z /\
      (status e = IterationBudgetExhausted ->
       Z.of_nat n = max_iterations_ self /\
       runIK AngleAxisd JacobiSVD forward_kinematics getJacobian self goal init
         = Normal (false, joint_pose (final e))).
Proof.
  intro Hmax.
  destruct (ik_run_bounded self goal init) as [H1 H2].
  rewrite to_unsigned_small in H2 by lia.
  split; [exact H1|].
  intros e He. destruct (H2 e He) as (n & Hn & Hc & Hle & Hex).
  exists n. repeat split; auto.
  unfold runIK. rewrite He. cbn [bind]. unfold converged. rewrite H. reflexivity.
Qed.

(** C10: [configure] stores a budget of 0 as it stores any other
    integer; and with a budget of 0 the loop body is never entered:
    whatever the goal, the start vector, the mask and the thresholds
    are, [runIK] returns false and [joint_pose] is the start vector. *)
Theorem C10_zero_budget_returns_false
    (self : UnderconstrainedGoal) (goal : Affine3d) (init : VectorXd) :
  max_iterations_ self = 0%Z ->
  ik_run AngleAxisd JacobiSVD forward_kinematics getJacobian self goal init
    = Normal (mkIkExit IterationBudgetExhausted
                (mkIkState init (forward_kinematics init) 0)) /\
  runIK AngleAxisd JacobiSVD forward_kinematics getJacobian self goal init
    = Normal (false, init) /\
  forall (junk_int : Z) (junk_double : Q) (dofs : list Z) (thresholds rates : list Q)
         (self0 : UnderconstrainedGoal),
    length dofs = DOF_SIZE ->
    length thresholds = DOF_SIZE ->
    rates <> [] ->
    configure junk_int junk_double
      (Fixture.make_config dofs thresholds rates (TypeInt 0)) self0
    = Normal (true, mkGoal dofs rates thresholds 0 (tool_goal_pose_ self0)).
Proof.
  intro H. unfold runIK, ik_run. rewrite H.
  change (Z.to_nat (to_unsigned 0)) with 0%nat.
  cbn [ik_loop iteration_count]. rewrite H.
  repeat split.
  intros. now apply configure_accepts.
Qed.

(** C1, as the code has it: when the IK loop is left without
    convergence (the budget is used up, or the Jacobian is not
    available), [filter] sets [filtered] to false, leaves the matrix as
    it is, and returns false. *)
Theorem C1_failed_ik_is_returned_as_false
    (self : UnderconstrainedGoal) (start_timestep num_timesteps : nat)
    (iteration_number rollout_number : Z) (parameters : MatrixXd) (filtered : bool)
    (init : VectorXd) (e : ik_exit) :
  rightCols1 parameters = Normal init ->
  ik_run AngleAxisd JacobiSVD forward_kinematics getJacobian
    self (tool_goal_pose_ self) init = Normal e ->
  status e <> Converged ->
  filter AngleAxisd JacobiSVD forward_kinematics getJacobian self
    start_timestep num_timesteps iteration_number rollout_number parameters filtered
  = Normal (mkFilterResult false parameters false).
Proof.
  intros Hinit Hrun Hstatus.
  unfold filter, runIK. rewrite Hinit. cbn [bind]. rewrite Hrun. cbn [bind].
  unfold converged. destruct (status e); [congruence| |]; reflexivity.
Qed.

(** C9: [filter] keeps the shape of the matrix and every coefficient
    outside of the last column; when it returns true the last column
    holds the joint vector found by [runIK] and [filtered] is true;
    when it returns false the matrix is the one it was given and
    [filtered] is false; and a matrix of the same shape with the same
    last column gets the same verdict and the same last column. *)
Theorem C9_filter_touches_the_last_column_only
    (self : UnderconstrainedGoal) (start_timestep num_timesteps : nat)
    (iteration_number rollout_number : Z) (parameters : MatrixXd) (filtered : bool)
    (r : filter_result) :
  filter AngleAxisd JacobiSVD forward_kinematics getJacobian self
    start_timestep num_timesteps iteration_number rollout_number parameters filtered
    = Normal r ->
  let last := (cols parameters - 1)%nat in
  rows (filter_parameters r) = rows parameters /\
  cols (filter_parameters r) = cols parameters /\
  (forall i j : nat,
      j <> last -> coeff (filter_parameters r) i j = coeff parameters i j) /\
  (filter_return r = true ->
   filter_filtered r = true /\
   exists init joint_pose : VectorXd,
     rightCols1 parameters = Normal init /\
     runIK AngleAxisd JacobiSVD forward_kinematics getJacobian
       self (tool_goal_pose_ self) init = Normal (true, joint_pose) /\
     forall i : nat, coeff (filter_parameters r) i last = nth i joint_pose 0) /\
  (filter_return r = false ->
   filter_filtered r = false /\ filter_parameters r = parameters) /\
  forall (start_timestep' num_timesteps' : nat) (iteration_number' rollout_number' : Z)
         (parameters' : MatrixXd) (filtered' : bool),
    rows parameters' = rows parameters ->
    cols parameters' = cols parameters ->
    (forall i : nat, (i < rows parameters)%nat ->
                     coeff parameters' i last = coeff parameters i last) ->
    exists r' : filter_result,
      filter AngleAxisd JacobiSVD forward_kinematics getJacobian self
        start_timestep' num_timesteps' iteration_number' rollout_number'
        parameters' filtered' = Normal r' /\
      filter_return r' = filter_return r /\
      filter_filtered r' = filter_filtered r /\
      forall i : nat, (i < rows parameters)%nat ->
        coeff (filter_parameters r') i last = coeff (filter_parameters r) i last.
Proof.
  intros Hf last. unfold filter in Hf.
  bind_inversion Hf. rename a into init, Hm into Hinit.
  bind_inversion Hf. destruct a as [ok joint_pose]. rename Hm into Hik.
  assert (Nat.leb 1 (cols parameters) = true) as Hcols.
  { unfold rightCols1 in Hinit. bind_inversion Hinit.
    now apply eigen_assert_normal in Hm. }
  destruct ok; cbn [negb] in Hf.
  - bind_inversion Hf. injection Hf as <-. cbn.
    unfold set_rightCols1 in Hm. rewrite Hcols in Hm. cbn [eigen_assert bind] in Hm.
    bind_inversion Hm. apply eigen_assert_normal in Hm0. apply Nat.eqb_eq in Hm0.
    injection Hm as <-. cbn. fold last.
    repeat split; try discriminate.
    + intros i j Hj. apply Nat.eqb_neq in Hj. now rewrite Hj.
    + exists init, joint_pose. repeat split; auto.
      intro i. now rewrite Nat.eqb_refl.
    + intros st' nt' it' rn' parameters' filtered' Hrows Hcols' Hlast.
      unfold filter.
      assert (rightCols1 parameters' = Normal init) as Hinit'.
      { rewrite <- Hinit. unfold rightCols1. rewrite Hcols', Hrows, Hcols.
        cbn [eigen_assert bind]. f_equal. apply map_ext_in. intros i Hi.
        apply Hlast. apply in_seq in Hi. lia. }
      rewrite Hinit'. cbn [bind]. rewrite Hik. cbn [bind negb].
      unfold set_rightCols1. rewrite Hcols', Hrows, Hcols, Hm0, Nat.eqb_refl.
      cbn [eigen_assert bind].
      eexists. split; [reflexivity|]. cbn. fold last.
      repeat split. intros i _. now rewrite !Nat.eqb_refl.
  - injection Hf as <-. cbn.
    repeat split; try discriminate.
    intros st' nt' it' rn' parameters' filtered' Hrows Hcols' Hlast.
    unfold filter.
    assert (rightCols1 parameters' = Normal init) as Hinit'.
    { rewrite <- Hinit. unfold rightCols1. rewrite Hcols', Hrows, Hcols.
      cbn [eigen_assert bind]. f_equal. apply map_ext_in. intros i Hi.
        apply Hlast. apply in_seq in Hi. lia. }
    rewrite Hinit'. cbn [bind]. rewrite Hik. cbn [bind negb].
    eexists. split; [reflexivity|]. cbn.
    repeat split. intros i Hi. now apply Hlast.
Qed.

End SolverProperties.

(* ================================================================= *)
(** ** [calculateDampedPseudoInverse] *)

Lemma nth_coeff_set {A : Type} (x d : A) :
  forall (a : list A) (i k : nat),
    nth k (coeff_set i x a) d
    = if Nat.eqb k i && Nat.ltb i (length a) then x else nth k a d.
Proof.
  induction a as [|h t IH]; intros [|i] [|k]; simpl; try reflexivity.
  - now rewrite andb_false_r.
  - rewrite IH. reflexivity.
Qed.

Lemma damp_singular_value_eq (eps lambda : Q) (Sv : VectorXd) (i : nat) (inv_Sv : VectorXd) :
  damp_singular_value eps lambda Sv i inv_Sv
  = coeff_set i (spec_inverse_contribution eps lambda (nth i Sv 0)) inv_Sv.
Proof.
  unfold damp_singular_value, spec_inverse_contribution.
  destruct (Qltb eps (Qabs (nth i Sv 0))); reflexivity.
Qed.

(** The loop over the singular values writes the entries from [i] on. *)
Lemma damp_loop_spec (eps lambda : Q) (Sv : VectorXd) :
  forall (count i : nat) (acc : VectorXd),
    (i + count <= length acc)%nat ->
    let r := for_loop i count (damp_singular_value eps lambda Sv) acc in
    length r = length acc /\
    forall k : nat,
      nth k r 0
      = if Nat.leb i k && Nat.ltb k (i + count)
        then spec_inverse_contribution eps lambda (nth k Sv 0)
        else nth k acc 0.
Proof.
  induction count as [|count IH]; intros i acc Hlen; cbn [for_loop].
  - split; [reflexivity|]. intro k.
    destruct (Nat.leb i k) eqn:E1; [|reflexivity].
    apply Nat.leb_le in E1.
    assert (Nat.ltb k (i + 0) = false) as E2 by (apply Nat.ltb_ge; lia).
    now rewrite E2.
  - rewrite damp_singular_value_eq.
    destruct (IH (S i)
                 (coeff_set i (spec_inverse_contribution eps lambda (nth i Sv 0)) acc))
      as [IH1 IH2].
    { rewrite coeff_set_length. lia. }
    rewrite coeff_set_length in IH1.
    split; [exact IH1|]. intro k. rewrite IH2, nth_coeff_set.
    assert (Nat.ltb i (length acc) = true) as Ei by (apply Nat.ltb_lt; lia).
    rewrite Ei, andb_true_r.
    destruct (Nat.eqb k i) eqn:Ek.
    + apply Nat.eqb_eq in Ek. subst k.
      assert (Nat.leb (S i) i = false) as E1 by (apply Nat.leb_gt; lia).
      assert (Nat.leb i i = true) as E2 by (apply Nat.leb_le; lia).
      assert (Nat.ltb i (i + S count) = true) as E3 by (apply Nat.ltb_lt; lia).
      now rewrite E1, E2, E3.
    + apply Nat.eqb_neq in Ek.
      destruct (Nat.leb (S i) k) eqn:E1.
      * apply Nat.leb_le in E1.
        assert (Nat.leb i k = true) as E2 by (apply Nat.leb_le; lia).
        rewrite E2. cbn [andb].
        replace (S i + count)%nat with (i + S count)%nat by lia. reflexivity.
      * apply Nat.leb_gt in E1.
        assert (Nat.leb i k = false) as E2 by (apply Nat.leb_gt; lia).
        now rewrite E2.
Qed.

(** The loop computes the inverse contribution of every singular value. *)
Lemma damp_loop_map (eps lambda : Q) (Sv : VectorXd) :
  for_loop 0 (length Sv) (damp_singular_value eps lambda Sv) (repeat 0 (length Sv))
  = map (spec_inverse_contribution eps lambda) Sv.
Proof.
  destruct (damp_loop_spec eps lambda Sv (length Sv) 0 (repeat 0 (length Sv)))
    as [Hl Hn].
  { rewrite repeat_length. lia. }
  rewrite repeat_length in Hl.
  apply (nth_ext _ _ 0 0).
  - now rewrite Hl, length_map.
  - intros k Hk. rewrite Hl in Hk. rewrite Hn.
    assert (Nat.ltb k (0 + length Sv) = true) as E by (apply Nat.ltb_lt; lia).
    cbn [Nat.leb]. rewrite E. cbn [andb].
    rewrite (nth_indep (map (spec_inverse_contribution eps lambda) Sv) 0
               (spec_inverse_contribution eps lambda 0))
      by (rewrite length_map; lia).
    now rewrite map_nth.
Qed.

Lemma sumQ_ext (n : nat) (f g : nat -> Q) :
  (forall k, (k < n)%nat -> f k == g k) -> sumQ n f == sumQ n g.
Proof.
  induction n as [|n IH]; intro H; cbn [sumQ]; [reflexivity|].
  rewrite IH by (intros; apply H; lia).
  rewrite (H n) by lia. reflexivity.
Qed.

(** A row times a column of a diagonal matrix. *)
Lemma sumQ_diag (n k : nat) (a : nat -> Q) (x : nat -> Q) :
  sumQ n (fun m => a m * (if Nat.eqb m k then x m else 0))
  == if Nat.ltb k n then a k * x k else 0.
Proof.
  induction n as [|n IH]; cbn [sumQ]; [reflexivity|].
  rewrite IH.
  destruct (Nat.eqb n k) eqn:E.
  - apply Nat.eqb_eq in E. subst k.
    assert (Nat.ltb n n = false) as E1 by (apply Nat.ltb_ge; lia).
    assert (Nat.ltb n (S n) = true) as E2 by (apply Nat.ltb_lt; lia).
    rewrite E1, E2. ring.
  - apply Nat.eqb_neq in E.
    destruct (Nat.ltb k n) eqn:E1.
    + apply Nat.ltb_lt in E1.
      assert (Nat.ltb k (S n) = true) as E2 by (apply Nat.ltb_lt; lia).
      rewrite E2. ring.
    + apply Nat.ltb_ge in E1.
      assert (Nat.ltb k (S n) = false) as E2 by (apply Nat.ltb_ge; lia).
      rewrite E2. ring.
Qed.

(** At the constants of the file no division of the loop over the
    singular values is a division by zero. *)
Lemma damped_divisors_nonzero (s : Q) :
  (EPSILON < Qabs s -> ~ s == 0) /\ ~ s * s + LAMBDA * LAMBDA == 0.
Proof.
  unfold EPSILON, LAMBDA. split.
  - intros H E. rewrite E in H. discriminate.
  - intro E. assert (0 <= s * s) by nra. lra.
Qed.

Section PseudoInverseProperties.

Variable JacobiSVD : MatrixXd -> SVD.

(** The source computes [V * diag(invSigma) * U^T]: the result has the
    shape of that product and agrees with it in every coefficient,
    provided [V] has one column per singular value, as Eigen's thin SVD
    has. *)
Lemma pseudo_inverse_refines_spec (jacb : MatrixXd) (eps lambda : Q) :
  cols (matrixV (JacobiSVD jacb)) = length (singularValues (JacobiSVD jacb)) ->
  let P := calculateDampedPseudoInverse JacobiSVD jacb eps lambda in
  let S := spec_pseudo_inverse (JacobiSVD jacb) eps lambda in
  rows P = rows S /\ cols P = cols S /\
  forall i j : nat, coeff P i j == coeff S i j.
Proof.
  intros Hshape P S. unfold P, S, calculateDampedPseudoInverse, spec_pseudo_inverse.
  rewrite damp_loop_map.
  set (d := map (spec_inverse_contribution eps lambda)
                (singularValues (JacobiSVD jacb))).
  assert (length d = length (singularValues (JacobiSVD jacb))) as Hd
    by (unfold d; now rewrite length_map).
  cbn. repeat split.
  intros i j. apply sumQ_ext. intros k Hk.
  rewrite Hshape, <- Hd.
  rewrite (sumQ_diag (length d) k (fun m => coeff (matrixV (JacobiSVD jacb)) i m)
             (fun m => nth m d 0)).
  assert (Nat.ltb k (length d) = true) as E by (apply Nat.ltb_lt; lia).
  rewrite E. reflexivity.
Qed.

End PseudoInverseProperties.

(* ================================================================= *)
(** ** The solver at the goal and in its loop body *)

Lemma force_angle_range_inside (fuel : nat) (a : Q) :
  - M_PI <= a -> a <= M_PI -> force_angle_range fuel a = Normal a.
Proof.
  intros Hlo Hhi.
  assert (Qltb M_PI a = false) as E1 by now apply Qltb_ge.
  assert (Qltb a (- M_PI) = false) as E2 by now apply Qltb_ge.
  destruct fuel; cbn [force_angle_range]; now rewrite E1, E2.
Qed.

(** A twist whose entries are all zero is below thresholds that are all
    positive. *)
Lemma all_below_zero :
  forall twist thresholds : list Q,
    Forall (fun t => t == 0) twist ->
    Forall (fun h => 0 < h) thresholds ->
    all_below twist thresholds = true.
Proof.
  induction twist as [|t ts IH]; intros [|h hs] Ht Hh; cbn [all_below]; try reflexivity.
  inversion Ht as [|? ? Ht0 Hts]; subst. inversion Hh as [|? ? Hh0 Hhs]; subst.
  rewrite IH by assumption. rewrite andb_true_r.
  apply Qltb_lt. rewrite Ht0. exact Hh0.
Qed.

(** A threshold that is not positive is never undercut. *)
Lemma all_below_needs_positive :
  forall twist thresholds : list Q,
    length twist = length thresholds ->
    Exists (fun h => h <= 0) thresholds ->
    all_below twist thresholds = false.
Proof.
  induction twist as [|t ts IH]; intros [|h hs] Hlen Hex; cbn [all_below];
    simpl in Hlen; try discriminate.
  - inversion Hex.
  - inversion Hex as [? ? Hh|? ? Hhs]; subst.
    + assert (Qltb (Qabs t) h = false) as E.
      { apply Qltb_ge. pose proof (Qabs_nonneg t). lra. }
      now rewrite E.
    + rewrite IH by (auto; lia). apply andb_false_r.
Qed.

Section GoalProperties.

Variable AngleAxisd : Matrix3d -> AngleAxis.
Variable JacobiSVD : MatrixXd -> SVD.
Variable forward_kinematics : VectorXd -> Affine3d.
Variable getJacobian : VectorXd -> option MatrixXd.

(** The twist from a pose to itself is zero in every entry. *)
Lemma computeTwist_same_pose (p : Affine3d) (nullity : ArrayXi) :
  length nullity = DOF_SIZE ->
  m3_eq (m3_mul (m3_transpose (rotation p)) (rotation p)) m3_identity ->
  (forall R : Matrix3d, m3_eq R m3_identity -> angle (AngleAxisd R) == 0) ->
  exists twist : VectorXd,
    computeTwist AngleAxisd p p nullity = Normal twist /\
    length twist = DOF_SIZE /\
    Forall (fun t => t == 0) twist.
Proof.
  intros Hlen Horth Haa.
  pose proof M_PI_pos as Hpi.
  specialize (Haa _ Horth).
  unfold computeTwist.
  rewrite force_angle_range_inside by (rewrite Haa; lra).
  cbn [bind].
  destruct nullity as [|n0 [|n1 [|n2 [|n3 [|n4 [|n5 [|n6 ns]]]]]]]; try discriminate.
  eexists. split; [reflexivity|]. split; [reflexivity|].
  cbn.
  repeat constructor;
    match goal with
    | |- (if ?c then _ else _) == 0 => destruct c; [reflexivity|]
    end;
    try (rewrite Haa); ring.
Qed.

(** A threshold that is zero or negative keeps the loop from ever
    being left through the convergence test. *)
Lemma never_converged_without_positive_thresholds
    (self : UnderconstrainedGoal) (goal : Affine3d) (indices : list nat) (s : ik_state) :
  Exists (fun h => h <= 0) (cartesian_convergence_thresholds_ self) ->
  ik_iteration AngleAxisd JacobiSVD forward_kinematics getJacobian self goal indices s
    <> Normal StepConverged.
Proof.
  intros Hex H. unfold ik_iteration in H.
  bind_inversion H. unfold check_convergence in H.
  bind_inversion H. bind_inversion Hm0.
  apply eigen_assert_normal, Nat.eqb_eq in Hm1.
  injection Hm0 as <-.
  rewrite (all_below_needs_positive _ _ Hm1 Hex) in H.
  destruct (getJacobian (joint_pose s)); [|discriminate].
  repeat bind_inversion H. discriminate.
Qed.

(** C4, as the code has it: with thresholds that are all positive and
    a positive budget, a last waypoint whose tool pose is the goal pose
    gives a twist that is zero in every entry; the loop is left through
    the convergence test before any update, [filter] reports
    [filtered = true] and returns true, and the matrix it leaves behind
    has the coefficients it was given.  The goal rotation is
    orthonormal, and Eigen's angle-axis conversion gives the identity
    the angle 0. *)
Theorem C4_start_at_goal_converges_at_once
    (self : UnderconstrainedGoal) (start_timestep num_timesteps : nat)
    (iteration_number rollout_number : Z) (parameters : MatrixXd) (filtered : bool)
    (init : VectorXd) :
  configured self ->
  Forall (fun h => 0 < h) (cartesian_convergence_thresholds_ self) ->
  (0 < max_iterations_ self < 2 ^ 31)%Z ->
  rightCols1 parameters = Normal init ->
  forward_kinematics init = tool_goal_pose_ self ->
  m3_eq (m3_mul (m3_transpose (rotation (tool_goal_pose_ self)))
                (rotation (tool_goal_pose_ self))) m3_identity ->
  (forall R : Matrix3d, m3_eq R m3_identity -> angle (AngleAxisd R) == 0) ->
  (exists twist : VectorXd,
      computeTwist AngleAxisd (forward_kinematics init) (tool_goal_pose_ self)
        (dof_nullity_ self) = Normal twist /\
      Forall (fun t => t == 0) twist) /\
  ik_run AngleAxisd JacobiSVD forward_kinematics getJacobian
    self (tool_goal_pose_ self) init
    = Normal (mkIkExit Converged (mkIkState init (tool_goal_pose_ self) 0)) /\
  exists r : filter_result,
    filter AngleAxisd JacobiSVD forward_kinematics getJacobian self
      start_timestep num_timesteps iteration_number rollout_number parameters filtered
      = Normal r /\
    filter_return r = true /\
    filter_filtered r = true /\
    rows (filter_parameters r) = rows parameters /\
    cols (filter_parameters r) = cols parameters /\
    forall i j : nat, (i < rows parameters)%nat ->
      coeff (filter_parameters r) i j = coeff parameters i j.
Proof.
  intros [Hn Ht] Hpos Hmax Hinit Hfk Horth Haa.
  destruct (computeTwist_same_pose (tool_goal_pose_ self) (dof_nullity_ self)
              Hn Horth Haa) as (twist & Htwist & Hlen & Hzero).
  assert (ik_run AngleAxisd JacobiSVD forward_kinematics getJacobian
            self (tool_goal_pose_ self) init
          = Normal (mkIkExit Converged (mkIkState init (tool_goal_pose_ self) 0)))
    as Hrun.
  { unfold ik_run. cbn [ik_loop iteration_count].
    rewrite to_unsigned_small by lia.
    assert ((0 <? max_iterations_ self)%Z = true) as E by (apply Z.ltb_lt; lia).
    rewrite E. unfold ik_iteration. cbn [tool_current_pose].
    rewrite Hfk, Htwist. cbn [bind].
    unfold check_convergence. rewrite Hlen, Ht, Nat.eqb_refl. cbn [eigen_assert bind].
    rewrite (all_below_zero _ _ Hzero Hpos). reflexivity. }
  split; [|split; [exact Hrun|]].
  { exists twist. rewrite Hfk. auto. }
  unfold filter, runIK. rewrite Hinit. cbn [bind]. rewrite Hrun. cbn.
  pose proof Hinit as Hinit'. unfold rightCols1 in Hinit'.
  bind_inversion Hinit'. apply eigen_assert_normal in Hm. injection Hinit' as Hinit'.
  unfold set_rightCols1. rewrite Hm.
  assert (Nat.eqb (length init) (rows parameters) = true) as E.
  { apply Nat.eqb_eq. rewrite <- Hinit'. now rewrite length_map, length_seq. }
  rewrite E. cbn.
  eexists. split; [reflexivity|]. cbn. repeat split.
  intros i j Hi.
  destruct (Nat.eqb j (cols parameters - 1)) eqn:Ej; [|reflexivity].
  apply Nat.eqb_eq in Ej. subst j. rewrite <- Hinit'.
  rewrite (nth_indep _ 0 (coeff parameters 0 (cols parameters - 1)))
    by (rewrite length_map, length_seq; lia).
  rewrite (map_nth (fun i => coeff parameters i (cols parameters - 1))).
  now rewrite seq_nth.
Qed.

Lemma pseudo_inverse_coeff (jacb : MatrixXd) (eps lambda : Q) (i j : nat) :
  let svd := JacobiSVD jacb in
  coeff (calculateDampedPseudoInverse JacobiSVD jacb eps lambda) i j
  == sumQ (length (singularValues svd))
       (fun k => coeff (matrixV svd) i k
                 * spec_inverse_contribution eps lambda (nth k (singularValues svd) 0)
                 * coeff (matrixU svd) j k).
Proof.
  intro svd. unfold calculateDampedPseudoInverse. fold svd.
  rewrite damp_loop_map. cbn. rewrite length_map.
  apply sumQ_ext. intros k Hk.
  rewrite (nth_indep (map (spec_inverse_contribution eps lambda) (singularValues svd)) 0
             (spec_inverse_contribution eps lambda 0))
    by (rewrite length_map; lia).
  rewrite map_nth. reflexivity.
Qed.

(** C6: the coefficient (i, j) of [calculateDampedPseudoInverse] is the
    sum over the singular values [s_k] of [V(i,k) * c_k * U(j,k)], with
    [c_k = 1 / s_k] when [|s_k| > eps] and [c_k = s_k / (s_k^2 + lambda^2)]
    otherwise, which is the coefficient of the product
    [V * diag(c) * U^T] of the thin SVD; and a pass through the loop
    body of [runIK] that reaches the update computes the joint change
    with this function at [eps = 0.1] and [lambda = 0.01]. *)
Theorem C6_damped_pseudo_inverse
    (jacb : MatrixXd) (eps lambda : Q)
    (self : UnderconstrainedGoal) (goal : Affine3d) (indices : list nat) (s : ik_state)
    (tool_twist : VectorXd) (jacb0 jacb1 jacb_reduced : MatrixXd) :
  cols (matrixV (JacobiSVD jacb)) = length (singularValues (JacobiSVD jacb)) ->
  computeTwist AngleAxisd (tool_current_pose s) goal (dof_nullity_ self)
    = Normal tool_twist ->
  check_convergence tool_twist (cartesian_convergence_thresholds_ self) = Normal false ->
  getJacobian (joint_pose s) = Some jacb0 ->
  transform_bottom_rows (rotation (tool_current_pose s)) jacb0 = Normal jacb1 ->
  reduceJacobian jacb1 indices = Normal jacb_reduced ->
  let svd := JacobiSVD jacb in
  let P := calculateDampedPseudoInverse JacobiSVD jacb eps lambda in
  let c := spec_inverse_contribution eps lambda in
  (forall x : Q, eps < Qabs x -> c x = 1 / x) /\
  (forall x : Q, Qabs x <= eps -> c x = x / (x * x + lambda * lambda)) /\
  rows P = rows (matrixV svd) /\
  cols P = rows (matrixU svd) /\
  (forall i j : nat,
      coeff P i j
      == sumQ (length (singularValues svd))
           (fun k => coeff (matrixV svd) i k * c (nth k (singularValues svd) 0)
                     * coeff (matrixU svd) j k)) /\
  (forall i j : nat, coeff P i j == coeff (spec_pseudo_inverse svd eps lambda) i j) /\
  ik_iteration AngleAxisd JacobiSVD forward_kinematics getJacobian self goal indices s
  = (delta_j <- mat_vec (calculateDampedPseudoInverse JacobiSVD jacb_reduced
                           (1 # 10) (1 # 100))
                  (map (fun k => nth k tool_twist 0) indices) ;;
     joint_pose' <- update_joint_pose (joint_pose s) (joint_update_rates_ self) delta_j ;;
     Normal (StepUpdated (mkIkState joint_pose' (forward_kinematics joint_pose')
                            (to_unsigned (iteration_count s + 1))))).
Proof.
  intros Hshape Htwist Hcheck Hjac Htrans Hred svd P c.
  destruct (pseudo_inverse_refines_spec JacobiSVD jacb eps lambda Hshape)
    as (_ & _ & Hspec).
  repeat split.
  - intros x Hx. unfold c, spec_inverse_contribution.
    apply Qltb_lt in Hx. now rewrite Hx.
  - intros x Hx. unfold c, spec_inverse_contribution.
    apply Qltb_ge in Hx. now rewrite Hx.
  - intros i j. apply pseudo_inverse_coeff.
  - exact Hspec.
  - unfold ik_iteration. rewrite Htwist. cbn [bind]. rewrite Hcheck. cbn [bind].
    rewrite Hjac, Htrans. cbn [bind]. rewrite Hred. cbn [bind]. reflexivity.
Qed.

End GoalProperties.

(* ================================================================= *)
(** ** The properties on the one-joint arm *)

(** C1 is false as stated.  The arm starts at x = 0 with goal x = 1 and a
    budget of one iteration; the loop is left with the budget used up,
    and [filter] returns false: the value by which a noisy filter reports
    its own failure to the optimization task, not true with [filtered]
    cleared. *)
Lemma C1_failed_ik_makes_filter_fail :
  exists (e : ik_exit) (r : filter_result),
    ik_run Fixture.AngleAxisd Fixture.JacobiSVD Fixture.forward_kinematics
      Fixture.getJacobian (Fixture.full_goal 1) (Fixture.pose_at 1) [0] = Normal e /\
    status e = IterationBudgetExhausted /\
    filter Fixture.AngleAxisd Fixture.JacobiSVD Fixture.forward_kinematics
      Fixture.getJacobian (Fixture.full_goal 1) 0 3 0 0 (Fixture.waypoints 0) true
      = Normal r /\
    filter_filtered r = false /\
    filter_return r = false /\
    filter_return r <> true.
Proof.
  eexists. eexists.
  split; [vm_compute; reflexivity|].
  split; [reflexivity|].
  split; [vm_compute; reflexivity|].
  repeat split. discriminate.
Qed.

Lemma C1_failed_ik_is_returned_as_false_witness :
  filter Fixture.AngleAxisd Fixture.JacobiSVD Fixture.forward_kinematics
    Fixture.noJacobian (Fixture.full_goal 5) 0 3 0 0 (Fixture.waypoints 0) true
  = Normal (mkFilterResult false (Fixture.waypoints 0) false).
Proof.
  apply (C1_failed_ik_is_returned_as_false
           Fixture.AngleAxisd Fixture.JacobiSVD Fixture.forward_kinematics
           Fixture.noJacobian (Fixture.full_goal 5) 0 3 0%Z 0%Z (Fixture.waypoints 0) true
           [0]
           (mkIkExit JacobianUnavailable (mkIkState [0] (Fixture.pose_at 0) 0))).
  - reflexivity.
  - vm_compute. reflexivity.
  - discriminate.
Defined.

(** C4 is false as stated.  Thresholds of zero are non-negative; the arm
    starts at its goal x = 0, the twist is zero, and [|0| < 0] fails: the
    loop makes its one update and [filter] reports [filtered = false]. *)
Lemma C4_zero_thresholds_never_converge :
  Fixture.forward_kinematics [0] = tool_goal_pose_ Fixture.zero_threshold_goal /\
  rightCols1 (Fixture.waypoints 0) = Normal [0] /\
  Forall (fun h => 0 <= h) (cartesian_convergence_thresholds_ Fixture.zero_threshold_goal) /\
  (0 < max_iterations_ Fixture.zero_threshold_goal)%Z /\
  exists (e : ik_exit) (r : filter_result),
    ik_run Fixture.AngleAxisd Fixture.JacobiSVD Fixture.forward_kinematics
      Fixture.getJacobian Fixture.zero_threshold_goal
      (tool_goal_pose_ Fixture.zero_threshold_goal) [0] = Normal e /\
    status e = IterationBudgetExhausted /\
    iteration_count (final e) = 1%Z /\
    filter Fixture.AngleAxisd Fixture.JacobiSVD Fixture.forward_kinematics
      Fixture.getJacobian Fixture.zero_threshold_goal 0 3 0 0 (Fixture.waypoints 0) true
      = Normal r /\
    filter_filtered r = false /\
    filter_return r = false.
Proof.
  split; [reflexivity|].
  split; [reflexivity|].
  split; [repeat constructor; discriminate|].
  split; [reflexivity|].
  eexists. eexists.
  split; [vm_compute; reflexivity|].
  split; [reflexivity|].
  split; [reflexivity|].
  split; [vm_compute; reflexivity|].
  split; reflexivity.
Qed.

Lemma C4_start_at_goal_converges_at_once_witness :
  (exists twist : VectorXd,
      computeTwist Fixture.AngleAxisd (Fixture.forward_kinematics [1]) (Fixture.pose_at 1)
        [1; 1; 1; 1; 1; 1]%Z = Normal twist /\
      Forall (fun t => t == 0) twist) /\
  ik_run Fixture.AngleAxisd Fixture.JacobiSVD Fixture.forward_kinematics
    Fixture.getJacobian (Fixture.full_goal 1) (Fixture.pose_at 1) [1]
    = Normal (mkIkExit Converged (mkIkState [1] (Fixture.pose_at 1) 0)) /\
  exists r : filter_result,
    filter Fixture.AngleAxisd Fixture.JacobiSVD Fixture.forward_kinematics
      Fixture.getJacobian (Fixture.full_goal 1) 0 3 0 0 (Fixture.waypoints 1) false
      = Normal r /\
    filter_return r = true /\
    filter_filtered r = true /\
    rows (filter_parameters r) = 1%nat /\
    cols (filter_parameters r) = 3%nat /\
    forall i j : nat, (i < 1)%nat ->
      coeff (filter_parameters r) i j = coeff (Fixture.waypoints 1) i j.
Proof.
  apply (C4_start_at_goal_converges_at_once
           Fixture.AngleAxisd Fixture.JacobiSVD Fixture.forward_kinematics
           Fixture.getJacobian (Fixture.full_goal 1) 0 3 0%Z 0%Z (Fixture.waypoints 1)
           false [1]).
  - split; reflexivity.
  - repeat constructor.
  - simpl. lia.
  - reflexivity.
  - reflexivity.
  - repeat split; reflexivity.
  - intros R _. reflexivity.
Defined.

Lemma C5_loop_stops_within_budget_witness :
  ik_run Fixture.AngleAxisd Fixture.JacobiSVD Fixture.forward_kinematics
    Fixture.getJacobian (Fixture.full_goal 1) (Fixture.pose_at 1) [0] <> OutOfFuel /\
  forall e : ik_exit,
    ik_run Fixture.AngleAxisd Fixture.JacobiSVD Fixture.forward_kinematics
      Fixture.getJacobian (Fixture.full_goal 1) (Fixture.pose_at 1) [0] = Normal e ->
    exists n : nat,
      ik_updates Fixture.AngleAxisd Fixture.JacobiSVD Fixture.forward_kinematics
        Fixture.getJacobian (Fixture.full_goal 1) (Fixture.pose_at 1)
        [0; 1; 2; 3; 4; 5]%nat n
        (mkIkState [0] (Fixture.pose_at 0) 0) (final e) /\
      (Z.of_nat n <= 1)%Z /\
      (status e = IterationBudgetExhausted ->
       Z.of_nat n = 1%Z /\
       runIK Fixture.AngleAxisd Fixture.JacobiSVD Fixture.forward_kinematics
         Fixture.getJacobian (Fixture.full_goal 1) (Fixture.pose_at 1) [0]
         = Normal (false, joint_pose (final e))).
Proof.
  apply (C5_loop_stops_within_budget
           Fixture.AngleAxisd Fixture.JacobiSVD Fixture.forward_kinematics
           Fixture.getJacobian (Fixture.full_goal 1) (Fixture.pose_at 1) [0]).
  simpl. lia.
Defined.

Lemma C10_zero_budget_returns_false_witness :
  ik_run Fixture.AngleAxisd Fixture.JacobiSVD Fixture.forward_kinematics
    Fixture.getJacobian (Fixture.full_goal 0) (Fixture.pose_at 1) [1]
    = Normal (mkIkExit IterationBudgetExhausted (mkIkState [1] (Fixture.pose_at 1) 0)) /\
  runIK Fixture.AngleAxisd Fixture.JacobiSVD Fixture.forward_kinematics
    Fixture.getJacobian (Fixture.full_goal 0) (Fixture.pose_at 1) [1]
    = Normal (false, [1]) /\
  forall (junk_int : Z) (junk_double : Q) (dofs : list Z) (thresholds rates : list Q)
         (self0 : UnderconstrainedGoal),
    length dofs = DOF_SIZE ->
    length thresholds = DOF_SIZE ->
    rates <> [] ->
    configure junk_int junk_double
      (Fixture.make_config dofs thresholds rates (TypeInt 0)) self0
    = Normal (true, mkGoal dofs rates thresholds 0 (tool_goal_pose_ self0)).
Proof.
  apply (C10_zero_budget_returns_false
           Fixture.AngleAxisd Fixture.JacobiSVD Fixture.forward_kinematics
           Fixture.getJacobian (Fixture.full_goal 0) (Fixture.pose_at 1) [1]).
  reflexivity.
Defined.

(** The first pass of the arm from x = 0 to the goal x = 1. *)
Lemma C6_damped_pseudo_inverse_witness :
  let s := mkIkState [0] (Fixture.pose_at 0) 0 in
  let indices := [0; 1; 2; 3; 4; 5]%nat in
  let tool_twist := [1; 0; 0; 0; 0; 0] in
  let jacb1 :=
    Fixture.returned Fixture.jacobian
      (transform_bottom_rows m3_identity Fixture.jacobian) in
  let jacb_reduced := Fixture.returned Fixture.jacobian (reduceJacobian jacb1 indices) in
  let svd := Fixture.JacobiSVD jacb_reduced in
  let P := calculateDampedPseudoInverse Fixture.JacobiSVD jacb_reduced (1 # 10) (1 # 100) in
  let c := spec_inverse_contribution (1 # 10) (1 # 100) in
  (forall x : Q, 1 # 10 < Qabs x -> c x = 1 / x) /\
  (forall x : Q, Qabs x <= 1 # 10 -> c x = x / (x * x + (1 # 100) * (1 # 100))) /\
  rows P = 1%nat /\
  cols P = 6%nat /\
  (forall i j : nat,
      coeff P i j
      == sumQ 1 (fun k => coeff (matrixV svd) i k * c (nth k (singularValues svd) 0)
                          * coeff (matrixU svd) j k)) /\
  (forall i j : nat,
      coeff P i j == coeff (spec_pseudo_inverse svd (1 # 10) (1 # 100)) i j) /\
  ik_iteration Fixture.AngleAxisd Fixture.JacobiSVD Fixture.forward_kinematics
    Fixture.getJacobian (Fixture.full_goal 1) (Fixture.pose_at 1) indices s
  = (delta_j <- mat_vec (calculateDampedPseudoInverse Fixture.JacobiSVD jacb_reduced
                           (1 # 10) (1 # 100))
                  (map (fun k => nth k tool_twist 0) indices) ;;
     joint_pose' <- update_joint_pose [0] [1 # 2] delta_j ;;
     Normal (StepUpdated (mkIkState joint_pose' (Fixture.forward_kinematics joint_pose')
                            (to_unsigned (0 + 1))))).
Proof.
  intros s indices tool_twist jacb1 jacb_reduced svd P c.
  apply (C6_damped_pseudo_inverse
           Fixture.AngleAxisd Fixture.JacobiSVD Fixture.forward_kinematics
           Fixture.getJacobian jacb_reduced (1 # 10) (1 # 100)
           (Fixture.full_goal 1) (Fixture.pose_at 1) indices s tool_twist
           Fixture.jacobian jacb1 jacb_reduced).
  - reflexivity.
  - reflexivity.
  - reflexivity.
  - reflexivity.
  - reflexivity.
  - reflexivity.
Defined.

(** The arm starts at its goal x = 1: [filter] writes the start vector
    back into the last column. *)
Lemma C9_filter_touches_the_last_column_only_witness :
  let parameters := Fixture.waypoints 1 in
  let r :=
    mkFilterResult true
      (Fixture.returned parameters (set_rightCols1 parameters [1])) true in
  rows (filter_parameters r) = 1%nat /\
  cols (filter_parameters r) = 3%nat /\
  (forall i j : nat, j <> 2%nat -> coeff (filter_parameters r) i j = coeff parameters i j) /\
  (filter_return r = true ->
   filter_filtered r = true /\
   exists init joint_pose : VectorXd,
     rightCols1 parameters = Normal init /\
     runIK Fixture.AngleAxisd Fixture.JacobiSVD Fixture.forward_kinematics
       Fixture.getJacobian (Fixture.full_goal 1) (Fixture.pose_at 1) init
       = Normal (true, joint_pose) /\
     forall i : nat, coeff (filter_parameters r) i 2 = nth i joint_pose 0) /\
  (filter_return r = false ->
   filter_filtered r = false /\ filter_parameters r = parameters) /\
  forall (start_timestep' num_timesteps' : nat) (iteration_number' rollout_number' : Z)
         (parameters' : MatrixXd) (filtered' : bool),
    rows parameters' = 1%nat ->
    cols parameters' = 3%nat ->
    (forall i : nat, (i < 1)%nat -> coeff parameters' i 2 = coeff parameters i 2) ->
    exists r' : filter_result,
      filter Fixture.AngleAxisd Fixture.JacobiSVD Fixture.forward_kinematics
        Fixture.getJacobian (Fixture.full_goal 1)
        start_timestep' num_timesteps' iteration_number' rollout_number'
        parameters' filtered' = Normal r' /\
      filter_return r' = filter_return r /\
      filter_filtered r' = filter_filtered r /\
      forall i : nat, (i < 1)%nat ->
        coeff (filter_parameters r') i 2 = coeff (filter_parameters r) i 2.
Proof.
  intros parameters r.
  apply (C9_filter_touches_the_last_column_only
           Fixture.AngleAxisd Fixture.JacobiSVD Fixture.forward_kinematics
           Fixture.getJacobian (Fixture.full_goal 1) 0 3 0%Z 0%Z parameters false r).
  reflexivity.
Defined.

(* ================================================================= *)
(** * Further properties of the file *)

(** ** [setMotionPlanRequest] *)

Lemma empty_true {A : Type} (v : list A) : empty v = true <-> v = [].
Proof. destruct v; simpl; split; congruence. Qed.

Section RequestProperties.

Variable RobotStateMsg : Type.
Variable RobotState : Type.
Variable poseMsgToEigen : Pose -> Affine3d.
Variable group_tool_link : string.
Variable new_RobotState : RobotState.
Variable robotStateMsgToRobotState : RobotStateMsg -> RobotState -> RobotState.
Variable setVariablePosition : RobotState -> string -> Q -> option RobotState.
Variable update : RobotState -> RobotState.
Variable enforceBounds : RobotState -> RobotState.
Variable getGlobalLinkTransform : RobotState -> string -> Affine3d.

(** X1: [setMotionPlanRequest] returns false exactly when the request has
    no goal at all, or when its first goal lacks a position or an
    orientation constraint and has no joint constraint either.  It then
    reports INVALID_GOAL_CONSTRAINTS and leaves the mask, the update
    rates, the thresholds, the budget and the goal pose as they were;
    [tool_link_] and [state_] have been assigned all the same: the last
    link of the group and a new robot state with the start state of the
    request loaded.  When it returns true it reports SUCCESS, has kept
    the mask, the update rates, the thresholds and the budget, and
    [tool_link_] is again the last link of the group. *)
Theorem request_fails_exactly_without_a_goal
    (start_state : RobotStateMsg) (goals : list Constraints)
    (self self' : UnderconstrainedGoal) (ret : bool) (error_code : MoveItErrorCode)
    (tool_link_ : string) (state_ : RobotState) :
  setMotionPlanRequest poseMsgToEigen group_tool_link new_RobotState
    robotStateMsgToRobotState setVariablePosition update enforceBounds
    getGlobalLinkTransform start_state goals self
    = RequestReturned ret error_code self' tool_link_ state_ ->
  (ret = false <->
   match goals with
   | [] => True
   | front :: _ =>
       (position_constraints front = [] \/ orientation_constraints front = []) /\
       joint_constraints front = []
   end) /\
  tool_link_ = group_tool_link /\
  (ret = false ->
   error_code = INVALID_GOAL_CONSTRAINTS /\
   self' = self /\
   state_ = robotStateMsgToRobotState start_state new_RobotState) /\
  (ret = true ->
   error_code = SUCCESS /\
   dof_nullity_ self' = dof_nullity_ self /\
   joint_update_rates_ self' = joint_update_rates_ self /\
   cartesian_convergence_thresholds_ self' = cartesian_convergence_thresholds_ self /\
   max_iterations_ self' = max_iterations_ self).
Proof.
  unfold setMotionPlanRequest.
  destruct goals as [|front rest].
  { intro H; injection H as <- <- <- <- <-. repeat split; auto; discriminate. }
  destruct (position_constraints front) as [|pc pcs] eqn:Ep;
    destruct (orientation_constraints front) as [|oc ocs] eqn:Eo;
    cbn [empty orb].
  4:{ destruct (primitive_poses pc) as [|pp pps]; [discriminate|].
      intro H; injection H as <- <- <- <- <-.
      repeat split; try discriminate; auto.
      intros [[C|C] _]; discriminate. }
  all: destruct (joint_constraints front) as [|jc jcs] eqn:Ej; cbn [empty];
    [ intro H; injection H as <- <- <- <- <-; repeat split; auto; discriminate
    | destruct (copy_joint_goal setVariablePosition _ (jc :: jcs)) as [st|st];
      [discriminate|];
      intro H; injection H as <- <- <- <- <-;
      repeat split; try discriminate; auto;
      intros [_ C]; discriminate ].
Qed.

(** X2: a first goal that lacks the position or the orientation
    constraint is not used as a Cartesian goal at all: with joint
    constraints present, the joint values are written into the robot
    state that holds the start state, and the goal pose is the pose of
    the tool link in that state, updated and with its bounds enforced
    (or the exception of the robot state leaves the function); the
    constraint that is present is not read. *)
Theorem half_a_cartesian_goal_falls_back_to_the_joints
    (start_state : RobotStateMsg) (self : UnderconstrainedGoal)
    (front : Constraints) (more_goals : list Constraints) :
  position_constraints front = [] \/ orientation_constraints front = [] ->
  joint_constraints front <> [] ->
  setMotionPlanRequest poseMsgToEigen group_tool_link new_RobotState
    robotStateMsgToRobotState setVariablePosition update enforceBounds
    getGlobalLinkTransform start_state (front :: more_goals) self
  = match copy_joint_goal setVariablePosition
            (robotStateMsgToRobotState start_state new_RobotState)
            (joint_constraints front) with
    | inr state =>
        RequestReturned true SUCCESS
          (set_tool_goal_pose self
             (getGlobalLinkTransform (enforceBounds (update state)) group_tool_link))
          group_tool_link (enforceBounds (update state))
    | inl state => RequestThrown group_tool_link state
    end.
Proof.
  intros Hhalf Hjoints. unfold setMotionPlanRequest.
  assert (empty (position_constraints front) || empty (orientation_constraints front)
          = true) as E.
  { apply orb_true_iff. destruct Hhalf as [H|H]; [left|right]; now apply empty_true. }
  rewrite E.
  destruct (joint_constraints front); [congruence|reflexivity].
Qed.

(** X3: a position constraint whose region has no primitive pose is
    indexed at 0 all the same, once an orientation constraint stands
    beside it: the call does not return. *)
Theorem region_without_primitive_pose_is_read_out_of_range
    (start_state : RobotStateMsg) (self : UnderconstrainedGoal)
    (front : Constraints) (more_goals : list Constraints)
    (more_positions : list PositionConstraint) :
  position_constraints front = mkPositionConstraint [] :: more_positions ->
  orientation_constraints front <> [] ->
  setMotionPlanRequest poseMsgToEigen group_tool_link new_RobotState
    robotStateMsgToRobotState setVariablePosition update enforceBounds
    getGlobalLinkTransform start_state (front :: more_goals) self
  = RequestOutOfRange.
Proof.
  intros Hp Ho. unfold setMotionPlanRequest. rewrite Hp.
  destruct (orientation_constraints front); [congruence|reflexivity].
Qed.

End RequestProperties.

(** A request without any constraint in its goal, on an object whose
    start state is the joint value 4. *)
Lemma request_fails_exactly_without_a_goal_witness :
  (false = false <->
   (position_constraints (mkConstraints [] [] []) = [] \/
    orientation_constraints (mkConstraints [] [] []) = []) /\
   joint_constraints (mkConstraints [] [] []) = []) /\
  "tool"%string = RequestFixture.group_tool_link /\
  (false = false ->
   INVALID_GOAL_CONSTRAINTS = INVALID_GOAL_CONSTRAINTS /\
   Fixture.full_goal 5 = Fixture.full_goal 5 /\
   4 = RequestFixture.robotStateMsgToRobotState 4 RequestFixture.new_RobotState) /\
  (false = true ->
   INVALID_GOAL_CONSTRAINTS = SUCCESS /\
   dof_nullity_ (Fixture.full_goal 5) = dof_nullity_ (Fixture.full_goal 5) /\
   joint_update_rates_ (Fixture.full_goal 5) = joint_update_rates_ (Fixture.full_goal 5) /\
   cartesian_convergence_thresholds_ (Fixture.full_goal 5)
   = cartesian_convergence_thresholds_ (Fixture.full_goal 5) /\
   max_iterations_ (Fixture.full_goal 5) = max_iterations_ (Fixture.full_goal 5)).
Proof.
  apply (request_fails_exactly_without_a_goal Q Q
           RequestFixture.poseMsgToEigen RequestFixture.group_tool_link
           RequestFixture.new_RobotState RequestFixture.robotStateMsgToRobotState
           RequestFixture.setVariablePosition RequestFixture.update
           RequestFixture.enforceBounds RequestFixture.getGlobalLinkTransform
           4 [mkConstraints [] [] []] (Fixture.full_goal 5) (Fixture.full_goal 5)
           false INVALID_GOAL_CONSTRAINTS "tool"%string 4).
  reflexivity.
Defined.

Lemma half_a_cartesian_goal_falls_back_to_the_joints_witness :
  RequestFixture.setMotionPlanRequest 0
    [mkConstraints [mkPositionConstraint [mkPose (mkPoint 7 0 0)
                                            RequestFixture.unit_quaternion]]
       [] [mkJointConstraint "slide" 3]]
    (Fixture.full_goal 5)
  = RequestReturned true SUCCESS
      (set_tool_goal_pose (Fixture.full_goal 5) (Fixture.pose_at 3)) "tool"%string 3.
Proof.
  apply (half_a_cartesian_goal_falls_back_to_the_joints Q Q
           RequestFixture.poseMsgToEigen RequestFixture.group_tool_link
           RequestFixture.new_RobotState RequestFixture.robotStateMsgToRobotState
           RequestFixture.setVariablePosition RequestFixture.update
           RequestFixture.enforceBounds RequestFixture.getGlobalLinkTransform 0
           (Fixture.full_goal 5)
           (mkConstraints [mkPositionConstraint [mkPose (mkPoint 7 0 0)
                                                   RequestFixture.unit_quaternion]]
              [] [mkJointConstraint "slide" 3])
           []).
  - right. reflexivity.
  - discriminate.
Defined.

Lemma region_without_primitive_pose_is_read_out_of_range_witness :
  RequestFixture.setMotionPlanRequest 0
    [mkConstraints [mkPositionConstraint []]
       [mkOrientationConstraint RequestFixture.unit_quaternion]
       [mkJointConstraint "slide" 3]]
    (Fixture.full_goal 5)
  = RequestOutOfRange.
Proof.
  apply (region_without_primitive_pose_is_read_out_of_range Q Q
           RequestFixture.poseMsgToEigen RequestFixture.group_tool_link
           RequestFixture.new_RobotState RequestFixture.robotStateMsgToRobotState
           RequestFixture.setVariablePosition RequestFixture.update
           RequestFixture.enforceBounds RequestFixture.getGlobalLinkTransform 0
           (Fixture.full_goal 5)
           (mkConstraints [mkPositionConstraint []]
              [mkOrientationConstraint RequestFixture.unit_quaternion]
              [mkJointConstraint "slide" 3])
           [] []).
  - reflexivity.
  - discriminate.
Defined.

(* ================================================================= *)
(** ** [configure], beyond the claims *)

Lemma struct_member_missing (key : string) :
  forall m : list (string * XmlRpcValue),
    (forall v, ~ In (key, v) m) -> struct_member key m = TypeInvalid.
Proof.
  induction m as [|[k v] m IH]; intro H; cbn [struct_member]; [reflexivity|].
  destruct (String.eqb key k) eqn:E.
  - apply String.eqb_eq in E. subst k. exfalso. apply (H v). now left.
  - apply IH. intros w Hw. apply (H w). now right.
Qed.

(** A copy loop that meets a value of another type inside the bounds of
    the target ends with the exception. *)
Lemma copy_loop_throws {A : Type} (cast : XmlRpcValue -> option A) :
  forall (param : list XmlRpcValue) (i : nat) (arr : list A),
    Exists (fun v => cast v = None) param ->
    (i + length param <= length arr)%nat ->
    exists a, copy_loop cast param i arr = Thrown a /\ length a = length arr.
Proof.
  induction param as [|v rest IH]; intros i arr Hex Hlen; [inversion Hex|].
  cbn [copy_loop]. simpl in Hlen.
  destruct (cast v) as [x|] eqn:Ev.
  - assert (Nat.ltb i (length arr) = true) as E by (apply Nat.ltb_lt; lia).
    rewrite E.
    inversion Hex as [? ? Hv|? ? Hrest]; subst; [congruence|].
    destruct (IH (S i) (coeff_set i x arr) Hrest) as (a & Ha & Hl).
    { rewrite coeff_set_length. lia. }
    exists a. rewrite coeff_set_length in Hl. auto.
  - exists arr. auto.
Qed.

Section ConfigureFurther.

Variable indeterminate_int : Z.
Variable indeterminate_double : Q.

(** [configure] on a struct whose three arrays hold values of the
    expected types and sizes and whose budget converts to [n]. *)
Lemma configure_accepts_struct (m : list (string * XmlRpcValue))
    (dofs : list Z) (thresholds rates : list Q) (n : Z) (self : UnderconstrainedGoal) :
  struct_member "constrained_dofs" m = TypeArray (map TypeInt dofs) ->
  struct_member "cartesian_convergence" m = TypeArray (map TypeDouble thresholds) ->
  struct_member "joint_update_rates" m = TypeArray (map TypeDouble rates) ->
  cast_int (struct_member "max_ik_iterations" m) = Some n ->
  length dofs = DOF_SIZE ->
  length thresholds = DOF_SIZE ->
  rates <> [] ->
  configure indeterminate_int indeterminate_double (TypeStruct m) self
  = Normal (true, mkGoal dofs rates thresholds n (tool_goal_pose_ self)).
Proof.
  intros Hd Ht Hr Hn Ld Lt Lr.
  unfold configure. cbn [assertStruct]. rewrite Hd, Ht, Hr, Hn.
  unfold invalid_array_parameters, array_size. cbn [is_TypeArray array_elements negb orb].
  rewrite !length_map, Ld, Lt.
  assert (Nat.eqb (length rates) 0 = false) as E
    by (apply Nat.eqb_neq; destruct rates; simpl; congruence).
  rewrite E. cbn [Nat.ltb Nat.leb DOF_SIZE orb].
  rewrite (copy_loop_fills_all cast_int TypeInt) by
    (try reflexivity; now rewrite resize_length).
  set (self1 := set_dof_nullity self dofs).
  rewrite (copy_loop_fills_all cast_double TypeDouble) by
    (try reflexivity; now rewrite resize_length).
  set (self2 := set_thresholds self1 thresholds).
  rewrite (copy_loop_fills_all cast_double TypeDouble) by
    (try reflexivity; now rewrite resize_length).
  reflexivity.
Qed.

(** X4: whenever [configure] returns true, its argument
    is a struct (or the invalid value) in which [constrained_dofs] and
    [cartesian_convergence] are arrays of exactly 6 entries and
    [joint_update_rates] is an array with at least one entry; the object
    then has a mask and thresholds of 6 entries, as many update rates as
    the argument gave, and the goal pose it had. *)
Theorem configure_true_means_arrays_of_six
    (config : XmlRpcValue) (self self' : UnderconstrainedGoal) :
  configure indeterminate_int indeterminate_double config self = Normal (true, self') ->
  exists m : list (string * XmlRpcValue),
    assertStruct config = Some m /\
    (exists dofs, struct_member "constrained_dofs" m = TypeArray dofs /\
                  length dofs = 6%nat /\ length (dof_nullity_ self') = 6%nat) /\
    (exists ths, struct_member "cartesian_convergence" m = TypeArray ths /\
                 length ths = 6%nat /\
                 length (cartesian_convergence_thresholds_ self') = 6%nat) /\
    (exists rs, struct_member "joint_update_rates" m = TypeArray rs /\
                rs <> [] /\ length (joint_update_rates_ self') = length rs) /\
    tool_goal_pose_ self' = tool_goal_pose_ self.
Proof.
  unfold configure.
  destruct (assertStruct config) as [m|]; [|discriminate].
  destruct (invalid_array_parameters _ _ _) eqn:Hinv; [discriminate|].
  unfold invalid_array_parameters in Hinv.
  repeat (apply orb_false_iff in Hinv; destruct Hinv as [Hinv ?]).
  repeat match goal with
         | H : Nat.ltb _ _ = false |- _ => apply Nat.ltb_ge in H
         | H : Nat.eqb _ _ = false |- _ => apply Nat.eqb_neq in H
         | H : negb _ = false |- _ => apply negb_false_iff in H
         end.
  destruct (struct_member "constrained_dofs" m) as [| | | | | | |dofs|] eqn:Sd;
    try discriminate.
  destruct (struct_member "cartesian_convergence" m) as [| | | | | | |ths|] eqn:St;
    try discriminate.
  destruct (struct_member "joint_update_rates" m) as [| | | | | | |rs|] eqn:Sr;
    try discriminate.
  unfold array_size in *. cbn [array_elements] in *.
  destruct (copy_loop cast_int _ _ _) as [a1| |] eqn:E1; try discriminate.
  destruct (copy_loop cast_double ths _ _) as [a2| |] eqn:E2; try discriminate.
  destruct (copy_loop cast_double rs _ _) as [a3| |] eqn:E3; try discriminate.
  destruct (cast_int _) as [n|]; [|discriminate].
  intro Heq; injection Heq as <-.
  apply copy_loop_copied in E1. apply copy_loop_copied in E2. apply copy_loop_copied in E3.
  rewrite !resize_length in E1. rewrite !resize_length in E2. rewrite !resize_length in E3.
  destruct E1 as [L1 B1], E2 as [L2 B2], E3 as [L3 _].
  unfold DOF_SIZE in *.
  assert (dofs <> []) as N1 by (intro C; subst; simpl in *; lia).
  assert (ths <> []) as N2 by (intro C; subst; simpl in *; lia).
  specialize (B1 N1). specialize (B2 N2). simpl in B1, B2.
  exists m. split; [reflexivity|]. cbn.
  split; [exists dofs; repeat split; try assumption; lia|].
  split; [exists ths; repeat split; try assumption; lia|].
  split; [|reflexivity].
  exists rs. repeat split; auto. intro C; subst; simpl in *; lia.
Qed.

(** X5: a struct with six integers, six doubles, a
    non-empty array of doubles and an integer budget is stored as it is:
    the object afterwards holds exactly these values, whatever it held
    before and whatever fresh storage contains; a second call with the
    same struct changes nothing. *)
Theorem configure_stores_what_it_is_given
    (dofs : list Z) (thresholds rates : list Q) (n : Z) (self : UnderconstrainedGoal) :
  length dofs = DOF_SIZE ->
  length thresholds = DOF_SIZE ->
  rates <> [] ->
  let config := Fixture.make_config dofs thresholds rates (TypeInt n) in
  exists self' : UnderconstrainedGoal,
    configure indeterminate_int indeterminate_double config self = Normal (true, self') /\
    dof_nullity_ self' = dofs /\
    cartesian_convergence_thresholds_ self' = thresholds /\
    joint_update_rates_ self' = rates /\
    max_iterations_ self' = n /\
    tool_goal_pose_ self' = tool_goal_pose_ self /\
    configure indeterminate_int indeterminate_double config self' = Normal (true, self').
Proof.
  intros Ld Lt Lr config.
  exists (mkGoal dofs rates thresholds n (tool_goal_pose_ self)).
  split; [|repeat split].
  - unfold config, Fixture.make_config. now apply configure_accepts_struct.
  - unfold config, Fixture.make_config.
    now apply (configure_accepts_struct _ dofs thresholds rates n
                 (mkGoal dofs rates thresholds n (tool_goal_pose_ self))).
Qed.

(** X6: a struct in which one of the three array
    keys is missing, or holds no array, or in which [constrained_dofs] or
    [cartesian_convergence] has fewer than 6 entries, or
    [joint_update_rates] has none, makes [configure] return false and
    leave the object untouched; so does an argument that is neither a
    struct nor invalid. *)
Theorem configure_rejects_missing_and_short_arrays
    (config : XmlRpcValue) (self : UnderconstrainedGoal) :
  (assertStruct config = None \/
   exists m, assertStruct config = Some m /\
     ((exists key, In key ["constrained_dofs"; "cartesian_convergence";
                           "joint_update_rates"]%string /\
                   ((forall v, ~ In (key, v) m) \/ is_TypeArray (struct_member key m) = false))
      \/ (array_size (struct_member "constrained_dofs" m) < 6)%nat
      \/ (array_size (struct_member "cartesian_convergence" m) < 6)%nat
      \/ array_size (struct_member "joint_update_rates" m) = 0%nat)) ->
  configure indeterminate_int indeterminate_double config self = Normal (false, self).
Proof.
  intros [Hns|(m & Hm & H)]; unfold configure.
  { now rewrite Hns. }
  rewrite Hm.
  assert (invalid_array_parameters (struct_member "constrained_dofs" m)
            (struct_member "cartesian_convergence" m)
            (struct_member "joint_update_rates" m) = true) as E.
  { unfold invalid_array_parameters, DOF_SIZE.
    destruct H as [(key & Hkey & Hk)|[H|[H|H]]].
    - assert (is_TypeArray (struct_member key m) = false) as Hna.
      { destruct Hk as [Hk|Hk]; [|exact Hk].
        now rewrite (struct_member_missing key m Hk). }
      simpl in Hkey.
      destruct Hkey as [<-|[<-|[<-|[]]]]; rewrite Hna; cbn [negb orb];
        rewrite ?orb_true_r; reflexivity.
    - apply Nat.ltb_lt in H. rewrite H. now rewrite orb_true_r.
    - apply Nat.ltb_lt in H. rewrite H. now rewrite !orb_true_r.
    - rewrite H. now rewrite !orb_true_r. }
  now rewrite E.
Qed.

(** X7: when the six entries of
    [cartesian_convergence] hold a value that is no double (an integer,
    say), [configure] returns false after it has replaced the constraint
    mask: the new mask stays, while the update rates, the budget and the
    goal pose are the old ones. *)
Theorem configure_wrong_type_in_thresholds_keeps_the_new_mask
    (m : list (string * XmlRpcValue)) (dofs : list Z) (ths rs : list XmlRpcValue)
    (self : UnderconstrainedGoal) :
  struct_member "constrained_dofs" m = TypeArray (map TypeInt dofs) ->
  struct_member "cartesian_convergence" m = TypeArray ths ->
  struct_member "joint_update_rates" m = TypeArray rs ->
  length dofs = 6%nat ->
  length ths = 6%nat ->
  rs <> [] ->
  Exists (fun v => cast_double v = None) ths ->
  exists self' : UnderconstrainedGoal,
    configure indeterminate_int indeterminate_double (TypeStruct m) self
      = Normal (false, self') /\
    dof_nullity_ self' = dofs /\
    length (cartesian_convergence_thresholds_ self') = 6%nat /\
    joint_update_rates_ self' = joint_update_rates_ self /\
    max_iterations_ self' = max_iterations_ self /\
    tool_goal_pose_ self' = tool_goal_pose_ self.
Proof.
  intros Hd Ht Hr Ld Lt Lr Hex.
  unfold configure. cbn [assertStruct]. rewrite Hd, Ht, Hr.
  unfold invalid_array_parameters, array_size. cbn [is_TypeArray array_elements negb orb].
  rewrite !length_map, Ld, Lt.
  assert (Nat.eqb (length rs) 0 = false) as E
    by (apply Nat.eqb_neq; destruct rs; simpl; congruence).
  rewrite E. cbn [Nat.ltb Nat.leb DOF_SIZE orb].
  rewrite (copy_loop_fills_all cast_int TypeInt) by
    (try reflexivity; now rewrite resize_length).
  destruct (copy_loop_throws cast_double ths 0
              (resize indeterminate_double DOF_SIZE
                 (cartesian_convergence_thresholds_ (set_dof_nullity self dofs))) Hex)
    as (a & Ha & La).
  { rewrite resize_length. unfold DOF_SIZE. simpl. lia. }
  rewrite Ha. rewrite resize_length in La.
  eexists. split; [reflexivity|]. cbn. repeat split. exact La.
Qed.

End ConfigureFurther.

Lemma configure_true_means_arrays_of_six_witness :
  exists m : list (string * XmlRpcValue),
    assertStruct (Fixture.make_config [1; 1; 1; 0; 0; 0]%Z Fixture.tight [1 # 2; 1 # 3]
                    (TypeInt 9)) = Some m /\
    (exists dofs, struct_member "constrained_dofs" m = TypeArray dofs /\
                  length dofs = 6%nat /\ length [1; 1; 1; 0; 0; 0]%Z = 6%nat) /\
    (exists ths, struct_member "cartesian_convergence" m = TypeArray ths /\
                 length ths = 6%nat /\ length Fixture.tight = 6%nat) /\
    (exists rs, struct_member "joint_update_rates" m = TypeArray rs /\
                rs <> [] /\ length [1 # 2; 1 # 3] = length rs) /\
    Fixture.pose_at 1 = Fixture.pose_at 1.
Proof.
  apply (configure_true_means_arrays_of_six 0%Z 0
           (Fixture.make_config [1; 1; 1; 0; 0; 0]%Z Fixture.tight [1 # 2; 1 # 3]
              (TypeInt 9))
           (Fixture.full_goal 5)
           (mkGoal [1; 1; 1; 0; 0; 0]%Z [1 # 2; 1 # 3] Fixture.tight 9 (Fixture.pose_at 1))).
  reflexivity.
Defined.

Lemma configure_stores_what_it_is_given_witness :
  let config :=
    Fixture.make_config [0; 0; 1; 0; 0; 1]%Z Fixture.tight [1 # 2; 1 # 3] (TypeInt (-4)) in
  exists self' : UnderconstrainedGoal,
    configure 7%Z (5 # 1) config (Fixture.full_goal 5) = Normal (true, self') /\
    dof_nullity_ self' = [0; 0; 1; 0; 0; 1]%Z /\
    cartesian_convergence_thresholds_ self' = Fixture.tight /\
    joint_update_rates_ self' = [1 # 2; 1 # 3] /\
    max_iterations_ self' = (-4)%Z /\
    tool_goal_pose_ self' = tool_goal_pose_ (Fixture.full_goal 5) /\
    configure 7%Z (5 # 1) config self' = Normal (true, self').
Proof.
  apply (configure_stores_what_it_is_given 7%Z (5 # 1)
           [0; 0; 1; 0; 0; 1]%Z Fixture.tight [1 # 2; 1 # 3] (-4)%Z (Fixture.full_goal 5)).
  - reflexivity.
  - reflexivity.
  - discriminate.
Defined.

Lemma configure_rejects_missing_and_short_arrays_witness :
  configure 0%Z 0
    (TypeStruct [("constrained_dofs"%string, TypeArray (map TypeInt [1; 1; 1; 1; 1; 1]%Z));
                 ("cartesian_convergence"%string, TypeArray (map TypeDouble Fixture.tight));
                 ("max_ik_iterations"%string, TypeInt 10)])
    (Fixture.full_goal 5)
  = Normal (false, Fixture.full_goal 5).
Proof.
  apply (configure_rejects_missing_and_short_arrays 0%Z 0).
  right. eexists. split; [reflexivity|].
  left. exists "joint_update_rates"%string. split.
  - simpl. auto.
  - left. intros v [H|[H|[H|[]]]]; discriminate.
Defined.

Lemma configure_wrong_type_in_thresholds_keeps_the_new_mask_witness :
  exists self' : UnderconstrainedGoal,
    configure 0%Z 0
      (TypeStruct
         [("constrained_dofs"%string, TypeArray (map TypeInt [1; 1; 1; 0; 0; 0]%Z));
          ("cartesian_convergence"%string,
           TypeArray [TypeDouble (1 # 100); TypeDouble (1 # 100); TypeInt 1;
                      TypeDouble (1 # 100); TypeDouble (1 # 100); TypeDouble (1 # 100)]);
          ("joint_update_rates"%string, TypeArray [TypeDouble (1 # 2)]);
          ("max_ik_iterations"%string, TypeInt 10)])
      (Fixture.full_goal 5)
      = Normal (false, self') /\
    dof_nullity_ self' = [1; 1; 1; 0; 0; 0]%Z /\
    length (cartesian_convergence_thresholds_ self') = 6%nat /\
    joint_update_rates_ self' = joint_update_rates_ (Fixture.full_goal 5) /\
    max_iterations_ self' = max_iterations_ (Fixture.full_goal 5) /\
    tool_goal_pose_ self' = tool_goal_pose_ (Fixture.full_goal 5).
Proof.
  apply (configure_wrong_type_in_thresholds_keeps_the_new_mask 0%Z 0 _
           [1; 1; 1; 0; 0; 0]%Z
           [TypeDouble (1 # 100); TypeDouble (1 # 100); TypeInt 1;
            TypeDouble (1 # 100); TypeDouble (1 # 100); TypeDouble (1 # 100)]
           [TypeDouble (1 # 2)]).
  - reflexivity.
  - reflexivity.
  - reflexivity.
  - reflexivity.
  - reflexivity.
  - discriminate.
  - right. right. left. reflexivity.
Defined.

(* ================================================================= *)
(** ** The constrained indices and [reduceJacobian] *)

Lemma constrained_indices_In :
  forall (mask : ArrayXi) (i k : nat),
    In k (constrained_indices i mask) <->
    (i <= k)%nat /\ (k - i < length mask)%nat /\ nth (k - i) mask 0%Z <> 0%Z.
Proof.
  induction mask as [|n rest IH]; intros i k; cbn [constrained_indices].
  - simpl. split; [tauto|]. intros (_ & H & _). lia.
  - assert (forall P : Prop,
               (In k (constrained_indices (S i) rest) \/ P) <->
               ((S i <= k)%nat /\ (k - S i < length rest)%nat /\
                nth (k - S i) rest 0%Z <> 0%Z) \/ P) as Hrec
      by (intro P; rewrite IH; tauto).
    destruct (n =? 0)%Z eqn:En.
    + apply Z.eqb_eq in En. subst n. rewrite IH. simpl length.
      split.
      * intros (H1 & H2 & H3). repeat split; try lia.
        replace (k - i)%nat with (S (k - S i)) by lia. exact H3.
      * intros (H1 & H2 & H3).
        destruct (Nat.eq_dec k i) as [->|Hne].
        { rewrite Nat.sub_diag in H3. simpl in H3. congruence. }
        replace (k - i)%nat with (S (k - S i)) in H3 by lia.
        repeat split; try lia. exact H3.
    + apply Z.eqb_neq in En. simpl In. simpl length.
      rewrite or_comm, Hrec.
      split.
      * intros [(H1 & H2 & H3)| <-].
        { repeat split; try lia.
          replace (k - i)%nat with (S (k - S i)) by lia. exact H3. }
        { rewrite Nat.sub_diag. simpl. repeat split; auto; lia. }
      * intros (H1 & H2 & H3).
        destruct (Nat.eq_dec k i) as [->|Hne]; [now right|left].
        replace (k - i)%nat with (S (k - S i)) in H3 by lia.
        repeat split; try lia. exact H3.
Qed.

Lemma constrained_indices_sorted :
  forall (mask : ArrayXi) (i : nat), StronglySorted lt (constrained_indices i mask).
Proof.
  induction mask as [|n rest IH]; intro i; cbn [constrained_indices]; [constructor|].
  destruct (n =? 0)%Z; [apply IH|].
  constructor; [apply IH|].
  apply Forall_forall. intros k Hk. apply constrained_indices_In in Hk. lia.
Qed.

Lemma constrained_indices_length :
  forall (mask : ArrayXi) (i : nat),
    length (constrained_indices i mask)
    = length (List.filter (fun n => negb (n =? 0)%Z) mask).
Proof.
  induction mask as [|n rest IH]; intro i; cbn [constrained_indices List.filter];
    [reflexivity|].
  destruct (n =? 0)%Z; cbn [negb]; simpl; now rewrite IH.
Qed.

(** X9: the indices that [runIK] collects are the positions at
    which the mask is not 0, each once and in increasing order; there
    are as many as the mask has entries other than 0. *)
Theorem constrained_indices_are_the_nonzero_axes (mask : ArrayXi) :
  let indices := constrained_indices 0 mask in
  (forall k : nat,
      In k indices <-> (k < length mask)%nat /\ nth k mask 0%Z <> 0%Z) /\
  StronglySorted lt indices /\
  NoDup indices /\
  length indices = length (List.filter (fun n => negb (n =? 0)%Z) mask).
Proof.
  intro indices. unfold indices.
  split; [|split; [|split]].
  - intro k. rewrite constrained_indices_In, Nat.sub_0_r.
    split; [tauto|]. intros [H1 H2]. repeat split; auto; lia.
  - apply constrained_indices_sorted.
  - pose proof (constrained_indices_sorted mask 0) as Hs.
    induction Hs as [|a l Hs IH Ha]; constructor; auto.
    intro Hin. rewrite Forall_forall in Ha. specialize (Ha _ Hin). lia.
  - apply constrained_indices_length.
Qed.

(** X10: on the indices of a mask, [reduceJacobian] returns
    exactly when the Jacobian has a row for every constrained axis (an
    axis without a row trips the assertion of [row]); the result keeps
    the columns, has one row per constrained axis, row [i] being the row
    of the [i]-th constrained axis, and the row of every constrained axis
    is among them. *)
Theorem reduced_jacobian_has_the_constrained_rows (jacb : MatrixXd) (mask : ArrayXi) :
  let indices := constrained_indices 0 mask in
  ((forall k : nat, (k < length mask)%nat -> nth k mask 0%Z <> 0%Z -> (k < rows jacb)%nat) ->
   exists reduced : MatrixXd,
     reduceJacobian jacb indices = Normal reduced /\
     cols reduced = cols jacb /\
     rows reduced = length (List.filter (fun n => negb (n =? 0)%Z) mask) /\
     (forall i j : nat, coeff reduced i j = coeff jacb (nth i indices 0%nat) j) /\
     (forall k : nat, (k < length mask)%nat -> nth k mask 0%Z <> 0%Z ->
        exists i : nat, (i < rows reduced)%nat /\
                        forall j : nat, coeff reduced i j = coeff jacb k j)) /\
  ((exists k : nat, (k < length mask)%nat /\ nth k mask 0%Z <> 0%Z /\ (rows jacb <= k)%nat) ->
   reduceJacobian jacb indices = EigenAssert).
Proof.
  intro indices.
  destruct (constrained_indices_are_the_nonzero_axes mask) as (Hin & _ & _ & Hlen).
  fold indices in Hin, Hlen.
  split.
  - intros Hrows. unfold reduceJacobian.
    assert (forallb (fun k => Nat.ltb k (rows jacb)) indices = true) as E.
    { apply forallb_forall. intros k Hk. apply Nat.ltb_lt.
      apply Hin in Hk. destruct Hk. now apply Hrows. }
    rewrite E. cbn [eigen_assert bind].
    eexists. split; [reflexivity|]. cbn.
    repeat split; auto.
    intros k Hk Hnz.
    assert (In k indices) as Hk' by (apply Hin; auto).
    apply (In_nth _ _ 0%nat) in Hk'. destruct Hk' as (i & Hi & Hnth).
    exists i. split; [exact Hi|]. intro j. now rewrite Hnth.
  - intros (k & Hk & Hnz & Hrow). unfold reduceJacobian.
    assert (forallb (fun k => Nat.ltb k (rows jacb)) indices = false) as E.
    { destruct (forallb _ indices) eqn:F; [|reflexivity].
      rewrite forallb_forall in F.
      assert (In k indices) as Hk' by (apply Hin; auto).
      specialize (F k Hk'). apply Nat.ltb_lt in F. lia. }
    now rewrite E.
Qed.

Lemma reduced_jacobian_has_the_constrained_rows_witness :
  let mask := [1; 0; 0; 0; 0; 1]%Z in
  let indices := constrained_indices 0 mask in
  ((forall k : nat, (k < length mask)%nat -> nth k mask 0%Z <> 0%Z ->
                    (k < rows Fixture.jacobian)%nat) ->
   exists reduced : MatrixXd,
     reduceJacobian Fixture.jacobian indices = Normal reduced /\
     cols reduced = cols Fixture.jacobian /\
     rows reduced = length (List.filter (fun n => negb (n =? 0)%Z) mask) /\
     (forall i j : nat, coeff reduced i j = coeff Fixture.jacobian (nth i indices 0%nat) j) /\
     (forall k : nat, (k < length mask)%nat -> nth k mask 0%Z <> 0%Z ->
        exists i : nat, (i < rows reduced)%nat /\
                        forall j : nat, coeff reduced i j = coeff Fixture.jacobian k j)) /\
  ((exists k : nat, (k < length mask)%nat /\ nth k mask 0%Z <> 0%Z /\
                    (rows Fixture.jacobian <= k)%nat) ->
   reduceJacobian Fixture.jacobian indices = EigenAssert).
Proof.
  exact (reduced_jacobian_has_the_constrained_rows Fixture.jacobian [1; 0; 0; 0; 0; 1]%Z).
Defined.

(* ================================================================= *)
(** ** The inverse of a singular value *)

(** The damped form is bounded by [1 / (2 lambda)]. *)
Lemma square_nonneg (x : Q) : 0 <= x * x.
Proof.
  destruct (Qlt_le_dec x 0) as [H|H].
  - setoid_replace (x * x) with ((- x) * (- x)) by ring.
    apply Qmult_le_0_compat; lra.
  - apply Qmult_le_0_compat; lra.
Qed.

Lemma damped_form_bounded (lambda s : Q) :
  0 < lambda -> Qabs (s / (s * s + lambda * lambda)) <= 1 / (2 * lambda).
Proof.
  intro Hl.
  pose proof (square_nonneg s) as Hs.
  pose proof (square_nonneg (s + lambda)) as Hp.
  pose proof (square_nonneg (s - lambda)) as Hm.
  assert (0 < lambda * lambda) as Hl2 by (apply Qmult_lt_0_compat; lra).
  assert (0 < s * s + lambda * lambda) as Hd by lra.
  assert ((s + lambda) * (s + lambda) == s * s + 2 * (s * lambda) + lambda * lambda) as Ep
    by ring.
  assert ((s - lambda) * (s - lambda) == s * s - 2 * (s * lambda) + lambda * lambda) as Em
    by ring.
  rewrite Ep in Hp. rewrite Em in Hm.
  apply Qabs_Qle_condition. split.
  - apply Qle_shift_div_l; [exact Hd|].
    assert (- (1 / (2 * lambda)) * (s * s + lambda * lambda)
            == - ((s * s + lambda * lambda) / (2 * lambda))) as E by (field; lra).
    rewrite E.
    assert (- s <= (s * s + lambda * lambda) / (2 * lambda)) as H.
    { apply Qle_shift_div_l; [lra|].
      setoid_replace (- s * (2 * lambda)) with (- (2 * (s * lambda))) by ring. lra. }
    lra.
  - apply Qle_shift_div_r; [exact Hd|].
    assert (1 / (2 * lambda) * (s * s + lambda * lambda)
            == (s * s + lambda * lambda) / (2 * lambda)) as E by (field; lra).
    rewrite E.
    apply Qle_shift_div_l; [lra|].
    setoid_replace (s * (2 * lambda)) with (2 * (s * lambda)) by ring. lra.
Qed.

(** The plain inverse of a value beyond [eps] is below [1 / eps]. *)
Lemma plain_inverse_bounded (eps s : Q) :
  0 < eps -> eps < Qabs s -> Qabs (1 / s) <= 1 / eps.
Proof.
  intros He Hs.
  assert (0 < Qabs s) as Hpos by lra.
  assert (Qabs (1 / s) == 1 / Qabs s) as E.
  { unfold Qdiv. rewrite Qabs_Qmult, Qabs_Qinv. reflexivity. }
  rewrite E.
  apply Qle_shift_div_r; [exact Hpos|].
  assert (1 / eps * Qabs s == Qabs s / eps) as E2 by (field; lra).
  rewrite E2. apply Qle_shift_div_l; lra.
Qed.

(** X12: with a positive [eps] and a positive [lambda], every
    entry that the loop of [calculateDampedPseudoInverse] writes for a
    singular value is at most [1 / eps] in magnitude when the value is
    beyond [eps], and at most [1 / (2 lambda)] otherwise, however small
    the singular value is. *)
Theorem inverted_singular_values_are_bounded (eps lambda : Q) (Sv : VectorXd) (i : nat) :
  0 < eps -> 0 < lambda -> (i < length Sv)%nat ->
  let nSv := length Sv in
  let inv_Sv := for_loop 0 nSv (damp_singular_value eps lambda Sv) (repeat 0 nSv) in
  (eps < Qabs (nth i Sv 0) -> Qabs (nth i inv_Sv 0) <= 1 / eps) /\
  (Qabs (nth i Sv 0) <= eps -> Qabs (nth i inv_Sv 0) <= 1 / (2 * lambda)).
Proof.
  intros He Hl Hi nSv inv_Sv. unfold inv_Sv, nSv.
  rewrite damp_loop_map.
  rewrite (nth_indep (map (spec_inverse_contribution eps lambda) Sv) 0
             (spec_inverse_contribution eps lambda 0))
    by (rewrite length_map; lia).
  rewrite map_nth. unfold spec_inverse_contribution.
  split; intro H.
  - apply Qltb_lt in H as E. rewrite E. now apply plain_inverse_bounded.
  - apply Qltb_ge in H as E. rewrite E. now apply damped_form_bounded.
Qed.

(** X13: with [eps >= 0] and [lambda <> 0], the entry written
    for a singular value [s] times [s] lies in [0, 1]: it is 1 for
    a value beyond [eps] (the exact inverse) and below 1 for a damped
    one, so a damped direction is never corrected by more than the
    error. *)
Theorem inverted_singular_value_never_overshoots
    (eps lambda : Q) (Sv : VectorXd) (i : nat) :
  0 <= eps -> ~ lambda == 0 -> (i < length Sv)%nat ->
  let nSv := length Sv in
  let inv_Sv := for_loop 0 nSv (damp_singular_value eps lambda Sv) (repeat 0 nSv) in
  let gain := nth i Sv 0 * nth i inv_Sv 0 in
  0 <= gain /\ gain <= 1 /\
  (eps < Qabs (nth i Sv 0) -> gain == 1) /\
  (Qabs (nth i Sv 0) <= eps -> gain < 1).
Proof.
  intros He Hl Hi nSv inv_Sv gain. unfold gain, inv_Sv, nSv.
  rewrite damp_loop_map.
  rewrite (nth_indep (map (spec_inverse_contribution eps lambda) Sv) 0
             (spec_inverse_contribution eps lambda 0))
    by (rewrite length_map; lia).
  rewrite map_nth. unfold spec_inverse_contribution.
  set (s := nth i Sv 0).
  pose proof (square_nonneg lambda) as Hl2'.
  assert (0 < lambda * lambda) as Hl2.
  { apply Qle_lteq in Hl2'. destruct Hl2' as [H|H]; [exact H|].
    exfalso. symmetry in H. apply Qmult_integral in H. tauto. }
  pose proof (square_nonneg s) as Hs2.
  destruct (Qltb eps (Qabs s)) eqn:E.
  - apply Qltb_lt in E.
    assert (~ s == 0) as Hs.
    { intro C. rewrite C in E. simpl in E. lra. }
    assert (s * (1 / s) == 1) as G by (field; exact Hs).
    rewrite G. repeat split; intros; lra.
  - apply Qltb_ge in E.
    assert (s * (s / (s * s + lambda * lambda)) == (s * s) / (s * s + lambda * lambda)) as G
      by (field; lra).
    rewrite G.
    assert (0 <= (s * s) / (s * s + lambda * lambda)) as G0
      by (apply Qle_shift_div_l; lra).
    assert ((s * s) / (s * s + lambda * lambda) < 1) as G1
      by (apply Qlt_shift_div_r; lra).
    repeat split; intros; lra.
Qed.

Lemma inverted_singular_values_are_bounded_witness :
  let Sv := [3; 1 # 1000; 0] in
  let inv_Sv := for_loop 0 3 (damp_singular_value EPSILON LAMBDA Sv) (repeat 0 3) in
  (EPSILON < Qabs (nth 1 Sv 0) -> Qabs (nth 1 inv_Sv 0) <= 1 / EPSILON) /\
  (Qabs (nth 1 Sv 0) <= EPSILON -> Qabs (nth 1 inv_Sv 0) <= 1 / (2 * LAMBDA)).
Proof.
  apply (inverted_singular_values_are_bounded EPSILON LAMBDA [3; 1 # 1000; 0] 1).
  - reflexivity.
  - reflexivity.
  - simpl. lia.
Defined.

Lemma inverted_singular_value_never_overshoots_witness :
  let Sv := [3; 1 # 1000; 0] in
  let inv_Sv := for_loop 0 3 (damp_singular_value EPSILON LAMBDA Sv) (repeat 0 3) in
  let gain := nth 1 Sv 0 * nth 1 inv_Sv 0 in
  0 <= gain /\ gain <= 1 /\
  (EPSILON < Qabs (nth 1 Sv 0) -> gain == 1) /\
  (Qabs (nth 1 Sv 0) <= EPSILON -> gain < 1).
Proof.
  apply (inverted_singular_value_never_overshoots EPSILON LAMBDA [3; 1 # 1000; 0] 1).
  - discriminate.
  - discriminate.
  - simpl. lia.
Defined.

(* ================================================================= *)
(** ** The solver, beyond the claims *)

Lemma add_scaled_length :
  forall (q r d : list Q),
    length r = length d -> length q = length d -> length (add_scaled q r d) = length q.
Proof.
  induction q as [|x q IH]; intros [|y r] [|z d] H1 H2; simpl in *; try lia.
  rewrite IH; lia.
Qed.

Lemma all_below_Forall2 :
  forall twist thresholds : list Q,
    length twist = length thresholds ->
    all_below twist thresholds = true ->
    Forall2 (fun t h => Qabs t < h) twist thresholds.
Proof.
  induction twist as [|t ts IH]; intros [|h hs] Hlen H; simpl in Hlen; try discriminate.
  - constructor.
  - cbn [all_below] in H. apply andb_true_iff in H. destruct H as [H1 H2].
    constructor; [now apply Qltb_lt|]. apply IH; auto.
Qed.

Lemma mat_vec_length (m : MatrixXd) (v out : VectorXd) :
  mat_vec m v = Normal out -> length out = rows m.
Proof.
  unfold mat_vec. intro H. bind_inversion H. injection H as <-.
  now rewrite length_map, length_seq.
Qed.

Section SolverFurther.

Variable AngleAxisd : Matrix3d -> AngleAxis.
Variable JacobiSVD : MatrixXd -> SVD.
Variable forward_kinematics : VectorXd -> Affine3d.
Variable getJacobian : VectorXd -> option MatrixXd.

(** What a pass that ends in the update has done. *)
Lemma ik_iteration_updated (self : UnderconstrainedGoal) (goal : Affine3d)
    (indices : list nat) (s s' : ik_state) :
  ik_iteration AngleAxisd JacobiSVD forward_kinematics getJacobian self goal indices s
    = Normal (StepUpdated s') ->
  tool_current_pose s' = forward_kinematics (joint_pose s') /\
  length (joint_pose s') = length (joint_pose s) /\
  length (joint_update_rates_ self) = length (joint_pose s) /\
  getJacobian (joint_pose s) <> None.
Proof.
  unfold ik_iteration. intro H.
  destruct (computeTwist _ _ _ _) as [tw| |]; cbn [bind] in H; try discriminate.
  destruct (check_convergence tw _) as [below| |]; cbn [bind] in H; try discriminate.
  destruct below; [discriminate|].
  destruct (getJacobian (joint_pose s)) as [jacb|]; [|discriminate].
  destruct (transform_bottom_rows _ _) as [j1| |]; cbn [bind] in H; try discriminate.
  destruct (reduceJacobian _ _) as [j2| |]; cbn [bind] in H; try discriminate.
  destruct (mat_vec _ _) as [d| |]; cbn [bind] in H; try discriminate.
  destruct (update_joint_pose _ _ _) as [q| |] eqn:Hu; cbn [bind] in H; try discriminate.
  injection H as <-. cbn.
  unfold update_joint_pose in Hu.
  destruct (Nat.eqb (length (joint_update_rates_ self)) (length d)) eqn:E1;
    cbn [eigen_assert bind] in Hu; try discriminate.
  destruct (Nat.eqb (length (joint_pose s)) (length d)) eqn:E2;
    cbn [eigen_assert bind] in Hu; try discriminate.
  injection Hu as <-.
  apply Nat.eqb_eq in E1. apply Nat.eqb_eq in E2.
  repeat split; try congruence.
  now apply add_scaled_length.
Qed.

(** What a pass that ends in the convergence test has found. *)
Lemma ik_iteration_converged (self : UnderconstrainedGoal) (goal : Affine3d)
    (indices : list nat) (s : ik_state) :
  ik_iteration AngleAxisd JacobiSVD forward_kinematics getJacobian self goal indices s
    = Normal StepConverged <->
  exists twist : VectorXd,
    computeTwist AngleAxisd (tool_current_pose s) goal (dof_nullity_ self) = Normal twist /\
    length twist = length (cartesian_convergence_thresholds_ self) /\
    all_below twist (cartesian_convergence_thresholds_ self) = true.
Proof.
  unfold ik_iteration, check_convergence. split.
  - intro H. bind_inversion H. rename a into twist. exists twist.
    bind_inversion H. bind_inversion Hm0.
    apply eigen_assert_normal, Nat.eqb_eq in Hm1. injection Hm0 as <-.
    destruct (all_below twist _) eqn:E; [auto|].
    destruct (getJacobian (joint_pose s)); [|discriminate].
    repeat bind_inversion H. discriminate.
  - intros (twist & Ht & Hl & Hb).
    rewrite Ht. cbn [bind]. rewrite Hl, Nat.eqb_refl. cbn [eigen_assert bind].
    now rewrite Hb.
Qed.

Lemma ik_updates_invariant (self : UnderconstrainedGoal) (goal : Affine3d)
    (indices : list nat) (n : nat) (s s' : ik_state) :
  ik_updates AngleAxisd JacobiSVD forward_kinematics getJacobian self goal indices n s s' ->
  length (joint_pose s') = length (joint_pose s) /\
  (tool_current_pose s = forward_kinematics (joint_pose s) ->
   tool_current_pose s' = forward_kinematics (joint_pose s')) /\
  (n <> 0%nat ->
   length (joint_update_rates_ self) = length (joint_pose s) /\
   getJacobian (joint_pose s) <> None).
Proof.
  induction 1 as [s|n s s1 s2 Hstep Hrest IH].
  - repeat split; auto; congruence.
  - apply ik_iteration_updated in Hstep.
    destruct Hstep as (Hp & Hl & Hr & Hj). destruct IH as (IH1 & IH2 & _).
    repeat split; auto; congruence.
Qed.

(** How the loop is left, without any assumption on the fuel. *)
Lemma ik_loop_exit (self : UnderconstrainedGoal) (goal : Affine3d) (indices : list nat) :
  forall (fuel : nat) (s : ik_state) (e : ik_exit),
    ik_loop AngleAxisd JacobiSVD forward_kinematics getJacobian fuel self goal indices s
      = Normal e ->
    (exists n : nat,
        ik_updates AngleAxisd JacobiSVD forward_kinematics getJacobian
          self goal indices n s (final e) /\
        (n = 0%nat -> final e = s)) /\
    match status e with
    | Converged =>
        (iteration_count (final e) < to_unsigned (max_iterations_ self))%Z /\
        ik_iteration AngleAxisd JacobiSVD forward_kinematics getJacobian
          self goal indices (final e) = Normal StepConverged
    | JacobianUnavailable =>
        (iteration_count (final e) < to_unsigned (max_iterations_ self))%Z /\
        ik_iteration AngleAxisd JacobiSVD forward_kinematics getJacobian
          self goal indices (final e) = Normal StepNoJacobian
    | IterationBudgetExhausted =>
        (to_unsigned (max_iterations_ self) <= iteration_count (final e))%Z
    end.
Proof.
  induction fuel as [|fuel IH]; intros s e H; [discriminate|].
  cbn [ik_loop] in H.
  destruct (iteration_count s <? to_unsigned (max_iterations_ self))%Z eqn:Hlt.
  - apply Z.ltb_lt in Hlt.
    bind_inversion H. destruct a as [| |s'].
    + injection H as <-. cbn. split; [|auto].
      exists 0%nat. split; [constructor|auto].
    + injection H as <-. cbn. split; [|auto].
      exists 0%nat. split; [constructor|auto].
    + destruct (IH s' e H) as ((n & Hn & _) & Hst). split; [|exact Hst].
      exists (S n). split; [econstructor; eassumption|discriminate].
  - apply Z.ltb_ge in Hlt. injection H as <-. cbn. split; [|exact Hlt].
    exists 0%nat. split; [constructor|auto].
Qed.

(** X14: when [runIK] returns true, the twist from the tool pose
    of the joint vector it hands back to the goal is below the threshold
    on every axis. *)
Theorem runIK_true_means_within_thresholds
    (self : UnderconstrainedGoal) (goal : Affine3d) (init joint_pose' : VectorXd) :
  runIK AngleAxisd JacobiSVD forward_kinematics getJacobian self goal init
    = Normal (true, joint_pose') ->
  exists twist : VectorXd,
    computeTwist AngleAxisd (forward_kinematics joint_pose') goal (dof_nullity_ self)
      = Normal twist /\
    Forall2 (fun t h => Qabs t < h) twist (cartesian_convergence_thresholds_ self).
Proof.
  unfold runIK. intro H. bind_inversion H. rename a into e.
  injection H as Hc <-.
  unfold converged in Hc. destruct (status e) eqn:Hs; try discriminate.
  unfold ik_run in Hm. apply ik_loop_exit in Hm.
  destruct Hm as ((n & Hn & _) & Hst). rewrite Hs in Hst. destruct Hst as [_ Hit].
  apply ik_updates_invariant in Hn. destruct Hn as (_ & Hpose & _).
  specialize (Hpose eq_refl).
  apply ik_iteration_converged in Hit. destruct Hit as (twist & Ht & Hl & Hb).
  exists twist. rewrite <- Hpose. split; [exact Ht|].
  now apply all_below_Forall2.
Qed.

(** X15: [runIK] hands back a joint vector of the size of the one
    it was given, so the write into the last column cannot fail: on a
    matrix with a column, [filter] returns whenever [runIK] does, with
    [filtered] and its return value both equal to the verdict of
    [runIK]. *)
Theorem filter_returns_whenever_runIK_does
    (self : UnderconstrainedGoal) (start_timestep num_timesteps : nat)
    (iteration_number rollout_number : Z) (parameters : MatrixXd) (filtered : bool)
    (init joint_pose' : VectorXd) (ok : bool) :
  rightCols1 parameters = Normal init ->
  runIK AngleAxisd JacobiSVD forward_kinematics getJacobian
    self (tool_goal_pose_ self) init = Normal (ok, joint_pose') ->
  length joint_pose' = length init /\
  length joint_pose' = rows parameters /\
  exists r : filter_result,
    filter AngleAxisd JacobiSVD forward_kinematics getJacobian self
      start_timestep num_timesteps iteration_number rollout_number parameters filtered
      = Normal r /\
    filter_return r = ok /\
    filter_filtered r = ok.
Proof.
  intros Hinit Hrun.
  assert (length joint_pose' = length init) as Hlen.
  { unfold runIK in Hrun. bind_inversion Hrun. injection Hrun as _ <-.
    unfold ik_run in Hm. apply ik_loop_exit in Hm.
    destruct Hm as ((n & Hn & _) & _).
    apply ik_updates_invariant in Hn. now destruct Hn as (Hl & _). }
  assert (length init = rows parameters) as Hrows.
  { unfold rightCols1 in Hinit. bind_inversion Hinit. injection Hinit as <-.
    now rewrite length_map, length_seq. }
  assert (Nat.leb 1 (cols parameters) = true) as Hcols.
  { unfold rightCols1 in Hinit. bind_inversion Hinit.
    now apply eigen_assert_normal in Hm. }
  split; [exact Hlen|]. split; [congruence|].
  unfold filter. rewrite Hinit. cbn [bind]. rewrite Hrun. cbn [bind].
  destruct ok; cbn [negb].
  - unfold set_rightCols1. rewrite Hcols.
    assert (Nat.eqb (length joint_pose') (rows parameters) = true) as E
      by (apply Nat.eqb_eq; congruence).
    rewrite E. cbn [eigen_assert bind].
    eexists. split; [reflexivity|]. auto.
  - eexists. split; [reflexivity|]. auto.
Qed.

(** X16: a matrix that [filter] has corrected is a fixed
    point: a second call finds the last waypoint converged before any
    update, returns true with [filtered = true], and leaves every
    coefficient as it is. *)
Theorem filter_is_idempotent_on_success
    (self : UnderconstrainedGoal) (start_timestep num_timesteps : nat)
    (iteration_number rollout_number : Z) (parameters : MatrixXd) (filtered : bool)
    (r : filter_result) :
  filter AngleAxisd JacobiSVD forward_kinematics getJacobian self
    start_timestep num_timesteps iteration_number rollout_number parameters filtered
    = Normal r ->
  filter_return r = true ->
  exists (joint_pose' : VectorXd) (r' : filter_result),
    rightCols1 (filter_parameters r) = Normal joint_pose' /\
    ik_run AngleAxisd JacobiSVD forward_kinematics getJacobian
      self (tool_goal_pose_ self) joint_pose'
      = Normal (mkIkExit Converged
                  (mkIkState joint_pose' (forward_kinematics joint_pose') 0)) /\
    filter AngleAxisd JacobiSVD forward_kinematics getJacobian self
      start_timestep num_timesteps iteration_number rollout_number
      (filter_parameters r) (filter_filtered r) = Normal r' /\
    filter_return r' = true /\
    filter_filtered r' = true /\
    rows (filter_parameters r') = rows (filter_parameters r) /\
    cols (filter_parameters r') = cols (filter_parameters r) /\
    forall i j : nat, (i < rows (filter_parameters r))%nat ->
      coeff (filter_parameters r') i j = coeff (filter_parameters r) i j.
Proof.
  intros Hf Hret. unfold filter in Hf.
  destruct (rightCols1 parameters) as [init| |] eqn:Hinit; cbn [bind] in Hf;
    try discriminate.
  destruct (runIK _ _ _ _ _ _ init) as [[ok q0]| |] eqn:Hik; cbn [bind] in Hf;
    try discriminate.
  destruct ok; cbn [negb] in Hf; [|injection Hf as <-; discriminate].
  destruct (set_rightCols1 parameters q0) as [p'| |] eqn:Hset; cbn [bind] in Hf;
    try discriminate.
  injection Hf as <-. cbn [filter_parameters filter_filtered].
  unfold set_rightCols1 in Hset.
  destruct (Nat.leb 1 (cols parameters)) eqn:Hcols; cbn [eigen_assert bind] in Hset;
    try discriminate.
  destruct (Nat.eqb (length q0) (rows parameters)) eqn:Hlen;
    cbn [eigen_assert bind] in Hset; try discriminate.
  injection Hset as <-. apply Nat.eqb_eq in Hlen.
  (* the first run ended in the convergence test at [q0] *)
  unfold runIK in Hik.
  destruct (ik_run _ _ _ _ _ _ init) as [e| |] eqn:Hm; cbn [bind] in Hik;
    try discriminate.
  injection Hik as Hc <-.
  unfold converged in Hc. destruct (status e) eqn:Hs; try discriminate.
  unfold ik_run in Hm. pose proof Hm as Hloop. apply ik_loop_exit in Hm.
  destruct Hm as ((n & Hn & _) & Hst). rewrite Hs in Hst. destruct Hst as [Hbudget Hit].
  destruct (ik_loop_bounded AngleAxisd JacobiSVD forward_kinematics getJacobian
              self (tool_goal_pose_ self) (constrained_indices 0 (dof_nullity_ self))
              (S (Z.to_nat (to_unsigned (max_iterations_ self))))
              (mkIkState init (forward_kinematics init) 0)) as [_ Hb].
  { pose proof (to_unsigned_range (max_iterations_ self)). cbn. lia. }
  { pose proof (to_unsigned_range (max_iterations_ self)). cbn.
    rewrite Z.sub_0_r. lia. }
  destruct (Hb e Hloop) as (n' & _ & Hcount & _). cbn in Hcount.
  apply ik_updates_invariant in Hn. destruct Hn as (_ & Hpose & _).
  specialize (Hpose eq_refl).
  set (q := joint_pose (final e)) in *.
  (* the last column of the result is [q] *)
  assert (rightCols1
            (mkMatrix (rows parameters) (cols parameters)
               (fun i j => if Nat.eqb j (cols parameters - 1) then nth i q 0
                           else coeff parameters i j))
          = Normal q) as Hlast.
  { unfold rightCols1. cbn [cols rows coeff]. rewrite Hcols. cbn [eigen_assert bind].
    f_equal. rewrite Nat.eqb_refl. rewrite <- Hlen.
    apply (nth_ext _ _ 0 0).
    - now rewrite length_map, length_seq.
    - intros i Hi. rewrite length_map, length_seq in Hi.
      rewrite (nth_indep _ 0 (nth 0 q 0)) by (rewrite length_map, length_seq; lia).
      rewrite (map_nth (fun i => nth i q 0)). now rewrite seq_nth. }
  (* the second run *)
  assert (ik_run AngleAxisd JacobiSVD forward_kinematics getJacobian
            self (tool_goal_pose_ self) q
          = Normal (mkIkExit Converged (mkIkState q (forward_kinematics q) 0))) as Hrun.
  { unfold ik_run. cbn [ik_loop iteration_count].
    assert ((0 <? to_unsigned (max_iterations_ self))%Z = true) as E
      by (apply Z.ltb_lt; lia).
    rewrite E.
    assert (ik_iteration AngleAxisd JacobiSVD forward_kinematics getJacobian self
              (tool_goal_pose_ self) (constrained_indices 0 (dof_nullity_ self))
              (mkIkState q (forward_kinematics q) 0) = Normal StepConverged) as Hit'.
    { apply ik_iteration_converged. apply ik_iteration_converged in Hit.
      cbn [tool_current_pose]. now rewrite <- Hpose. }
    rewrite Hit'. reflexivity. }
  exists q. eexists. split; [exact Hlast|]. split; [exact Hrun|].
  unfold filter, runIK. rewrite Hlast. cbn [bind]. rewrite Hrun. cbn.
  unfold set_rightCols1. cbn [cols rows coeff]. rewrite Hcols, Hlen, Nat.eqb_refl.
  cbn [eigen_assert bind].
  split; [reflexivity|]. cbn. repeat split.
  intros i j Hi. destruct (Nat.eqb j (cols parameters - 1)); reflexivity.
Qed.

(** X17: without a Jacobian at the start vector no update is
    ever made: whenever [runIK] returns, [joint_pose] is the start
    vector, and the verdict is true only if the start vector passes the
    convergence test itself. *)
Theorem no_jacobian_means_no_update
    (self : UnderconstrainedGoal) (goal : Affine3d) (init : VectorXd) (e : ik_exit) :
  getJacobian init = None ->
  ik_run AngleAxisd JacobiSVD forward_kinematics getJacobian self goal init = Normal e ->
  final e = mkIkState init (forward_kinematics init) 0 /\
  runIK AngleAxisd JacobiSVD forward_kinematics getJacobian self goal init
    = Normal (converged e, init) /\
  (converged e = true ->
   ik_iteration AngleAxisd JacobiSVD forward_kinematics getJacobian self goal
     (constrained_indices 0 (dof_nullity_ self))
     (mkIkState init (forward_kinematics init) 0) = Normal StepConverged).
Proof.
  intros Hj Hrun. pose proof Hrun as Hloop.
  unfold ik_run in Hloop. apply ik_loop_exit in Hloop.
  destruct Hloop as ((n & Hn & Hzero) & Hst).
  assert (n = 0%nat) as ->.
  { destruct n as [|n]; [reflexivity|].
    apply ik_updates_invariant in Hn. destruct Hn as (_ & _ & Hup).
    destruct Hup as [_ Hup]; [discriminate|]. cbn in Hup. congruence. }
  specialize (Hzero eq_refl).
  split; [exact Hzero|]. split.
  - unfold runIK. rewrite Hrun. cbn [bind]. now rewrite Hzero.
  - intro Hc. unfold converged in Hc.
    destruct (status e); try discriminate.
    destruct Hst as [_ Hit]. now rewrite Hzero in Hit.
Qed.

(** X18: under a mask that frees the three rotation axes,
    with positive thresholds and a positive budget, a start vector whose
    tool position agrees with the goal on every constrained translation
    axis is converged before any update, whatever the two orientations
    and the angle-axis conversion are. *)
Theorem position_only_goal_ignores_the_orientation
    (self : UnderconstrainedGoal) (goal : Affine3d) (init : VectorXd) (n0 n1 n2 : Z) :
  dof_nullity_ self = [n0; n1; n2; 0; 0; 0]%Z ->
  length (cartesian_convergence_thresholds_ self) = 6%nat ->
  Forall (fun h => 0 < h) (cartesian_convergence_thresholds_ self) ->
  (0 < max_iterations_ self < 2 ^ 31)%Z ->
  (n0 = 0%Z \/ vx (translation goal) == vx (translation (forward_kinematics init))) ->
  (n1 = 0%Z \/ vy (translation goal) == vy (translation (forward_kinematics init))) ->
  (n2 = 0%Z \/ vz (translation goal) == vz (translation (forward_kinematics init))) ->
  ik_run AngleAxisd JacobiSVD forward_kinematics getJacobian self goal init
    = Normal (mkIkExit Converged (mkIkState init (forward_kinematics init) 0)) /\
  runIK AngleAxisd JacobiSVD forward_kinematics getJacobian self goal init
    = Normal (true, init).
Proof.
  intros Hmask Hlen Hpos Hmax H0 H1 H2.
  assert (ik_run AngleAxisd JacobiSVD forward_kinematics getJacobian self goal init
          = Normal (mkIkExit Converged (mkIkState init (forward_kinematics init) 0)))
    as Hrun.
  { unfold ik_run. cbn [ik_loop iteration_count].
    rewrite to_unsigned_small by lia.
    assert ((0 <? max_iterations_ self)%Z = true) as E by (apply Z.ltb_lt; lia).
    rewrite E.
    assert (ik_iteration AngleAxisd JacobiSVD forward_kinematics getJacobian self goal
              (constrained_indices 0 (dof_nullity_ self))
              (mkIkState init (forward_kinematics init) 0) = Normal StepConverged) as Hit.
    { apply ik_iteration_converged. cbn [tool_current_pose].
      unfold computeTwist. rewrite Hmask.
      destruct (force_angle_range_total
                  (angle (AngleAxisd
                            (m3_mul (m3_transpose (rotation (forward_kinematics init)))
                                    (rotation goal))))) as (a & Ha & _).
      rewrite Ha. cbn [bind].
      eexists. split; [reflexivity|]. split; [now rewrite Hlen|].
      apply all_below_zero; [|exact Hpos].
      cbn.
      repeat constructor;
        match goal with
        | |- (if (?n =? 0)%Z then _ else _) == 0 =>
            destruct (n =? 0)%Z eqn:En; [reflexivity|apply Z.eqb_neq in En]
        end.
      - destruct H0 as [H0|H0]; [congruence|]. rewrite H0. ring.
      - destruct H1 as [H1|H1]; [congruence|]. rewrite H1. ring.
      - destruct H2 as [H2|H2]; [congruence|]. rewrite H2. ring. }
    rewrite Hit. reflexivity. }
  split; [exact Hrun|]. unfold runIK. rewrite Hrun. reflexivity.
Qed.

(** X19: [configure] takes update rates of any size; a pass
    through the loop body that reaches the update with as many rates as
    the pseudo-inverse has rows is the only one that updates: with any
    other number of rates the pass ends in an Eigen assertion, not in a
    false return. *)
Theorem update_rates_of_the_wrong_size_trip_an_assertion
    (self : UnderconstrainedGoal) (goal : Affine3d) (indices : list nat) (s : ik_state)
    (tool_twist : VectorXd) (jacb0 jacb1 jacb_reduced : MatrixXd) :
  computeTwist AngleAxisd (tool_current_pose s) goal (dof_nullity_ self)
    = Normal tool_twist ->
  check_convergence tool_twist (cartesian_convergence_thresholds_ self) = Normal false ->
  getJacobian (joint_pose s) = Some jacb0 ->
  transform_bottom_rows (rotation (tool_current_pose s)) jacb0 = Normal jacb1 ->
  reduceJacobian jacb1 indices = Normal jacb_reduced ->
  length (joint_update_rates_ self) <> rows (matrixV (JacobiSVD jacb_reduced)) ->
  ik_iteration AngleAxisd JacobiSVD forward_kinematics getJacobian self goal indices s
    = EigenAssert.
Proof.
  intros Htwist Hcheck Hjac Htrans Hred Hrates.
  unfold ik_iteration. rewrite Htwist. cbn [bind]. rewrite Hcheck. cbn [bind].
  rewrite Hjac, Htrans. cbn [bind]. rewrite Hred. cbn [bind].
  destruct (mat_vec _ _) as [delta_j| |] eqn:Hd; cbn [bind]; [|reflexivity|].
  - apply mat_vec_length in Hd. cbn in Hd.
    unfold update_joint_pose.
    assert (Nat.eqb (length (joint_update_rates_ self)) (length delta_j) = false) as E
      by (apply Nat.eqb_neq; congruence).
    rewrite E. reflexivity.
  - exfalso. revert Hd. unfold mat_vec. no_fuel.
Qed.

End SolverFurther.

Section MissingBudget.

Variable indeterminate_int : Z.
Variable indeterminate_double : Q.
Variable AngleAxisd : Matrix3d -> AngleAxis.
Variable JacobiSVD : MatrixXd -> SVD.
Variable forward_kinematics : VectorXd -> Affine3d.
Variable getJacobian : VectorXd -> option MatrixXd.

(** X8: a struct with well-formed arrays and no
    [max_ik_iterations] is accepted: the conversion of the missing value
    gives 0, [configure] returns true with a budget of 0, and from then
    on [runIK] returns false with the start vector for every goal. *)
Theorem missing_budget_is_accepted_and_disables_the_solver
    (m : list (string * XmlRpcValue)) (dofs : list Z) (thresholds rates : list Q)
    (self : UnderconstrainedGoal) (goal : Affine3d) (init : VectorXd) :
  struct_member "constrained_dofs" m = TypeArray (map TypeInt dofs) ->
  struct_member "cartesian_convergence" m = TypeArray (map TypeDouble thresholds) ->
  struct_member "joint_update_rates" m = TypeArray (map TypeDouble rates) ->
  (forall v, ~ In ("max_ik_iterations"%string, v) m) ->
  length dofs = 6%nat ->
  length thresholds = 6%nat ->
  rates <> [] ->
  exists self' : UnderconstrainedGoal,
    configure indeterminate_int indeterminate_double (TypeStruct m) self
      = Normal (true, self') /\
    max_iterations_ self' = 0%Z /\
    runIK AngleAxisd JacobiSVD forward_kinematics getJacobian self' goal init
      = Normal (false, init).
Proof.
  intros Hd Ht Hr Hmiss Ld Lt Lr.
  exists (mkGoal dofs rates thresholds 0 (tool_goal_pose_ self)).
  split; [|split; reflexivity].
  apply configure_accepts_struct; auto.
  now rewrite (struct_member_missing _ _ Hmiss).
Qed.

End MissingBudget.

(* ================================================================= *)
(** ** The further properties on the one-joint arm *)

(** Ten updates bring the arm from x = 0 to within 0.001 of x = 1. *)
Lemma runIK_true_means_within_thresholds_witness :
  let joint_pose' :=
    snd (Fixture.returned (false, [])
           (runIK Fixture.AngleAxisd Fixture.JacobiSVD Fixture.forward_kinematics
              Fixture.getJacobian (Fixture.full_goal 20) (Fixture.pose_at 1) [0])) in
  exists twist : VectorXd,
    computeTwist Fixture.AngleAxisd (Fixture.forward_kinematics joint_pose')
      (Fixture.pose_at 1) [1; 1; 1; 1; 1; 1]%Z = Normal twist /\
    Forall2 (fun t h => Qabs t < h) twist Fixture.tight.
Proof.
  intro joint_pose'.
  apply (runIK_true_means_within_thresholds
           Fixture.AngleAxisd Fixture.JacobiSVD Fixture.forward_kinematics
           Fixture.getJacobian (Fixture.full_goal 20) (Fixture.pose_at 1) [0] joint_pose').
  vm_compute. reflexivity.
Defined.

Lemma filter_returns_whenever_runIK_does_witness :
  length [1 # 2] = length [0] /\
  length [1 # 2] = rows (Fixture.waypoints 0) /\
  exists r : filter_result,
    filter Fixture.AngleAxisd Fixture.JacobiSVD Fixture.forward_kinematics
      Fixture.getJacobian (Fixture.full_goal 1) 0 3 0 0 (Fixture.waypoints 0) true
      = Normal r /\
    filter_return r = false /\
    filter_filtered r = false.
Proof.
  apply (filter_returns_whenever_runIK_does
           Fixture.AngleAxisd Fixture.JacobiSVD Fixture.forward_kinematics
           Fixture.getJacobian (Fixture.full_goal 1) 0 3 0%Z 0%Z (Fixture.waypoints 0) true
           [0] [1 # 2] false).
  - reflexivity.
  - vm_compute. reflexivity.
Defined.

Lemma filter_is_idempotent_on_success_witness :
  let parameters := Fixture.waypoints 1 in
  let r :=
    mkFilterResult true
      (Fixture.returned parameters (set_rightCols1 parameters [1])) true in
  exists (joint_pose' : VectorXd) (r' : filter_result),
    rightCols1 (filter_parameters r) = Normal joint_pose' /\
    ik_run Fixture.AngleAxisd Fixture.JacobiSVD Fixture.forward_kinematics
      Fixture.getJacobian (Fixture.full_goal 1) (Fixture.pose_at 1) joint_pose'
      = Normal (mkIkExit Converged
                  (mkIkState joint_pose' (Fixture.forward_kinematics joint_pose') 0)) /\
    filter Fixture.AngleAxisd Fixture.JacobiSVD Fixture.forward_kinematics
      Fixture.getJacobian (Fixture.full_goal 1) 0 3 0 0
      (filter_parameters r) (filter_filtered r) = Normal r' /\
    filter_return r' = true /\
    filter_filtered r' = true /\
    rows (filter_parameters r') = rows (filter_parameters r) /\
    cols (filter_parameters r') = cols (filter_parameters r) /\
    forall i j : nat, (i < rows (filter_parameters r))%nat ->
      coeff (filter_parameters r') i j = coeff (filter_parameters r) i j.
Proof.
  intros parameters r.
  apply (filter_is_idempotent_on_success
           Fixture.AngleAxisd Fixture.JacobiSVD Fixture.forward_kinematics
           Fixture.getJacobian (Fixture.full_goal 1) 0 3 0%Z 0%Z parameters false r).
  - reflexivity.
  - reflexivity.
Defined.

Lemma no_jacobian_means_no_update_witness :
  let e := mkIkExit JacobianUnavailable (mkIkState [0] (Fixture.pose_at 0) 0) in
  final e = mkIkState [0] (Fixture.forward_kinematics [0]) 0 /\
  runIK Fixture.AngleAxisd Fixture.JacobiSVD Fixture.forward_kinematics
    Fixture.noJacobian (Fixture.full_goal 5) (Fixture.pose_at 1) [0]
    = Normal (converged e, [0]) /\
  (converged e = true ->
   ik_iteration Fixture.AngleAxisd Fixture.JacobiSVD Fixture.forward_kinematics
     Fixture.noJacobian (Fixture.full_goal 5) (Fixture.pose_at 1)
     (constrained_indices 0 (dof_nullity_ (Fixture.full_goal 5)))
     (mkIkState [0] (Fixture.forward_kinematics [0]) 0) = Normal StepConverged).
Proof.
  intro e.
  apply (no_jacobian_means_no_update
           Fixture.AngleAxisd Fixture.JacobiSVD Fixture.forward_kinematics
           Fixture.noJacobian (Fixture.full_goal 5) (Fixture.pose_at 1) [0] e).
  - reflexivity.
  - vm_compute. reflexivity.
Defined.

(** The angle-axis conversion answers an angle of 10 about z, and the
    mask frees the rotation. *)
Lemma position_only_goal_ignores_the_orientation_witness :
  let self := mkGoal [1; 1; 1; 0; 0; 0]%Z [1 # 2] Fixture.tight 3 (Fixture.pose_at 1) in
  ik_run Fixture.wound_AngleAxisd Fixture.JacobiSVD Fixture.forward_kinematics
    Fixture.getJacobian self (Fixture.pose_at 1) [1]
    = Normal (mkIkExit Converged (mkIkState [1] (Fixture.forward_kinematics [1]) 0)) /\
  runIK Fixture.wound_AngleAxisd Fixture.JacobiSVD Fixture.forward_kinematics
    Fixture.getJacobian self (Fixture.pose_at 1) [1]
    = Normal (true, [1]).
Proof.
  intro self.
  apply (position_only_goal_ignores_the_orientation
           Fixture.wound_AngleAxisd Fixture.JacobiSVD Fixture.forward_kinematics
           Fixture.getJacobian self (Fixture.pose_at 1) [1] 1%Z 1%Z 1%Z).
  - reflexivity.
  - reflexivity.
  - repeat constructor.
  - simpl. lia.
  - right. reflexivity.
  - right. reflexivity.
  - right. reflexivity.
Defined.

(** Two update rates for the one joint of the arm. *)
Lemma update_rates_of_the_wrong_size_trip_an_assertion_witness :
  let self :=
    mkGoal [1; 1; 1; 1; 1; 1]%Z [1 # 2; 1 # 3] Fixture.tight 5 (Fixture.pose_at 1) in
  ik_iteration Fixture.AngleAxisd Fixture.JacobiSVD Fixture.forward_kinematics
    Fixture.getJacobian self (Fixture.pose_at 1) [0; 1; 2; 3; 4; 5]%nat
    (mkIkState [0] (Fixture.pose_at 0) 0)
  = EigenAssert.
Proof.
  intro self.
  apply (update_rates_of_the_wrong_size_trip_an_assertion
           Fixture.AngleAxisd Fixture.JacobiSVD Fixture.forward_kinematics
           Fixture.getJacobian self (Fixture.pose_at 1) [0; 1; 2; 3; 4; 5]%nat
           (mkIkState [0] (Fixture.pose_at 0) 0)
           [1; 0; 0; 0; 0; 0]
           Fixture.jacobian
           (Fixture.returned Fixture.jacobian
              (transform_bottom_rows m3_identity Fixture.jacobian))
           (Fixture.returned Fixture.jacobian
              (reduceJacobian
                 (Fixture.returned Fixture.jacobian
                    (transform_bottom_rows m3_identity Fixture.jacobian))
                 [0; 1; 2; 3; 4; 5]%nat))).
  - reflexivity.
  - reflexivity.
  - reflexivity.
  - reflexivity.
  - reflexivity.
  - simpl. discriminate.
Defined.

Lemma missing_budget_is_accepted_and_disables_the_solver_witness :
  exists self' : UnderconstrainedGoal,
    configure 0%Z 0
      (TypeStruct
         [("constrained_dofs"%string, TypeArray (map TypeInt [1; 1; 1; 0; 0; 0]%Z));
          ("cartesian_convergence"%string, TypeArray (map TypeDouble Fixture.tight));
          ("joint_update_rates"%string, TypeArray (map TypeDouble [1 # 2]))])
      (Fixture.full_goal 5)
      = Normal (true, self') /\
    max_iterations_ self' = 0%Z /\
    runIK Fixture.AngleAxisd Fixture.JacobiSVD Fixture.forward_kinematics
      Fixture.getJacobian self' (Fixture.pose_at 1) [1]
      = Normal (false, [1]).
Proof.
  apply (missing_budget_is_accepted_and_disables_the_solver 0%Z 0
           Fixture.AngleAxisd Fixture.JacobiSVD Fixture.forward_kinematics
           Fixture.getJacobian _ [1; 1; 1; 0; 0; 0]%Z Fixture.tight [1 # 2]).
  - reflexivity.
  - reflexivity.
  - reflexivity.
  - intros v [H|[H|[H|[]]]]; discriminate.
  - reflexivity.
  - reflexivity.
  - discriminate.
Defined.

(* ================================================================= *)
(** ** The update at a zero twist, and the rotation of the Jacobian *)

Lemma sumQ_zero (n : nat) (f : nat -> Q) :
  (forall k, (k < n)%nat -> f k == 0) -> sumQ n f == 0.
Proof.
  induction n as [|n IH]; intro H; cbn [sumQ]; [reflexivity|].
  rewrite IH by (intros; apply H; lia). rewrite (H n) by lia. ring.
Qed.

Lemma nth_zero (l : list Q) (k : nat) : Forall (fun x => x == 0) l -> nth k l 0 == 0.
Proof.
  intro H. revert k. induction H as [|x l Hx Hl IH]; intros [|k]; simpl; auto; reflexivity.
Qed.

Lemma add_scaled_zero :
  forall q r d : list Q,
    Forall (fun x => x == 0) d -> Forall2 Qeq (add_scaled q r d) (firstn (length (add_scaled q r d)) q).
Proof.
  induction q as [|x q IH]; intros [|y r] [|z d] Hd; simpl; try constructor.
  - inversion Hd as [|? ? Hz Hd']; subst. rewrite Hz. ring.
  - inversion Hd; subst. now apply IH.
Qed.

Section UpdateProperties.

Variable AngleAxisd : Matrix3d -> AngleAxis.
Variable JacobiSVD : MatrixXd -> SVD.
Variable forward_kinematics : VectorXd -> Affine3d.
Variable getJacobian : VectorXd -> option MatrixXd.

(** X20: a joint vector whose twist to the goal is zero in
    every entry is a fixed point of the update: a pass that is kept from
    converging (by a threshold that is not positive) and reaches the
    update hands back a joint vector of the same values, whatever the
    Jacobian and the update rates are. *)
Theorem update_at_a_zero_twist_keeps_the_joint_values
    (self : UnderconstrainedGoal) (goal : Affine3d) (indices : list nat) (s s' : ik_state)
    (tool_twist : VectorXd) :
  computeTwist AngleAxisd (tool_current_pose s) goal (dof_nullity_ self)
    = Normal tool_twist ->
  Forall (fun t => t == 0) tool_twist ->
  ik_iteration AngleAxisd JacobiSVD forward_kinematics getJacobian self goal indices s
    = Normal (StepUpdated s') ->
  Forall2 Qeq (joint_pose s') (joint_pose s).
Proof.
  intros Htwist Hzero H.
  pose proof (ik_iteration_updated AngleAxisd JacobiSVD forward_kinematics getJacobian
                self goal indices s s' H) as (_ & Hlen & _ & _).
  unfold ik_iteration in H. rewrite Htwist in H. cbn [bind] in H.
  destruct (check_convergence tool_twist _) as [below| |]; cbn [bind] in H;
    try discriminate.
  destruct below; [discriminate|].
  destruct (getJacobian (joint_pose s)) as [jacb|]; [|discriminate].
  destruct (transform_bottom_rows _ _) as [j1| |]; cbn [bind] in H; try discriminate.
  destruct (reduceJacobian _ _) as [j2| |]; cbn [bind] in H; try discriminate.
  destruct (mat_vec _ _) as [d| |] eqn:Hd; cbn [bind] in H; try discriminate.
  destruct (update_joint_pose _ _ _) as [q| |] eqn:Hu; cbn [bind] in H; try discriminate.
  injection H as <-. cbn [joint_pose] in *.
  assert (Forall (fun x => x == 0) d) as Hdz.
  { unfold mat_vec in Hd.
    destruct (Nat.eqb _ _); cbn [eigen_assert bind] in Hd; try discriminate.
    injection Hd as <-.
    apply Forall_forall. intros x Hx. apply in_map_iff in Hx.
    destruct Hx as (i & <- & _).
    apply sumQ_zero. intros k _.
    assert (nth k (map (fun k0 => nth k0 tool_twist 0) indices) 0 == 0) as E.
    { apply nth_zero. apply Forall_forall. intros y Hy. apply in_map_iff in Hy.
      destruct Hy as (k0 & <- & _). now apply nth_zero. }
    rewrite E. ring. }
  unfold update_joint_pose in Hu.
  destruct (Nat.eqb (length (joint_update_rates_ self)) (length d));
    cbn [eigen_assert bind] in Hu; try discriminate.
  destruct (Nat.eqb (length (joint_pose s)) (length d));
    cbn [eigen_assert bind] in Hu; try discriminate.
  injection Hu as <-.
  pose proof (add_scaled_zero (joint_pose s) (joint_update_rates_ self) d Hdz) as Hz.
  rewrite Hlen, firstn_all in Hz. exact Hz.
Qed.

End UpdateProperties.

(** X11: the rotation of the Jacobian into the tool frame
    needs three rows (fewer trip the assertion of [bottomRows]); it
    keeps the shape and every row above the last three, so the rows of
    the translation axes of a six-row Jacobian do not depend on the tool
    orientation; and with the identity as rotation the last three rows
    keep their values too. *)
Theorem tool_rotation_touches_the_last_three_rows_only (R : Matrix3d) (jacb : MatrixXd) :
  ((rows jacb < 3)%nat -> transform_bottom_rows R jacb = EigenAssert) /\
  ((3 <= rows jacb)%nat ->
   exists rotated : MatrixXd,
     transform_bottom_rows R jacb = Normal rotated /\
     rows rotated = rows jacb /\
     cols rotated = cols jacb /\
     (forall i j : nat, (i < rows jacb - 3)%nat -> coeff rotated i j = coeff jacb i j) /\
     (R = m3_identity -> forall i j : nat, (i < rows jacb)%nat ->
                                           coeff rotated i j == coeff jacb i j)).
Proof.
  unfold transform_bottom_rows. split; intro H.
  - assert (Nat.leb 3 (rows jacb) = false) as E by (apply Nat.leb_gt; lia).
    now rewrite E.
  - assert (Nat.leb 3 (rows jacb) = true) as E by (apply Nat.leb_le; lia).
    rewrite E. cbn [eigen_assert bind].
    eexists. split; [reflexivity|]. cbn [rows cols coeff]. repeat split.
    + intros i j Hi.
      assert (Nat.leb (rows jacb - 3) i = false) as E' by (apply Nat.leb_gt; lia).
      now rewrite E'.
    + intros -> i j Hi.
      destruct (Nat.leb (rows jacb - 3) i) eqn:E'; [|reflexivity].
      apply Nat.leb_le in E'.
      assert (exists a, (a < 3)%nat /\ i = (rows jacb - 3 + a)%nat) as (a & Ha & ->)
        by (exists (i - (rows jacb - 3))%nat; lia).
      replace (rows jacb - 3 + a - (rows jacb - 3))%nat with a by lia.
      destruct a as [|[|[|a]]]; try lia; cbn; ring.
Qed.

Lemma update_at_a_zero_twist_keeps_the_joint_values_witness :
  let s := mkIkState [0] (Fixture.pose_at 0) 0 in
  let s' :=
    match ik_iteration Fixture.AngleAxisd Fixture.JacobiSVD Fixture.forward_kinematics
            Fixture.getJacobian Fixture.zero_threshold_goal (Fixture.pose_at 0)
            [0; 1; 2; 3; 4; 5]%nat s with
    | Normal (StepUpdated s') => s'
    | _ => s
    end in
  Forall2 Qeq (joint_pose s') (joint_pose s).
Proof.
  intros s s'.
  apply (update_at_a_zero_twist_keeps_the_joint_values
           Fixture.AngleAxisd Fixture.JacobiSVD Fixture.forward_kinematics
           Fixture.getJacobian Fixture.zero_threshold_goal (Fixture.pose_at 0)
           [0; 1; 2; 3; 4; 5]%nat s s' [0; 0; 0; 0; 0; 0]).
  - reflexivity.
  - repeat constructor.
  - vm_compute. reflexivity.
Defined.

Lemma tool_rotation_touches_the_last_three_rows_only_witness :
  ((rows Fixture.jacobian < 3)%nat ->
   transform_bottom_rows m3_identity Fixture.jacobian = EigenAssert) /\
  ((3 <= rows Fixture.jacobian)%nat ->
   exists rotated : MatrixXd,
     transform_bottom_rows m3_identity Fixture.jacobian = Normal rotated /\
     rows rotated = rows Fixture.jacobian /\
     cols rotated = cols Fixture.jacobian /\
     (forall i j : nat, (i < rows Fixture.jacobian - 3)%nat ->
                        coeff rotated i j = coeff Fixture.jacobian i j) /\
     (m3_identity = m3_identity ->
      forall i j : nat, (i < rows Fixture.jacobian)%nat ->
                        coeff rotated i j == coeff Fixture.jacobian i j)).
Proof.
  exact (tool_rotation_touches_the_last_three_rows_only m3_identity Fixture.jacobian).
Defined.
